(** * Interview server: the turn-taking coordinator of [server/src/index.ts]

    A shallow embedding of the per-connection state machine that the server
    builds inside [wss.on("connection", ...)]: the mutable variables of the
    closure become one [State] record, every handler becomes a function
    [Env -> ... -> State -> State * list Effect], and everything the code
    sends, logs or schedules is recorded, in order, in the list of effects.

    JavaScript strings are sequences of UTF-16 code units; they are
    modelled as [list N].  Numbers used as counters and timestamps are
    modelled as [Z]: the development assumes they stay in the range where
    double arithmetic is exact (below 2^53). *)

From Stdlib Require Import ZArith NArith List Bool String Ascii Lia Sorted.
Import ListNotations.
Open Scope Z_scope.

(** ** JavaScript strings *)

Module JsString.

Definition jsstring : Type := list N.

(** ASCII literals of the source. *)
Definition lit (s : string) : jsstring :=
  map N_of_ascii (list_ascii_of_string s).

(** A string is truthy when it is not empty. *)
Definition truthy (s : jsstring) : bool :=
  match s with [] => false | _ :: _ => true end.

(** The class [\s] of a regular expression without the [u] flag, which is
    also the set of characters that [String.prototype.trim] removes. *)
Definition is_ws (c : N) : bool :=
  (((0x09 <=? c) && (c <=? 0x0D)) || (c =? 0x20) || (c =? 0xA0)
   || (c =? 0x1680) || ((0x2000 <=? c) && (c <=? 0x200A))
   || (c =? 0x2028) || (c =? 0x2029) || (c =? 0x202F) || (c =? 0x205F)
   || (c =? 0x3000) || (c =? 0xFEFF))%N.

(** [s.replace(/\s+/g, "")] *)
Definition strip_ws (s : jsstring) : jsstring :=
  filter (fun c => negb (is_ws c)) s.

Fixpoint trimStart (s : jsstring) : jsstring :=
  match s with
  | [] => []
  | c :: s' => if is_ws c then trimStart s' else s
  end.

Definition trimEnd (s : jsstring) : jsstring := rev (trimStart (rev s)).

(** [s.trim()] *)
Definition trim (s : jsstring) : jsstring := trimEnd (trimStart s).

Fixpoint startsWith (s w : jsstring) : bool :=
  match w, s with
  | [], _ => true
  | _ :: _, [] => false
  | c :: w', d :: s' => (c =? d)%N && startsWith s' w'
  end.

(** [s.includes(w)] *)
Fixpoint includes (s w : jsstring) : bool :=
  startsWith s w
  || match s with
     | [] => false
     | _ :: s' => includes s' w
     end.

(** [words.some((word) => s.includes(word))]; also [/w1|w2|.../.test(s)]
    for alternatives without metacharacters. *)
Definition includesAny (words : list jsstring) (s : jsstring) : bool :=
  existsb (includes s) words.

(** [parts.join(sep)] *)
Fixpoint join (sep : jsstring) (parts : list jsstring) : jsstring :=
  match parts with
  | [] => []
  | [p] => p
  | p :: rest => p ++ sep ++ join sep rest
  end.

End JsString.
Import JsString.

(** ** Constants and enumerations *)

Definition MIN_TURNS : Z := 20.
Definition MAX_TURNS : Z := 40.

Inductive AiKey : Type := ai_a | ai_b.

Definition AiKey_eqb (x y : AiKey) : bool :=
  match x, y with
  | ai_a, ai_a | ai_b, ai_b => true
  | _, _ => false
  end.

(** [key === "ai_a" ? "ai_b" : "ai_a"] *)
Definition otherKey (key : AiKey) : AiKey :=
  match key with ai_a => ai_b | ai_b => ai_a end.

(** [AI_PROFILES[key].name] *)
Definition profile_name (key : AiKey) : jsstring :=
  match key with
  | ai_a => lit "Interviewer"
  | ai_b => lit "Candidate"
  end.

(** A [Record<AiKey, A>]. *)
Record PerKey (A : Type) : Type := mkPerKey { at_ai_a : A; at_ai_b : A }.
Arguments mkPerKey {A} _ _.
Arguments at_ai_a {A} _.
Arguments at_ai_b {A} _.

Definition get {A : Type} (key : AiKey) (r : PerKey A) : A :=
  match key with ai_a => at_ai_a r | ai_b => at_ai_b r end.

Definition upd {A : Type} (key : AiKey) (v : A) (r : PerKey A) : PerKey A :=
  match key with
  | ai_a => mkPerKey v (at_ai_b r)
  | ai_b => mkPerKey (at_ai_a r) v
  end.

Definition both {A : Type} (v : A) : PerKey A := mkPerKey v v.

Inductive EndReason : Type := marker | max_turns.

(** [WebSocket.readyState] *)
Inductive ReadyState : Type := CONNECTING | OPEN | CLOSING | CLOSED.

Definition is_open (r : ReadyState) : bool :=
  match r with OPEN => true | _ => false end.

(** ** Topic coverage *)

Inductive CoverageKey : Type :=
  experience | motivation | language | shift | stamina | visa.

(** [Object.entries(coverage)] enumerates the keys in this order. *)
Definition coverageKeys : list CoverageKey :=
  [experience; motivation; language; shift; stamina; visa].

Record Coverage : Type := mkCoverage {
  c_experience : bool;
  c_motivation : bool;
  c_language : bool;
  c_shift : bool;
  c_stamina : bool;
  c_visa : bool
}.

Definition covered (t : CoverageKey) (c : Coverage) : bool :=
  match t with
  | experience => c_experience c
  | motivation => c_motivation c
  | language => c_language c
  | shift => c_shift c
  | stamina => c_stamina c
  | visa => c_visa c
  end.

Definition set_covered (t : CoverageKey) (c : Coverage) : Coverage :=
  match t with
  | experience => mkCoverage true (c_motivation c) (c_language c) (c_shift c) (c_stamina c) (c_visa c)
  | motivation => mkCoverage (c_experience c) true (c_language c) (c_shift c) (c_stamina c) (c_visa c)
  | language => mkCoverage (c_experience c) (c_motivation c) true (c_shift c) (c_stamina c) (c_visa c)
  | shift => mkCoverage (c_experience c) (c_motivation c) (c_language c) true (c_stamina c) (c_visa c)
  | stamina => mkCoverage (c_experience c) (c_motivation c) (c_language c) (c_shift c) true (c_visa c)
  | visa => mkCoverage (c_experience c) (c_motivation c) (c_language c) (c_shift c) (c_stamina c) true
  end.

Definition noCoverage : Coverage :=
  mkCoverage false false false false false false.

Definition coverageLabels (t : CoverageKey) : jsstring :=
  match t with
  | experience => [0x7D4C; 0x9A13; 0x30FB; 0x696D; 0x52D9] (* 経験・業務 *)
  | motivation => [0x52D5; 0x6A5F; 0x30FB; 0x7406; 0x7531] (* 動機・理由 *)
  | language => [0x65E5; 0x672C; 0x8A9E; 0x529B] (* 日本語力 *)
  | shift => [0x30B7; 0x30D5; 0x30C8; 0x30FB; 0x591C; 0x52E4] (* シフト・夜勤 *)
  | stamina => [0x4F53; 0x529B; 0x30FB; 0x5065; 0x5EB7] (* 体力・健康 *)
  | visa => [0x5728; 0x7559; 0x002F; 0x958B; 0x59CB; 0x6642; 0x671F] (* 在留/開始時期 *)
  end%N.

(** The alternatives of the regular expression of each topic. *)
Definition coverageWords (t : CoverageKey) : list jsstring :=
  match t with
  | experience =>
      [ [0x7D4C; 0x9A13]; (* 経験 *)
        [0x524D; 0x8077]; (* 前職 *)
        [0x4ECB; 0x8B77]; (* 介護 *)
        [0x696D; 0x52D9]; (* 業務 *)
        [0x4ED5; 0x4E8B]; (* 仕事 *)
        [0x50CD; 0x3044]; (* 働い *)
        [0x52E4; 0x52D9]  (* 勤務 *) ]
  | motivation =>
      [ [0x5FD7; 0x671B]; (* 志望 *)
        [0x7406; 0x7531]; (* 理由 *)
        [0x52D5; 0x6A5F]; (* 動機 *)
        [0x306A; 0x305C]; (* なぜ *)
        [0x304D; 0x3063; 0x304B; 0x3051]; (* きっかけ *)
        [0x3084; 0x308A; 0x305F; 0x3044]; (* やりたい *)
        [0x8208; 0x5473]  (* 興味 *) ]
  | language =>
      [ [0x65E5; 0x672C; 0x8A9E]; (* 日本語 *)
        [0x4F1A; 0x8A71]; (* 会話 *)
        [0x30B3; 0x30DF; 0x30E5; 0x30CB; 0x30B1; 0x30FC; 0x30B7; 0x30E7; 0x30F3]; (* コミュニケーション *)
        [0x805E; 0x304D; 0x53D6; 0x308A]; (* 聞き取り *)
        [0x8AAD; 0x307F]; (* 読み *)
        [0x66F8; 0x304D]  (* 書き *) ]
  | shift =>
      [ [0x30B7; 0x30D5; 0x30C8]; (* シフト *)
        [0x591C; 0x52E4]; (* 夜勤 *)
        [0x65E9; 0x756A]; (* 早番 *)
        [0x9045; 0x756A]; (* 遅番 *)
        [0x52E4; 0x52D9; 0x6642; 0x9593]; (* 勤務時間 *)
        [0x9031]; (* 週 *)
        [0x6642; 0x9593; 0x5E2F]; (* 時間帯 *)
        [0x4F11; 0x307F]  (* 休み *) ]
  | stamina =>
      [ [0x4F53; 0x529B]; (* 体力 *)
        [0x5065; 0x5EB7]; (* 健康 *)
        [0x8170]; (* 腰 *)
        [0x6301; 0x75C5]; (* 持病 *)
        [0x75B2; 0x308C]; (* 疲れ *)
        [0x529B]  (* 力 *) ]
  | visa =>
      [ [0x30D3; 0x30B6]; (* ビザ *)
        [0x5728; 0x7559]; (* 在留 *)
        [0x6EDE; 0x5728]; (* 滞在 *)
        [0x8CC7; 0x683C]; (* 資格 *)
        [0x5C31; 0x52B4]; (* 就労 *)
        [0x671F; 0x9593]; (* 期間 *)
        [0x5165; 0x793E]; (* 入社 *)
        [0x958B; 0x59CB; 0x65E5]; (* 開始日 *)
        [0x3044; 0x3064; 0x304B; 0x3089]  (* いつから *) ]
  end%N.

(** One [if (!coverage.t && /.../.test(normalized)) coverage.t = true]. *)
Definition detect (t : CoverageKey) (normalized : jsstring) (c : Coverage) : Coverage :=
  if negb (covered t c) && includesAny (coverageWords t) normalized
  then set_covered t c
  else c.

Definition updateCoverage (text : jsstring) (c : Coverage) : Coverage :=
  let normalized := strip_ws text in
  if negb (truthy normalized) then c
  else
    let c := detect experience normalized c in
    let c := detect motivation normalized c in
    let c := detect language normalized c in
    let c := detect shift normalized c in
    let c := detect stamina normalized c in
    detect visa normalized c.

(** [Object.values(coverage).every(Boolean)] *)
Definition hasAllCoverage (c : Coverage) : bool :=
  forallb (fun t => covered t c) coverageKeys.

Definition listMissingCoverage (c : Coverage) : jsstring :=
  join (lit ", ")
    (map coverageLabels (filter (fun t => negb (covered t c)) coverageKeys)).

(** ** Routing of a human utterance *)

Inductive Decision : Type := to_key (key : AiKey) | to_both.

Definition candidateHints : list jsstring :=
  [ [0x672C; 0x4EBA]; (* 本人 *)
    [0x5019; 0x88DC; 0x8005]; (* 候補者 *)
    [0x6C42; 0x8077; 0x8005]; (* 求職者 *)
    [0x30DE; 0x30EA; 0x30A2]; (* マリア *)
    [0x5F7C; 0x5973]; (* 彼女 *)
    [0x5F7C]; (* 彼 *)
    [0x65E5; 0x672C; 0x8A9E]; (* 日本語 *)
    [0x7D4C; 0x9A13]; (* 経験 *)
    [0x4ECB; 0x8B77]; (* 介護 *)
    [0x8CC7; 0x683C]; (* 資格 *)
    [0x524D; 0x8077]; (* 前職 *)
    [0x50CD; 0x3044]; (* 働い *)
    [0x3067; 0x304D; 0x307E; 0x3059]; (* できます *)
    [0x3067; 0x304D; 0x308B]  (* できる *) ]%N.

Definition interviewerHints : list jsstring :=
  [ [0x5FA1; 0x793E]; (* 御社 *)
    [0x65BD; 0x8A2D]; (* 施設 *)
    [0x63A1; 0x7528]; (* 採用 *)
    [0x6761; 0x4EF6]; (* 条件 *)
    [0x52E4; 0x52D9]; (* 勤務 *)
    [0x30B7; 0x30D5; 0x30C8]; (* シフト *)
    [0x591C; 0x52E4]; (* 夜勤 *)
    [0x9762; 0x63A5; 0x5B98]; (* 面接官 *)
    [0x4F1A; 0x793E]; (* 会社 *)
    [0x8077; 0x5834]; (* 職場 *)
    [0x5F85; 0x9047]; (* 待遇 *)
    [0x7D66; 0x4E0E]; (* 給与 *)
    [0x5165; 0x793E]; (* 入社 *)
    [0x96C7; 0x7528]  (* 雇用 *) ]%N.

(** [null] is [None]. *)
Definition pickNextSpeaker (utterance : jsstring) : option Decision :=
  let text := strip_ws utterance in
  if negb (truthy text) then None
  else
    let toCandidate := includesAny candidateHints text in
    let toInterviewer := includesAny interviewerHints text in
    if toCandidate && toInterviewer then Some to_both
    else if toCandidate then Some (to_key ai_b)
    else if toInterviewer then Some (to_key ai_a)
    else None.

Definition endMarkers : list jsstring :=
  [ [0x3010; 0x9762; 0x63A5; 0x7D42; 0x4E86; 0x3011]; (* 【面接終了】 *)
    [0x3010; 0x9762; 0x63A5; 0x4E2D; 0x6B62; 0x3011]  (* 【面接中止】 *) ]%N.

(** [endMarkers.some((marker) => finalText.includes(marker))] *)
Definition hasEndMarker (finalText : jsstring) : bool :=
  includesAny endMarkers finalText.

(** ** Messages, effects and the environment *)

(** What [sendToClient] serialises for the browser. *)
Inductive ClientPayload : Type :=
| sessions_ready
| waiting_for_sessions
| audio (source : AiKey) (turnId : Z) (data : jsstring)
| audio_start (source : AiKey) (name : jsstring) (turnId : Z)
| audio_done (source : AiKey) (turnId : Z)
| transcript_delta (source : AiKey) (name : jsstring) (turnId : Z) (delta : jsstring)
| transcript_done (source : AiKey) (name : jsstring) (turnId : Z) (text : jsstring)
| user_transcript (text : jsstring)
| session_ended (reason : EndReason)
| error (message : jsstring).

(** What is sent on a provider socket. *)
Inductive ProviderMessage : Type :=
| conversation_item_create (text : jsstring)
| response_create
| input_audio_buffer_append (audio : jsstring)
| input_audio_buffer_commit.

(** The events named by [logEvent]. *)
Inductive TurnEvent : Type :=
| log_audio_start
| log_audio_done
| log_transcript_delta (len : nat)
| log_transcript_done (len : nat)
| log_response_create
| log_audio_playback_done.

Inductive Effect : Type :=
| ClientSend (payload : ClientPayload)
| AiSend (key : AiKey) (m : ProviderMessage)
(** [setTimeout(() => { if open then socket.send(response.create) }, delayMs)]
    on the socket of [key]. *)
| SetTimeout (key : AiKey) (delayMs : Z)
(** [logEvent(key, event)] with [id = currentTurn[key]]. *)
| LogTurn (key : AiKey) (id : Z) (event : TurnEvent)
(** The [[EndGuard] marker ignored] line. *)
| LogEndGuard (turn : Z) (c : Coverage).

(** What a handler reads from outside the closure when it runs: the
    [readyState] of the three sockets and [Date.now()]. *)
Record Env : Type := mkEnv {
  aiSockets : PerKey ReadyState;
  clientSocket : ReadyState;
  now : Z
}.

(** A parsed client message: [{ type?, target?, data?, turnId? }]. *)
Record Message : Type := mkMessage {
  m_type : option string;
  m_target : option AiKey;
  m_data : option jsstring;
  m_turnId : option Z
}.

(** [message.type === s] *)
Definition type_is (message : Message) (s : string) : bool :=
  match m_type message with
  | Some t => String.eqb t s
  | None => false
  end.

(** ** The state of one connection *)

Record State : Type := mkState {
  sessionReady : PerKey bool;
  pendingStart : bool;
  autoMode : bool;
  userSpeaking : bool;
  queuedNextKeys : list AiKey;
  totalTurns : Z;
  sessionEnded : bool;
  sessionEndReason : option EndReason;
  transcriptBuffers : PerKey jsstring;
  audioStarted : PerKey bool;
  audioDone : PerKey bool;
  transcriptDone : PerKey bool;
  transcriptSent : PerKey bool;
  playbackDone : PerKey bool;
  currentTurn : PerKey Z;
  transcriptDeltaQueue : PerKey (list jsstring);
  transcriptFinalText : PerKey (option jsstring);
  lastUserTranscript : jsstring;
  lastUserTranscriptAt : Z;
  coverage : Coverage
}.

Definition set_sessionReady (v : PerKey bool) (st : State) : State :=
  mkState v (pendingStart st) (autoMode st) (userSpeaking st)
    (queuedNextKeys st) (totalTurns st) (sessionEnded st)
    (sessionEndReason st) (transcriptBuffers st) (audioStarted st)
    (audioDone st) (transcriptDone st) (transcriptSent st) (playbackDone st)
    (currentTurn st) (transcriptDeltaQueue st) (transcriptFinalText st)
    (lastUserTranscript st) (lastUserTranscriptAt st) (coverage st).

Definition set_pendingStart (v : bool) (st : State) : State :=
  mkState (sessionReady st) v (autoMode st) (userSpeaking st)
    (queuedNextKeys st) (totalTurns st) (sessionEnded st)
    (sessionEndReason st) (transcriptBuffers st) (audioStarted st)
    (audioDone st) (transcriptDone st) (transcriptSent st) (playbackDone st)
    (currentTurn st) (transcriptDeltaQueue st) (transcriptFinalText st)
    (lastUserTranscript st) (lastUserTranscriptAt st) (coverage st).

Definition set_autoMode (v : bool) (st : State) : State :=
  mkState (sessionReady st) (pendingStart st) v (userSpeaking st)
    (queuedNextKeys st) (totalTurns st) (sessionEnded st)
    (sessionEndReason st) (transcriptBuffers st) (audioStarted st)
    (audioDone st) (transcriptDone st) (transcriptSent st) (playbackDone st)
    (currentTurn st) (transcriptDeltaQueue st) (transcriptFinalText st)
    (lastUserTranscript st) (lastUserTranscriptAt st) (coverage st).

Definition set_userSpeaking (v : bool) (st : State) : State :=
  mkState (sessionReady st) (pendingStart st) (autoMode st) v
    (queuedNextKeys st) (totalTurns st) (sessionEnded st)
    (sessionEndReason st) (transcriptBuffers st) (audioStarted st)
    (audioDone st) (transcriptDone st) (transcriptSent st) (playbackDone st)
    (currentTurn st) (transcriptDeltaQueue st) (transcriptFinalText st)
    (lastUserTranscript st) (lastUserTranscriptAt st) (coverage st).

Definition set_queuedNextKeys (v : list AiKey) (st : State) : State :=
  mkState (sessionReady st) (pendingStart st) (autoMode st)
    (userSpeaking st) v (totalTurns st) (sessionEnded st)
    (sessionEndReason st) (transcriptBuffers st) (audioStarted st)
    (audioDone st) (transcriptDone st) (transcriptSent st) (playbackDone st)
    (currentTurn st) (transcriptDeltaQueue st) (transcriptFinalText st)
    (lastUserTranscript st) (lastUserTranscriptAt st) (coverage st).

Definition set_totalTurns (v : Z) (st : State) : State :=
  mkState (sessionReady st) (pendingStart st) (autoMode st)
    (userSpeaking st) (queuedNextKeys st) v (sessionEnded st)
    (sessionEndReason st) (transcriptBuffers st) (audioStarted st)
    (audioDone st) (transcriptDone st) (transcriptSent st) (playbackDone st)
    (currentTurn st) (transcriptDeltaQueue st) (transcriptFinalText st)
    (lastUserTranscript st) (lastUserTranscriptAt st) (coverage st).

Definition set_sessionEnded (v : bool) (st : State) : State :=
  mkState (sessionReady st) (pendingStart st) (autoMode st)
    (userSpeaking st) (queuedNextKeys st) (totalTurns st) v
    (sessionEndReason st) (transcriptBuffers st) (audioStarted st)
    (audioDone st) (transcriptDone st) (transcriptSent st) (playbackDone st)
    (currentTurn st) (transcriptDeltaQueue st) (transcriptFinalText st)
    (lastUserTranscript st) (lastUserTranscriptAt st) (coverage st).

Definition set_sessionEndReason (v : option EndReason) (st : State) : State :=
  mkState (sessionReady st) (pendingStart st) (autoMode st)
    (userSpeaking st) (queuedNextKeys st) (totalTurns st) (sessionEnded st)
    v (transcriptBuffers st) (audioStarted st) (audioDone st)
    (transcriptDone st) (transcriptSent st) (playbackDone st)
    (currentTurn st) (transcriptDeltaQueue st) (transcriptFinalText st)
    (lastUserTranscript st) (lastUserTranscriptAt st) (coverage st).

Definition set_transcriptBuffers (v : PerKey jsstring) (st : State) : State :=
  mkState (sessionReady st) (pendingStart st) (autoMode st)
    (userSpeaking st) (queuedNextKeys st) (totalTurns st) (sessionEnded st)
    (sessionEndReason st) v (audioStarted st) (audioDone st)
    (transcriptDone st) (transcriptSent st) (playbackDone st)
    (currentTurn st) (transcriptDeltaQueue st) (transcriptFinalText st)
    (lastUserTranscript st) (lastUserTranscriptAt st) (coverage st).

Definition set_audioStarted (v : PerKey bool) (st : State) : State :=
  mkState (sessionReady st) (pendingStart st) (autoMode st)
    (userSpeaking st) (queuedNextKeys st) (totalTurns st) (sessionEnded st)
    (sessionEndReason st) (transcriptBuffers st) v (audioDone st)
    (transcriptDone st) (transcriptSent st) (playbackDone st)
    (currentTurn st) (transcriptDeltaQueue st) (transcriptFinalText st)
    (lastUserTranscript st) (lastUserTranscriptAt st) (coverage st).

Definition set_audioDone (v : PerKey bool) (st : State) : State :=
  mkState (sessionReady st) (pendingStart st) (autoMode st)
    (userSpeaking st) (queuedNextKeys st) (totalTurns st) (sessionEnded st)
    (sessionEndReason st) (transcriptBuffers st) (audioStarted st) v
    (transcriptDone st) (transcriptSent st) (playbackDone st)
    (currentTurn st) (transcriptDeltaQueue st) (transcriptFinalText st)
    (lastUserTranscript st) (lastUserTranscriptAt st) (coverage st).

Definition set_transcriptDone (v : PerKey bool) (st : State) : State :=
  mkState (sessionReady st) (pendingStart st) (autoMode st)
    (userSpeaking st) (queuedNextKeys st) (totalTurns st) (sessionEnded st)
    (sessionEndReason st) (transcriptBuffers st) (audioStarted st)
    (audioDone st) v (transcriptSent st) (playbackDone st) (currentTurn st)
    (transcriptDeltaQueue st) (transcriptFinalText st)
    (lastUserTranscript st) (lastUserTranscriptAt st) (coverage st).

Definition set_transcriptSent (v : PerKey bool) (st : State) : State :=
  mkState (sessionReady st) (pendingStart st) (autoMode st)
    (userSpeaking st) (queuedNextKeys st) (totalTurns st) (sessionEnded st)
    (sessionEndReason st) (transcriptBuffers st) (audioStarted st)
    (audioDone st) (transcriptDone st) v (playbackDone st) (currentTurn st)
    (transcriptDeltaQueue st) (transcriptFinalText st)
    (lastUserTranscript st) (lastUserTranscriptAt st) (coverage st).

Definition set_playbackDone (v : PerKey bool) (st : State) : State :=
  mkState (sessionReady st) (pendingStart st) (autoMode st)
    (userSpeaking st) (queuedNextKeys st) (totalTurns st) (sessionEnded st)
    (sessionEndReason st) (transcriptBuffers st) (audioStarted st)
    (audioDone st) (transcriptDone st) (transcriptSent st) v
    (currentTurn st) (transcriptDeltaQueue st) (transcriptFinalText st)
    (lastUserTranscript st) (lastUserTranscriptAt st) (coverage st).

Definition set_currentTurn (v : PerKey Z) (st : State) : State :=
  mkState (sessionReady st) (pendingStart st) (autoMode st)
    (userSpeaking st) (queuedNextKeys st) (totalTurns st) (sessionEnded st)
    (sessionEndReason st) (transcriptBuffers st) (audioStarted st)
    (audioDone st) (transcriptDone st) (transcriptSent st) (playbackDone st)
    v (transcriptDeltaQueue st) (transcriptFinalText st)
    (lastUserTranscript st) (lastUserTranscriptAt st) (coverage st).

Definition set_transcriptDeltaQueue (v : PerKey (list jsstring)) (st : State) : State :=
  mkState (sessionReady st) (pendingStart st) (autoMode st)
    (userSpeaking st) (queuedNextKeys st) (totalTurns st) (sessionEnded st)
    (sessionEndReason st) (transcriptBuffers st) (audioStarted st)
    (audioDone st) (transcriptDone st) (transcriptSent st) (playbackDone st)
    (currentTurn st) v (transcriptFinalText st) (lastUserTranscript st)
    (lastUserTranscriptAt st) (coverage st).

Definition set_transcriptFinalText (v : PerKey (option jsstring)) (st : State) : State :=
  mkState (sessionReady st) (pendingStart st) (autoMode st)
    (userSpeaking st) (queuedNextKeys st) (totalTurns st) (sessionEnded st)
    (sessionEndReason st) (transcriptBuffers st) (audioStarted st)
    (audioDone st) (transcriptDone st) (transcriptSent st) (playbackDone st)
    (currentTurn st) (transcriptDeltaQueue st) v (lastUserTranscript st)
    (lastUserTranscriptAt st) (coverage st).

Definition set_lastUserTranscript (v : jsstring) (st : State) : State :=
  mkState (sessionReady st) (pendingStart st) (autoMode st)
    (userSpeaking st) (queuedNextKeys st) (totalTurns st) (sessionEnded st)
    (sessionEndReason st) (transcriptBuffers st) (audioStarted st)
    (audioDone st) (transcriptDone st) (transcriptSent st) (playbackDone st)
    (currentTurn st) (transcriptDeltaQueue st) (transcriptFinalText st) v
    (lastUserTranscriptAt st) (coverage st).

Definition set_lastUserTranscriptAt (v : Z) (st : State) : State :=
  mkState (sessionReady st) (pendingStart st) (autoMode st)
    (userSpeaking st) (queuedNextKeys st) (totalTurns st) (sessionEnded st)
    (sessionEndReason st) (transcriptBuffers st) (audioStarted st)
    (audioDone st) (transcriptDone st) (transcriptSent st) (playbackDone st)
    (currentTurn st) (transcriptDeltaQueue st) (transcriptFinalText st)
    (lastUserTranscript st) v (coverage st).

Definition set_coverage (v : Coverage) (st : State) : State :=
  mkState (sessionReady st) (pendingStart st) (autoMode st)
    (userSpeaking st) (queuedNextKeys st) (totalTurns st) (sessionEnded st)
    (sessionEndReason st) (transcriptBuffers st) (audioStarted st)
    (audioDone st) (transcriptDone st) (transcriptSent st) (playbackDone st)
    (currentTurn st) (transcriptDeltaQueue st) (transcriptFinalText st)
    (lastUserTranscript st) (lastUserTranscriptAt st) v.

Definition initialState : State :=
  mkState (both false) false false false [] 0 false None (both [])
    (both false) (both false) (both false) (both false) (both false)
    (both 0) (both []) (both None) [] 0 noCoverage.

(** ** Handlers

    A handler transforms the state and appends to the effects, in program
    order. *)

Definition Handler : Type := State -> State * list Effect.

Definition done : Handler := fun st => (st, []).

Definition andThen (h1 h2 : Handler) : Handler :=
  fun st =>
    let (st1, out1) := h1 st in
    let (st2, out2) := h2 st1 in
    (st2, out1 ++ out2).

Notation "h1 ;; h2" := (andThen h1 h2) (at level 61, right associativity).

Definition modify (f : State -> State) : Handler := fun st => (f st, []).

Definition emit (out : list Effect) : Handler := fun st => (st, out).

(** Reads the variables of the closure at this point of the program. *)
Definition reading (f : State -> Handler) : Handler := fun st => f st st.

(** [field[key] = v] *)
Definition assign {A : Type} (field : State -> PerKey A)
    (set : PerKey A -> State -> State) (key : AiKey) (v : A) : Handler :=
  modify (fun st => set (upd key v (field st)) st).

(** Truthiness of a [string | null]. *)
Definition truthy_text (t : option jsstring) : bool :=
  match t with
  | Some s => truthy s
  | None => false
  end.

Definition text_of (t : option jsstring) : jsstring :=
  match t with
  | Some s => s
  | None => []
  end.

Fixpoint eqb_jsstring (s t : jsstring) : bool :=
  match s, t with
  | [], [] => true
  | c :: s', d :: t' => (c =? d)%N && eqb_jsstring s' t'
  | _, _ => false
  end.

Definition logEvent (key : AiKey) (event : TurnEvent) : Handler :=
  reading (fun st => emit [LogTurn key (get key (currentTurn st)) event]).

Definition sendToClient (env : Env) (payload : ClientPayload) : Handler :=
  emit (if is_open (clientSocket env) then [ClientSend payload] else []).

(** [aiSockets[key].send(m)] behind its [readyState === WebSocket.OPEN] test. *)
Definition sendToAi (env : Env) (key : AiKey) (m : ProviderMessage) : Handler :=
  emit (if is_open (get key (aiSockets env)) then [AiSend key m] else []).

Definition endSession (env : Env) (reason : EndReason) : Handler :=
  reading (fun st =>
    if sessionEnded st then done
    else
      modify (set_sessionEnded true) ;;
      modify (set_sessionEndReason (Some reason)) ;;
      modify (set_autoMode false) ;;
      modify (set_queuedNextKeys []) ;;
      sendToClient env (session_ended reason)).

(** The callback that [requestAiResponse] hands to [setTimeout]. *)
Definition responseCreateTimer (env : Env) (key : AiKey) : list Effect :=
  if negb (is_open (get key (aiSockets env))) then []
  else [AiSend key response_create].

Definition requestAiResponse (env : Env) (key : AiKey) (delayMs : Z) : Handler :=
  if negb (is_open (get key (aiSockets env))) then done
  else
    reading (fun st => assign currentTurn set_currentTurn key (get key (currentTurn st) + 1)) ;;
    logEvent key log_response_create ;;
    assign audioStarted set_audioStarted key false ;;
    assign audioDone set_audioDone key false ;;
    assign transcriptDone set_transcriptDone key false ;;
    assign transcriptSent set_transcriptSent key false ;;
    assign playbackDone set_playbackDone key false ;;
    assign transcriptDeltaQueue set_transcriptDeltaQueue key [] ;;
    assign transcriptFinalText set_transcriptFinalText key None ;;
    assign transcriptBuffers set_transcriptBuffers key [] ;;
    emit [SetTimeout key delayMs].

Definition checkTurnCompletion (env : Env) (key : AiKey) : Handler :=
  reading (fun st =>
    if negb (get key (audioDone st)) || negb (get key (transcriptDone st))
       || negb (get key (playbackDone st)) then done
    else if negb (autoMode st) || userSpeaking st then done
    else if sessionEnded st then done
    else
      match queuedNextKeys st with
      | nextKey :: rest =>
          modify (set_queuedNextKeys rest) ;; requestAiResponse env nextKey 450
      | [] => requestAiResponse env (otherKey key) 450
      end).

(** The block shared by [onAudioDone] and [onTranscriptDone]: forward the
    final transcript to the client and mark it sent. *)
Definition forwardTranscript (env : Env) (key : AiKey) : Handler :=
  reading (fun st =>
    sendToClient env
      (transcript_done key (profile_name key) (get key (currentTurn st))
         (text_of (get key (transcriptFinalText st))))) ;;
  assign transcriptFinalText set_transcriptFinalText key None ;;
  assign transcriptDeltaQueue set_transcriptDeltaQueue key [] ;;
  assign transcriptSent set_transcriptSent key true.

Definition onReady (env : Env) (key : AiKey) : Handler :=
  assign sessionReady set_sessionReady key true ;;
  reading (fun st =>
    if pendingStart st && get ai_a (sessionReady st) && get ai_b (sessionReady st)
    then
      modify (set_pendingStart false) ;;
      sendToClient env sessions_ready ;;
      reading (fun st' =>
        if autoMode st' then requestAiResponse env ai_a 0 else done)
    else done).

Definition onAudioDelta (env : Env) (key : AiKey) (audioBase64 : jsstring) : Handler :=
  reading (fun st =>
    sendToClient env (audio key (get key (currentTurn st)) audioBase64)) ;;
  reading (fun st =>
    if negb (get key (audioStarted st)) then
      assign audioStarted set_audioStarted key true ;;
      logEvent key log_audio_start ;;
      sendToClient env (audio_start key (profile_name key) (get key (currentTurn st)))
    else done) ;;
  reading (fun st =>
    match get key (transcriptDeltaQueue st) with
    | delta :: rest =>
        assign transcriptDeltaQueue set_transcriptDeltaQueue key rest ;;
        (if truthy delta then
           sendToClient env
             (transcript_delta key (profile_name key) (get key (currentTurn st)) delta)
         else done)
    | [] => done
    end).

Definition onAudioDone (env : Env) (key : AiKey) : Handler :=
  logEvent key log_audio_done ;;
  reading (fun st => sendToClient env (audio_done key (get key (currentTurn st)))) ;;
  assign audioDone set_audioDone key true ;;
  reading (fun st =>
    if truthy_text (get key (transcriptFinalText st))
       && negb (get key (transcriptSent st))
    then forwardTranscript env key
    else done) ;;
  checkTurnCompletion env key.

Definition onTranscriptDelta (key : AiKey) (delta : jsstring) : Handler :=
  reading (fun st =>
    assign transcriptBuffers set_transcriptBuffers key
      (get key (transcriptBuffers st) ++ delta)) ;;
  (if truthy delta then
     reading (fun st =>
       assign transcriptDeltaQueue set_transcriptDeltaQueue key
         (get key (transcriptDeltaQueue st) ++ [delta])) ;;
     logEvent key (log_transcript_delta (List.length delta))
   else done).

(** [transcript || transcriptBuffers[key]] *)
Definition finalTextOf (key : AiKey) (transcript : jsstring) (st : State) : jsstring :=
  if truthy transcript then transcript else get key (transcriptBuffers st).

(** The text of the nudge sent to the interviewer. *)
Definition continueText (missing : jsstring) : jsstring :=
  lit "Continue the interview. Missing topics: " ++ missing
  ++ lit ". Do NOT close yet.".

(** The text by which one role hears the other. *)
Definition saidText (key : AiKey) (finalText : jsstring) : jsstring :=
  lit "[" ++ (match key with ai_a => lit "Interviewer" | ai_b => lit "Candidate" end)
  ++ lit " said]: " ++ finalText.

(** [onTranscriptDone], lines 422-429: the final text is stored, the turn is
    counted, and the interviewer's text updates the coverage. *)
Definition recordTranscript (key : AiKey) (finalText : jsstring) : Handler :=
  assign transcriptBuffers set_transcriptBuffers key [] ;;
  assign transcriptFinalText set_transcriptFinalText key (Some finalText) ;;
  assign transcriptDone set_transcriptDone key true ;;
  logEvent key (log_transcript_done (List.length finalText)) ;;
  modify (fun st => set_totalTurns (totalTurns st + 1) st) ;;
  (if AiKey_eqb key ai_a then
     modify (fun st => set_coverage (updateCoverage finalText (coverage st)) st)
   else done).

(** [onTranscriptDone], lines 430-461: the closing marker behind its guard,
    else the limit on the number of turns. *)
Definition evaluateEnd (env : Env) (key : AiKey) (finalText : jsstring) : Handler :=
  reading (fun st =>
    if hasEndMarker finalText then
      if (MIN_TURNS <=? totalTurns st) && hasAllCoverage (coverage st) then
        endSession env marker
      else
        emit [LogEndGuard (totalTurns st) (coverage st)] ;;
        (if AiKey_eqb key ai_a then
           let missing := listMissingCoverage (coverage st) in
           if is_open (get ai_a (aiSockets env)) && truthy missing then
             emit [AiSend ai_a (conversation_item_create (continueText missing))]
           else done
         else done)
    else if MAX_TURNS <=? totalTurns st then endSession env max_turns
    else done).

Definition onTranscriptDone (env : Env) (key : AiKey) (transcript : jsstring) : Handler :=
  reading (fun st0 =>
    let finalText := finalTextOf key transcript st0 in
    recordTranscript key finalText ;;
    evaluateEnd env key finalText ;;
    reading (fun st =>
      if get key (audioDone st)
         && truthy_text (get key (transcriptFinalText st))
         && negb (get key (transcriptSent st))
      then forwardTranscript env key
      else done) ;;
    checkTurnCompletion env key ;;
    (if truthy (trim finalText) then
       sendToAi env (otherKey key) (conversation_item_create (saidText key finalText))
     else done)).

Definition onInputTranscriptDone (env : Env) (key : AiKey) (transcript : jsstring) : Handler :=
  if negb (AiKey_eqb key ai_a) then done
  else
    let normalized := trim transcript in
    if negb (truthy normalized) then done
    else
      reading (fun st =>
        if eqb_jsstring normalized (lastUserTranscript st)
           && (now env - lastUserTranscriptAt st <? 2000)
        then done
        else
          modify (set_lastUserTranscript normalized) ;;
          modify (set_lastUserTranscriptAt (now env)) ;;
          sendToClient env (user_transcript normalized)).

Definition onInputTranscript : Handler := done.

Definition onError (env : Env) (message : jsstring) : Handler :=
  sendToClient env (error message).

(** The [user_done] branch: the speakers chosen for the human utterance. *)
Definition nextKeysFor (env : Env) (st : State) : list AiKey :=
  if truthy (lastUserTranscript st) && (now env - lastUserTranscriptAt st <? 5000)
  then
    match pickNextSpeaker (lastUserTranscript st) with
    | Some (to_key ai_a) => [ai_a]
    | Some (to_key ai_b) => [ai_b]
    | Some to_both => [ai_a; ai_b]
    | None => [ai_a]
    end
  else [ai_a].

(** The handler of [clientSocket.on("message", ...)], after [JSON.parse]. *)
Definition onClientMessage (env : Env) (message : Message) : Handler :=
  if type_is message "start" then
    modify (set_autoMode true) ;;
    modify (set_sessionEnded false) ;;
    modify (set_sessionEndReason None) ;;
    modify (set_totalTurns 0) ;;
    modify (set_queuedNextKeys []) ;;
    modify (set_coverage noCoverage) ;;
    reading (fun st =>
      if get ai_a (sessionReady st) && get ai_b (sessionReady st) then
        sendToClient env sessions_ready ;; requestAiResponse env ai_a 0
      else
        modify (set_pendingStart true) ;; sendToClient env waiting_for_sessions)
  else
  match type_is message "request_ai", m_target message with
  | true, Some target => requestAiResponse env target 0
  | _, _ =>
  if type_is message "user_audio" && truthy_text (m_data message) then
    sendToAi env ai_a (input_audio_buffer_append (text_of (m_data message))) ;;
    sendToAi env ai_b (input_audio_buffer_append (text_of (m_data message)))
  else if type_is message "user_audio_commit" then
    sendToAi env ai_a input_audio_buffer_commit ;;
    sendToAi env ai_b input_audio_buffer_commit
  else if type_is message "user_speaking" then
    modify (set_userSpeaking true)
  else if type_is message "user_done" then
    modify (set_userSpeaking false) ;;
    reading (fun st =>
      if autoMode st && negb (sessionEnded st) then
        match nextKeysFor env st with
        | first :: rest =>
            modify (set_queuedNextKeys rest) ;; requestAiResponse env first 350
        | [] =>
            modify (set_queuedNextKeys []) ;; requestAiResponse env ai_a 350
        end
      else done)
  else
  match type_is message "audio_playback_done", m_target message with
  | true, Some target =>
      reading (fun st =>
        match m_turnId message with
        | Some turnId =>
            if negb (turnId =? get target (currentTurn st)) then done
            else
              assign playbackDone set_playbackDone target true ;;
              logEvent target log_audio_playback_done ;;
              checkTurnCompletion env target
        | None =>
            assign playbackDone set_playbackDone target true ;;
            logEvent target log_audio_playback_done ;;
            checkTurnCompletion env target
        end)
  | _, _ => done
  end
  end.

(** ** The event loop *)

Inductive Event : Type :=
| ProviderReady (key : AiKey)
| AudioDelta (key : AiKey) (audioBase64 : jsstring)
| AudioDone (key : AiKey)
| TranscriptDelta (key : AiKey) (delta : jsstring)
| TranscriptDone (key : AiKey) (transcript : jsstring)
| InputTranscript (key : AiKey) (transcript : jsstring)
| InputTranscriptDone (key : AiKey) (transcript : jsstring)
| ProviderError (key : AiKey) (message : jsstring)
| ClientMessage (message : Message)
(** A client frame on which [JSON.parse] throws. *)
| ClientUnparsed
(** The timer armed by [requestAiResponse] for [key] fires. *)
| Timeout (key : AiKey).

Definition handle (env : Env) (ev : Event) : Handler :=
  match ev with
  | ProviderReady key => onReady env key
  | AudioDelta key audioBase64 => onAudioDelta env key audioBase64
  | AudioDone key => onAudioDone env key
  | TranscriptDelta key delta => onTranscriptDelta key delta
  | TranscriptDone key transcript => onTranscriptDone env key transcript
  | InputTranscript _ _ => onInputTranscript
  | InputTranscriptDone key transcript => onInputTranscriptDone env key transcript
  | ProviderError _ message => onError env message
  | ClientMessage message => onClientMessage env message
  | ClientUnparsed => done
  | Timeout key => emit (responseCreateTimer env key)
  end.

(** Events are handled one at a time, each in the environment it meets. *)
Fixpoint run (trace : list (Env * Event)) : Handler :=
  match trace with
  | [] => done
  | (env, ev) :: rest => handle env ev ;; run rest
  end.

(** ** Observations on the effects *)

(** The roles for which a generation request was started: each call of
    [requestAiResponse] that passes its guard arms one timer. *)
Definition requestOf (e : Effect) : list AiKey :=
  match e with
  | SetTimeout key _ => [key]
  | _ => []
  end.

Definition requested (out : list Effect) : list AiKey := flat_map requestOf out.

(** The turn identifiers announced by [logEvent(key, "response_create")]. *)
Definition turnIdOf (key : AiKey) (e : Effect) : list Z :=
  match e with
  | LogTurn k id log_response_create => if AiKey_eqb k key then [id] else []
  | _ => []
  end.

Definition assignedTurnIds (key : AiKey) (out : list Effect) : list Z :=
  flat_map (turnIdOf key) out.

(** The texts injected into the conversation of [key]. *)
Definition contextOf (key : AiKey) (e : Effect) : list jsstring :=
  match e with
  | AiSend k (conversation_item_create text) =>
      if AiKey_eqb k key then [text] else []
  | _ => []
  end.

Definition contextsFor (key : AiKey) (out : list Effect) : list jsstring :=
  flat_map (contextOf key) out.

(** The three flags of a turn. *)
Inductive TurnFlag : Type := flag_audioDone | flag_transcriptDone | flag_playbackDone.

Definition flag (f : TurnFlag) (key : AiKey) (st : State) : bool :=
  match f with
  | flag_audioDone => get key (audioDone st)
  | flag_transcriptDone => get key (transcriptDone st)
  | flag_playbackDone => get key (playbackDone st)
  end.

(** The events that end in [checkTurnCompletion(key)], with the flag they
    set before. *)
Definition completionOf (ev : Event) : option (AiKey * TurnFlag) :=
  match ev with
  | AudioDone key => Some (key, flag_audioDone)
  | TranscriptDone key _ => Some (key, flag_transcriptDone)
  | ClientMessage message =>
      match type_is message "audio_playback_done", m_target message with
      | true, Some target => Some (target, flag_playbackDone)
      | _, _ => None
      end
  | _ => None
  end.

(** ** Scenarios *)

Definition allOpen : Env := mkEnv (both OPEN) OPEN 0.

Definition control (type : string) : Message :=
  mkMessage (Some type) None None None.

Definition request_ai (target : AiKey) : Message :=
  mkMessage (Some "request_ai"%string) (Some target) None None.

Definition audio_playback_done (target : AiKey) (turnId : Z) : Message :=
  mkMessage (Some "audio_playback_done"%string) (Some target) None (Some turnId).

(** ** Reasoning about handlers

    A relation between the state before, the state after and the effects
    that holds of doing nothing and composes along [;;] holds of a handler
    as soon as it holds of its parts. *)

Definition Sat (R : State -> State -> list Effect -> Prop) (h : Handler) : Prop :=
  forall st, R st (fst (h st)) (snd (h st)).

Class Compositional (R : State -> State -> list Effect -> Prop) : Prop := {
  comp_done : forall st, R st st [];
  comp_seq : forall st1 st2 st3 out1 out2,
    R st1 st2 out1 -> R st2 st3 out2 -> R st1 st3 (out1 ++ out2)
}.

(** The handler leaves a variable of the closure as it was. *)
Definition keeps {A : Type} (var : State -> A) : State -> State -> list Effect -> Prop :=
  fun st st' _ => var st' = var st.

(** The handler has no effect of the observed kind. *)
Definition silent {X : Type} (obs : Effect -> list X) : State -> State -> list Effect -> Prop :=
  fun _ _ out => flat_map obs out = [].

(** The session has ended: [endSession] ran and no [start] came since. *)
Definition ended (st : State) : Prop :=
  sessionEnded st = true /\ autoMode st = false /\ queuedNextKeys st = [].

(** What [endSession] establishes and only [start] undoes. *)
Definition ended_inv (st : State) : Prop :=
  sessionEnded st = true -> autoMode st = false /\ queuedNextKeys st = [].

Definition keeps_ended_inv : State -> State -> list Effect -> Prop :=
  fun st st' _ => ended_inv st -> ended_inv st'.

(** From an ended session the handler requests nothing and leaves the
    session ended. *)
Definition stays_ended : State -> State -> list Effect -> Prop :=
  fun st st' out => ended st -> ended st' /\ requested out = [].

(** The turn identifiers [a+1, ..., a+n]. *)
Definition turnIdsFrom (a : Z) (n : nat) : list Z :=
  map (fun i => a + Z.of_nat i) (seq 1 n).

(** The handler started [n] requests for [key], which took the next [n]
    turn identifiers of [key]. *)
Definition ticks (key : AiKey) : State -> State -> list Effect -> Prop :=
  fun st st' out =>
    let n := List.length (filter (AiKey_eqb key) (requested out)) in
    get key (currentTurn st') = get key (currentTurn st) + Z.of_nat n
    /\ assignedTurnIds key out = turnIdsFrom (get key (currentTurn st)) n.

(** The interviewer was asked for its first turn. *)
Definition afterFirstRequest : State :=
  fst (handle allOpen (ClientMessage (request_ai ai_a)) initialState).

(** Automatic turn-taking is on and the interviewer's turn 1 has its audio
    and its playback acknowledgment, but not its transcript. *)
Definition twoOfThree : State :=
  fst (run [ (allOpen, ProviderReady ai_a); (allOpen, ProviderReady ai_b);
             (allOpen, ClientMessage (control "start"));
             (allOpen, AudioDone ai_a);
             (allOpen, ClientMessage (audio_playback_done ai_a 1)) ]
         initialState).

(** With the flag [f] of [key] false, the handler starts no request and
    leaves the flag false. *)
Definition gated (key : AiKey) (f : TurnFlag) : State -> State -> list Effect -> Prop :=
  fun st st' out => flag f key st = false -> flag f key st' = false /\ requested out = [].

(** The variables of the session policy. *)
Definition policy (st : State) : Z * bool * option EndReason * Coverage :=
  (totalTurns st, sessionEnded st, sessionEndReason st, coverage st).

(** The coverage after a finalized transcript of [key]: only the
    interviewer's text is looked at. *)
Definition coverageAfter (key : AiKey) (finalText : jsstring) (c : Coverage) : Coverage :=
  match key with
  | ai_a => updateCoverage finalText c
  | ai_b => c
  end.

(** The outcome of the end-of-session evaluation on a running session, from
    the final text, the number of turns counted so far (this one included)
    and the coverage. *)
Definition verdict (finalText : jsstring) (turns : Z) (c : Coverage) : option EndReason :=
  if hasEndMarker finalText then
    if (MIN_TURNS <=? turns) && hasAllCoverage c then Some marker else None
  else if MAX_TURNS <=? turns then Some max_turns
  else None.

(** 【面接終了】 *)
Definition closingText : jsstring :=
  [0x3010; 0x9762; 0x63A5; 0x7D42; 0x4E86; 0x3011]%N.

(** 経験 志望 日本語 シフト 体力 ビザ: one keyword of every topic. *)
Definition allTopicsText : jsstring :=
  [0x7D4C; 0x9A13; 0x20; 0x5FD7; 0x671B; 0x20; 0x65E5; 0x672C; 0x8A9E; 0x20;
   0x30B7; 0x30D5; 0x30C8; 0x20; 0x4F53; 0x529B; 0x20; 0x30D3; 0x30B6]%N.

(** 勤務時間: a shift keyword that contains the experience keyword 勤務. *)
Definition workingHoursText : jsstring := [0x52E4; 0x52D9; 0x6642; 0x9593]%N.

(** 夜 勤: a shift keyword broken by a space. *)
Definition nightShiftText : jsstring := [0x591C; 0x20; 0x52E4]%N.

(** はい *)
Definition yesText : jsstring := [0x306F; 0x3044]%N.

(** A started session in which the interviewer's first transcript touched
    every topic. *)
Definition allCovered : State :=
  fst (run [ (allOpen, ProviderReady ai_a); (allOpen, ProviderReady ai_b);
             (allOpen, ClientMessage (control "start"));
             (allOpen, TranscriptDone ai_a allTopicsText) ]
         initialState).

(** The same session after eighteen more answers of the candidate: nineteen
    turns counted. *)
Definition nineteenTurns : State :=
  fst (run (repeat (allOpen, TranscriptDone ai_b yesText) 18) allCovered).

(** A started session with thirty-nine turns counted and no topic covered. *)
Definition thirtyNineTurns : State :=
  fst (run ((allOpen, ClientMessage (control "start"))
            :: repeat (allOpen, TranscriptDone ai_b yesText) 39)
         initialState).

Definition isSome {A : Type} (o : option A) : bool :=
  match o with Some _ => true | None => false end.

(** 経験 施設: a candidate-directed and an interviewer-directed keyword. *)
Definition bothText : jsstring := [0x7D4C; 0x9A13; 0x20; 0x65BD; 0x8A2D]%N.

(** こんにちは: no keyword of either set. *)
Definition helloText : jsstring := [0x3053; 0x3093; 0x306B; 0x3061; 0x306F]%N.

(** A started session in which the human said [text] at time 1000. *)
Definition humanSaid (text : jsstring) : State :=
  fst (run [ (allOpen, ProviderReady ai_a); (allOpen, ProviderReady ai_b);
             (allOpen, ClientMessage (control "start"));
             (mkEnv (both OPEN) OPEN 1000, InputTranscriptDone ai_a text) ]
         initialState).

(** The human stops speaking at time 2000. *)
Definition atTwoSeconds : Env := mkEnv (both OPEN) OPEN 2000.

(** The human utterance is recent enough to be routed. *)
Definition fresh (env : Env) (st : State) : bool :=
  truthy (lastUserTranscript st) && (now env - lastUserTranscriptAt st <? 5000).

(** The variables that [endSession] writes besides the reason. *)
Definition endedVars (st : State) : bool * bool * list AiKey :=
  (sessionEnded st, autoMode st, queuedNextKeys st).

(** The message that (re)starts a session. *)
Definition isStart (ev : Event) : bool :=
  match ev with
  | ClientMessage message => type_is message "start"
  | _ => false
  end.

(** The manual override. *)
Definition isRequestAi (ev : Event) : bool :=
  match ev with
  | ClientMessage message => type_is message "request_ai" && isSome (m_target message)
  | _ => false
  end.

(** A session driven to its end by [max_turns]. *)
Definition endedByMaxTurns : State :=
  fst (handle allOpen (TranscriptDone ai_b yesText) thirtyNineTurns).

(** ** The timers of [requestAiResponse] *)

(** The roles to which a [response.create] was sent. *)
Definition responseCreateOf (e : Effect) : list AiKey :=
  match e with
  | AiSend key response_create => [key]
  | _ => []
  end.

Definition responseCreates (out : list Effect) : list AiKey :=
  flat_map responseCreateOf out.

(** What the event sends as [response.create]: only a timer that fires
    sends one, and its callback tests the socket alone. *)
Definition timerSends (env : Env) (ev : Event) : list AiKey :=
  match ev with
  | Timeout key => if is_open (get key (aiSockets env)) then [key] else []
  | _ => []
  end.

Definition countFor (key : AiKey) (keys : list AiKey) : nat :=
  List.length (filter (AiKey_eqb key) keys).

(** The timers of [key] that the event fires. *)
Definition firesFor (key : AiKey) (ev : Event) : nat :=
  match ev with
  | Timeout k => if AiKey_eqb key k then 1 else 0
  | _ => 0
  end.

(** [setTimeout] runs a callback once, after it was armed and never before:
    the number of timers of [key] armed and not yet fired after the trace,
    from [pending] of them, or [None] when the trace fires a timer that is
    not pending. The server never calls [clearTimeout]. *)
Fixpoint timersPending (key : AiKey) (trace : list (Env * Event)) (st : State)
    (pending : nat) : option nat :=
  match trace with
  | [] => Some pending
  | (env, ev) :: rest =>
      if (firesFor key ev <=? pending)%nat then
        timersPending key rest (fst (handle env ev st))
          (pending - firesFor key ev
           + countFor key (requested (snd (handle env ev st))))%nat
      else None
  end.

(** Neither a session restart nor a manual override. *)
Definition afterEnd (ev : Event) : bool :=
  negb (isStart ev) && negb (isRequestAi ev).

(** Both sessions are ready, the session starts and the interviewer's first
    request is sent; thirty-nine turns are counted; the human stops
    speaking, which requests the interviewer with a delay of 350 ms; before
    that timer fires the fortieth transcript ends the session. *)
Definition requestThenEnd : list (Env * Event) :=
  [ (allOpen, ProviderReady ai_a); (allOpen, ProviderReady ai_b);
    (allOpen, ClientMessage (control "start")); (allOpen, Timeout ai_a) ]
  ++ repeat (allOpen, TranscriptDone ai_b yesText) 39
  ++ [ (allOpen, ClientMessage (control "user_done"));
       (allOpen, TranscriptDone ai_b yesText) ].

(** ** Further observations *)

(** A handler keeps what holds of the state. *)
Definition preserves (P : State -> Prop) : State -> State -> list Effect -> Prop :=
  fun st st' _ => P st -> P st'.

Definition isTranscriptDone (ev : Event) : bool :=
  match ev with
  | TranscriptDone _ _ => true
  | _ => false
  end.

(** No [start] message among the events. *)
Definition noStart (trace : list (Env * Event)) : bool :=
  forallb (fun p => negb (isStart (snd p))) trace.

(** The number of finalized transcripts among the events. *)
Definition transcriptsIn (trace : list (Env * Event)) : nat :=
  List.length (filter (fun p => isTranscriptDone (snd p)) trace).

(** The [session_ended] reports to the client. *)
Definition endReportOf (e : Effect) : list EndReason :=
  match e with
  | ClientSend (session_ended reason) => [reason]
  | _ => []
  end.

Definition endReports (out : list Effect) : list EndReason := flat_map endReportOf out.

(** Each report of the end takes the session from running to ended. *)
Definition reports_end : State -> State -> list Effect -> Prop :=
  fun st st' out =>
    (List.length (endReports out) + Nat.b2n (sessionEnded st) <= Nat.b2n (sessionEnded st'))%nat.

(** The session has a reason exactly when it has ended. *)
Definition reasonSet (st : State) : Prop :=
  sessionEnded st = isSome (sessionEndReason st).

(** The pending queue is empty or holds the candidate alone. *)
Definition queueShape (st : State) : Prop :=
  queuedNextKeys st = [] \/ queuedNextKeys st = [ai_b].


(** The candidate's turn 1 has its audio and its playback acknowledgment
    when thirty-nine turns are counted. *)
Definition candidateLastTurn : State :=
  fst (run [ (allOpen, ClientMessage (request_ai ai_b));
             (allOpen, AudioDone ai_b);
             (allOpen, ClientMessage (audio_playback_done ai_b 1)) ]
         thirtyNineTurns).

(** Automatic turn-taking is off or the human is speaking. *)
Definition paused (st : State) : Prop :=
  autoMode st = false \/ userSpeaking st = true.

Definition stays_paused : State -> State -> list Effect -> Prop :=
  fun st st' out => paused st -> paused st' /\ requested out = [].

(** The state of the turn of one role. *)
Definition turnState (key : AiKey) (st : State)
  : bool * bool * bool * bool * bool * Z * list jsstring * option jsstring * jsstring :=
  (get key (audioStarted st), get key (audioDone st), get key (transcriptDone st),
   get key (transcriptSent st), get key (playbackDone st), get key (currentTurn st),
   get key (transcriptDeltaQueue st), get key (transcriptFinalText st),
   get key (transcriptBuffers st)).

(** Unless it starts a request, the handler leaves the turn of [key]. *)
Definition undisturbed (key : AiKey) : State -> State -> list Effect -> Prop :=
  fun st st' out => requested out = [] -> turnState key st' = turnState key st.

(** The role an event belongs to: the connection a provider event arrives
    on, the target of a playback acknowledgment. *)
Definition roleOf (ev : Event) : option AiKey :=
  match ev with
  | ProviderReady key | AudioDelta key _ | AudioDone key | TranscriptDelta key _
  | TranscriptDone key _ | InputTranscript key _ | InputTranscriptDone key _
  | ProviderError key _ | Timeout key => Some key
  | ClientMessage message =>
      match type_is message "audio_playback_done", m_target message with
      | true, Some target => Some target
      | _, _ => None
      end
  | ClientUnparsed => None
  end.

(** The shapes of client message that the handler acts on. *)
Definition handled (message : Message) : bool :=
  type_is message "start"
  || (type_is message "request_ai" && isSome (m_target message))
  || (type_is message "user_audio" && truthy_text (m_data message))
  || type_is message "user_audio_commit"
  || type_is message "user_speaking"
  || type_is message "user_done"
  || (type_is message "audio_playback_done" && isSome (m_target message)).

(** The interviewer's turn 1 has its audio and its transcript; its playback
    is not acknowledged yet. *)
Definition awaitingPlayback : State :=
  fst (run [ (allOpen, ProviderReady ai_a); (allOpen, ProviderReady ai_b);
             (allOpen, ClientMessage (control "start"));
             (allOpen, AudioDone ai_a);
             (allOpen, TranscriptDone ai_a yesText) ]
         initialState).

(** The [user_transcript] messages to the client. *)
Definition userTranscriptOf (e : Effect) : list jsstring :=
  match e with
  | ClientSend (user_transcript text) => [text]
  | _ => []
  end.

Definition userTranscripts (out : list Effect) : list jsstring :=
  flat_map userTranscriptOf out.

(** A finalized text of whitespace. *)
Definition blankText : jsstring := [0x20; 0x3000; 0x0A]%N.

(** The transcript deltas of [key] arriving one after the other. *)
Definition deltaEvents (env : Env) (key : AiKey) (deltas : list jsstring)
  : list (Env * Event) :=
  map (fun delta => (env, TranscriptDelta key delta)) deltas.

(** The audio chunks of [key] arriving one after the other. *)
Definition audioEvents (env : Env) (key : AiKey) (chunks : list jsstring)
  : list (Env * Event) :=
  map (fun chunk => (env, AudioDelta key chunk)) chunks.

(** The [transcript_delta] texts sent to the client for [key]. *)
Definition deltaOf (key : AiKey) (e : Effect) : list jsstring :=
  match e with
  | ClientSend (transcript_delta source _ _ delta) =>
      if AiKey_eqb source key then [delta] else []
  | _ => []
  end.

Definition deltasSent (key : AiKey) (out : list Effect) : list jsstring :=
  flat_map (deltaOf key) out.

(** The turn identifiers of the [transcript_done] messages for [key]. *)
Definition transcriptDoneIdOf (key : AiKey) (e : Effect) : list Z :=
  match e with
  | ClientSend (transcript_done source _ turnId _) =>
      if AiKey_eqb source key then [turnId] else []
  | _ => []
  end.

Definition transcriptDoneIds (key : AiKey) (out : list Effect) : list Z :=
  flat_map (transcriptDoneIdOf key) out.

(** The first turn of [key] whose final transcript can still be sent. *)
Definition nextUnsent (key : AiKey) (st : State) : Z :=
  get key (currentTurn st) + (if get key (transcriptSent st) then 1 else 0).

(** The final transcripts sent are those of turns not sent before, in
    increasing order. *)
Definition sends_once (key : AiKey) : State -> State -> list Effect -> Prop :=
  fun st st' out =>
    nextUnsent key st <= nextUnsent key st'
    /\ StronglySorted Z.lt (transcriptDoneIds key out)
    /\ Forall (fun id => nextUnsent key st <= id < nextUnsent key st')
         (transcriptDoneIds key out).

(** はい、 *)
Definition yesCommaText : jsstring := [0x306F; 0x3044; 0x3001]%N.

(** ** The provider connection: [createRealtimeConnection]

    The handler of [ws.on("message")] parses the frame and calls one of
    the handlers above. Its [console.log] lines are left out: they touch
    nothing. *)

(** A JSON value as the dispatcher looks at it: a string, or anything else
    with what [String(...)] makes of it. *)
Inductive JsonValue : Type :=
| JString (s : jsstring)
| JOther (shown : jsstring).

(** A frame that [JSON.parse] turned into an object; a field that is
    missing or [null] is [None]; [e_json] is [JSON.stringify(event)]. (A
    frame that parses to [null] is not covered: reading its [type]
    throws.) *)
Record ProviderEvent : Type := mkProviderEvent {
  e_type : option JsonValue;
  e_delta : option JsonValue;
  e_transcript : option JsonValue;
  e_text : option JsonValue;
  e_json : jsstring
}.

(** [event.type === s] *)
Definition event_is (event : ProviderEvent) (s : string) : bool :=
  match e_type event with
  | Some (JString t) => eqb_jsstring t (lit s)
  | _ => false
  end.

(** [typeof event.type === "string" && event.type.includes(s)] *)
Definition event_includes (event : ProviderEvent) (s : string) : bool :=
  match e_type event with
  | Some (JString t) => includes t (lit s)
  | _ => false
  end.

(** [String(v ?? "")] *)
Definition stringOr (v : option JsonValue) : jsstring :=
  match v with
  | None => []
  | Some (JString s) => s
  | Some (JOther shown) => shown
  end.

(** [typeof v === "string" ? v : otherwise] *)
Definition stringElse (v : option JsonValue) (otherwise : jsstring) : jsstring :=
  match v with
  | Some (JString s) => s
  | _ => otherwise
  end.

(** The handler of [ws.on("message")] of the connection of [key]; [None] is
    a frame on which [JSON.parse] throws. *)
Definition onProviderMessage (env : Env) (key : AiKey) (frame : option ProviderEvent)
  : Handler :=
  match frame with
  | None => onError env (lit "Failed to parse OpenAI message.")
  | Some event =>
      if event_is event "session.updated" then onReady env key
      else if event_is event "response.audio.delta" then
        onAudioDelta env key (stringOr (e_delta event))
      else if event_is event "response.audio.done" then onAudioDone env key
      else if event_is event "response.audio_transcript.delta" then
        onTranscriptDelta key (stringOr (e_delta event))
      else if event_is event "response.audio_transcript.done" then
        onTranscriptDone env key (stringOr (e_transcript event))
      else
        let onErrorEvent :=
          if event_is event "error" then onError env (e_json event) else done in
        if event_includes event "input_audio_transcription" then
          let transcript :=
            stringElse (e_transcript event) (stringElse (e_text event) []) in
          if event_includes event "delta" && truthy transcript then onInputTranscript
          else if truthy transcript then onInputTranscriptDone env key transcript
          else onErrorEvent
        else onErrorEvent
  end.

(** [ws.on("error")] *)
Definition onSocketError (env : Env) (message : jsstring) : Handler :=
  onError env message.

(** The event types with a handler of their own. *)
Definition knownTypes : list string :=
  [ "session.updated"; "response.audio.delta"; "response.audio.done";
    "response.audio_transcript.delta"; "response.audio_transcript.done";
    "error" ]%string.

(** The [error] messages to the client. *)
Definition errorOf (e : Effect) : list jsstring :=
  match e with
  | ClientSend (error message) => [message]
  | _ => []
  end.

(** ** The activity log of the client: [appendLog] in [App.tsx] *)

(** The updater [(prev) => [message, ...prev].slice(0, 30)]. *)
Definition appendLog {A : Type} (message : A) (prev : list A) : list A :=
  firstn 30 (message :: prev).

(** The log after the messages, the first one logged first. *)
Definition logAfter {A : Type} (messages : list A) : list A :=
  fold_left (fun prev message => appendLog message prev) messages [].

(** What the reason of the end says of the session. *)
Definition reasonJustified (st : State) : Prop :=
  match sessionEndReason st with
  | Some marker => MIN_TURNS <= totalTurns st /\ hasAllCoverage (coverage st) = true
  | Some max_turns => MAX_TURNS <= totalTurns st
  | None => True
  end.

(** The turn identifiers of the [audio_start] messages for [key]. *)
Definition audioStartIdOf (key : AiKey) (e : Effect) : list Z :=
  match e with
  | ClientSend (audio_start source _ turnId) =>
      if AiKey_eqb source key then [turnId] else []
  | _ => []
  end.

Definition audioStartIds (key : AiKey) (out : list Effect) : list Z :=
  flat_map (audioStartIdOf key) out.

(** The first turn of [key] whose audio can still be announced. *)
Definition nextUnstarted (key : AiKey) (st : State) : Z :=
  get key (currentTurn st) + (if get key (audioStarted st) then 1 else 0).

Definition starts_once (key : AiKey) : State -> State -> list Effect -> Prop :=
  fun st st' out =>
    nextUnstarted key st <= nextUnstarted key st'
    /\ StronglySorted Z.lt (audioStartIds key out)
    /\ Forall (fun id => nextUnstarted key st <= id < nextUnstarted key st')
         (audioStartIds key out).

(** * Properties *)

Lemma andThen_fst (h1 h2 : Handler) (st : State) :
  fst ((h1 ;; h2) st) = fst (h2 (fst (h1 st))).
Proof.
  unfold andThen. destruct (h1 st) as [st1 out1]; simpl.
  destruct (h2 st1); reflexivity.
Qed.

Lemma andThen_snd (h1 h2 : Handler) (st : State) :
  snd ((h1 ;; h2) st) = snd (h1 st) ++ snd (h2 (fst (h1 st))).
Proof.
  unfold andThen. destruct (h1 st) as [st1 out1]; simpl.
  destruct (h2 st1); reflexivity.
Qed.

Section Composition.
Variable R : State -> State -> list Effect -> Prop.
Context {HR : Compositional R}.

Lemma Sat_done : Sat R done.
Proof. intro st. apply comp_done. Qed.

Lemma Sat_andThen (h1 h2 : Handler) :
  Sat R h1 -> Sat R h2 -> Sat R (h1 ;; h2).
Proof.
  intros H1 H2 st. rewrite andThen_fst, andThen_snd.
  eapply comp_seq; [apply H1 | apply H2].
Qed.

Lemma Sat_reading (f : State -> Handler) :
  (forall s, Sat R (f s)) -> Sat R (reading f).
Proof. intros H st. apply H. Qed.

Lemma Sat_run (trace : list (Env * Event)) :
  (forall env ev, Sat R (handle env ev)) -> Sat R (run trace).
Proof.
  intro H. induction trace as [|[env ev] rest IH]; simpl.
  - apply Sat_done.
  - apply Sat_andThen; [apply H | exact IH].
Qed.
End Composition.

#[export] Instance keeps_compositional {A : Type} (var : State -> A) :
  Compositional (keeps var).
Proof.
  split; unfold keeps.
  - reflexivity.
  - intros st1 st2 st3 _ _ H1 H2. congruence.
Qed.

#[export] Instance silent_compositional {X : Type} (obs : Effect -> list X) :
  Compositional (silent obs).
Proof.
  split; unfold silent.
  - reflexivity.
  - intros _ _ _ out1 out2 H1 H2. rewrite flat_map_app, H1, H2. reflexivity.
Qed.

(** A handler whose head is a control structure is split along it; the
    handlers of the program are unfolded, and what is built from [modify],
    [assign] and [emit] alone is settled by evaluation. *)
Ltac unfold_handler :=
  match goal with
  | |- Sat _ (?h _ _ _ _ _) => is_const h; progress unfold h
  | |- Sat _ (?h _ _ _ _) => is_const h; progress unfold h
  | |- Sat _ (?h _ _ _) => is_const h; progress unfold h
  | |- Sat _ (?h _ _) => is_const h; progress unfold h
  | |- Sat _ (?h _) => is_const h; progress unfold h
  | |- Sat _ ?h => is_const h; progress unfold h
  end.

Ltac by_evaluation :=
  match goal with
  | |- Sat _ (fun _ => _) => let st := fresh "st" in intro st; reflexivity
  end.

Ltac frame_with leaf :=
  repeat first
    [ leaf
    | match goal with
      | |- Sat _ done => exact (Sat_done _)
      | |- Sat _ (_ ;; _) => refine (Sat_andThen _ _ _ _ _)
      | |- Sat _ (reading _) => refine (Sat_reading _ _ _); intro; cbv beta
      | |- Sat _ (if ?b then _ else _) => destruct b
      | |- Sat _ (match ?x with _ => _ end) => destruct x
      | |- Sat _ (emit (if ?b then _ else _)) => destruct b
      | |- Sat _ (let _ := _ in _) => cbv zeta
      end
    | by_evaluation
    | unfold_handler ].

Ltac frame := frame_with fail.

(** *** The guard of [requestAiResponse] *)

Lemma requestAiResponse_open (env : Env) (key : AiKey) (delayMs : Z) (st : State) :
  is_open (get key (aiSockets env)) = true ->
  snd (requestAiResponse env key delayMs st)
  = [LogTurn key (get key (currentTurn st) + 1) log_response_create;
     SetTimeout key delayMs]
  /\ get key (currentTurn (fst (requestAiResponse env key delayMs st)))
     = get key (currentTurn st) + 1
  /\ flag flag_audioDone key (fst (requestAiResponse env key delayMs st)) = false
  /\ flag flag_transcriptDone key (fst (requestAiResponse env key delayMs st)) = false
  /\ flag flag_playbackDone key (fst (requestAiResponse env key delayMs st)) = false.
Proof.
  intro Hopen. unfold requestAiResponse. rewrite Hopen.
  destruct key; repeat split; reflexivity.
Qed.

(** C10: a generation request for a role whose provider connection is not
    open does nothing at all: the state (turn counter, per-turn flags,
    buffers) is returned as it was, nothing is logged, sent or scheduled. *)
Theorem requestAiResponse_closed_noop
    (env : Env) (key : AiKey) (delayMs : Z) (st : State) :
  get key (aiSockets env) <> OPEN ->
  requestAiResponse env key delayMs st = (st, []).
Proof.
  intro Hclosed. unfold requestAiResponse.
  destruct (get key (aiSockets env)); try reflexivity.
  contradiction.
Qed.

Lemma requestAiResponse_closed_noop_witness :
  get ai_b (aiSockets (mkEnv (mkPerKey OPEN CLOSING) OPEN 0)) <> OPEN
  /\ requestAiResponse (mkEnv (mkPerKey OPEN CLOSING) OPEN 0) ai_b 450 initialState
     = (initialState, []).
Proof.
  assert (H : get ai_b (aiSockets (mkEnv (mkPerKey OPEN CLOSING) OPEN 0)) <> OPEN)
    by (simpl; discriminate).
  split; [exact H | exact (requestAiResponse_closed_noop _ ai_b 450 initialState H)].
Defined.

(** *** Playback acknowledgments *)

(** C2: an [audio_playback_done] message whose [turnId] differs from the
    current turn of its target is discarded: the state is returned
    unchanged (in particular [playbackDone] is not set) and there is no
    effect at all, so no turn completion either. *)
Theorem stale_playback_ack_discarded
    (env : Env) (target : AiKey) (turnId : Z) (data : option jsstring) (st : State) :
  turnId <> get target (currentTurn st) ->
  handle env
    (ClientMessage (mkMessage (Some "audio_playback_done"%string) (Some target) data (Some turnId)))
    st
  = (st, []).
Proof.
  intro Hstale. simpl. unfold onClientMessage, type_is; simpl.
  destruct data as [d|]; simpl; unfold reading;
    (destruct (Z.eqb_spec turnId (get target (currentTurn st))) as [E|_];
     [contradiction | reflexivity]).
Qed.

Lemma stale_playback_ack_discarded_witness :
  0 <> get ai_a (currentTurn afterFirstRequest)
  /\ handle allOpen (ClientMessage (audio_playback_done ai_a 0)) afterFirstRequest
     = (afterFirstRequest, []).
Proof.
  assert (H : 0 <> get ai_a (currentTurn afterFirstRequest)) by (simpl; lia).
  split; [exact H | exact (stale_playback_ack_discarded allOpen ai_a 0 None _ H)].
Defined.

(** *** The completion gate *)

#[export] Instance gated_compositional (key : AiKey) (f : TurnFlag) :
  Compositional (gated key f).
Proof.
  split; unfold gated.
  - intros st H. split; [exact H | reflexivity].
  - intros st1 st2 st3 out1 out2 H1 H2 H.
    destruct (H1 H) as [H' E1]. destruct (H2 H') as [H'' E2].
    split; [exact H'' |].
    unfold requested in *. rewrite flat_map_app, E1, E2. reflexivity.
Qed.

Lemma checkTurnCompletion_gate (env : Env) (key : AiKey) (f : TurnFlag) (st : State) :
  flag f key st = false -> checkTurnCompletion env key st = (st, []).
Proof.
  intro H. unfold checkTurnCompletion, reading.
  destruct f; simpl in H; rewrite H; simpl;
    repeat rewrite orb_true_r; reflexivity.
Qed.

Lemma checkTurnCompletion_gated (env : Env) (key : AiKey) (f : TurnFlag) :
  Sat (gated key f) (checkTurnCompletion env key).
Proof.
  intros st H. rewrite (checkTurnCompletion_gate env key f st H).
  split; [exact H | reflexivity].
Qed.

(** What does not write the flag and starts no request. *)
Ltac gated_leaf :=
  idtac;
  match goal with
  | |- Sat (gated ?key _) (checkTurnCompletion _ ?key) =>
      exact (checkTurnCompletion_gated _ _ _)
  | |- Sat (gated _ _) (fun _ => _) =>
      let st := fresh "st" in let H := fresh "H" in
      intros st H; split; [exact H | reflexivity]
  end.

Lemma completion_event_gated (env : Env) (ev : Event) (key : AiKey) (f g : TurnFlag) :
  completionOf ev = Some (key, g) -> g <> f -> Sat (gated key f) (handle env ev).
Proof.
  intros Hev Hneq.
  destruct ev as [| | k | | k t | | | | message | |]; simpl in Hev; try discriminate.
  - (* audio done *)
    injection Hev as -> <-.
    destruct f; try congruence; destruct key; simpl; frame_with gated_leaf.
  - (* transcript done *)
    injection Hev as -> <-.
    destruct f; try congruence; destruct key; simpl; frame_with gated_leaf.
  - (* playback acknowledgment *)
    destruct message as [[type|] [target|] data turnId]; unfold type_is in Hev;
      simpl in Hev; try discriminate;
      destruct (String.eqb_spec type "audio_playback_done") as [->|]; try discriminate.
    injection Hev as -> <-.
    simpl. unfold onClientMessage, type_is; simpl.
    destruct f; try congruence; destruct key; frame_with gated_leaf.
Qed.

(** C1 (as amended): the events that can complete a turn of a role (its
    audio done, its transcript done, its playback acknowledgment) advance to
    the next speaker only when all three flags of that role hold once the
    event has set its own: while another of the three flags is false,
    [checkTurnCompletion] does nothing and the event starts no generation
    request. *)
Theorem turn_completion_needs_all_flags
    (env : Env) (key : AiKey) (f : TurnFlag) (st : State) :
  flag f key st = false ->
  checkTurnCompletion env key st = (st, [])
  /\ forall ev g, completionOf ev = Some (key, g) -> g <> f ->
       requested (snd (handle env ev st)) = []
       /\ flag f key (fst (handle env ev st)) = false.
Proof.
  intro H. split.
  - exact (checkTurnCompletion_gate env key f st H).
  - intros ev g Hev Hneq.
    destruct (completion_event_gated env ev key f g Hev Hneq st H) as [H1 H2].
    split; assumption.
Qed.

Lemma turn_completion_needs_all_flags_witness :
  flag flag_transcriptDone ai_a twoOfThree = false
  /\ autoMode twoOfThree = true
  /\ flag flag_audioDone ai_a twoOfThree = true
  /\ flag flag_playbackDone ai_a twoOfThree = true
  /\ checkTurnCompletion allOpen ai_a twoOfThree = (twoOfThree, [])
  /\ requested (snd (handle allOpen (AudioDone ai_a) twoOfThree)) = [].
Proof.
  assert (H : flag flag_transcriptDone ai_a twoOfThree = false) by reflexivity.
  destruct (turn_completion_needs_all_flags allOpen ai_a flag_transcriptDone twoOfThree H)
    as [H1 H2].
  refine (conj H (conj eq_refl (conj eq_refl (conj eq_refl (conj H1 _))))).
  apply (H2 (AudioDone ai_a) flag_audioDone); [reflexivity | discriminate].
Defined.

(** C1 (as stated) fails: a [request_ai] message starts a generation
    request although every completion flag of both roles is false, before
    and after the message. *)
Lemma request_ignores_completion_flags :
  let st := initialState in
  let r := handle allOpen (ClientMessage (request_ai ai_b)) st in
  (forall f key, flag f key st = false)
  /\ (forall f key, flag f key (fst r) = false)
  /\ requested (snd r) = [ai_b].
Proof.
  repeat split; try (intros [] []; reflexivity).
Qed.

(** *** Finalized transcripts and the session policy *)

Lemma recordTranscript_policy (key : AiKey) (finalText : jsstring) (st : State) :
  policy (fst (recordTranscript key finalText st))
  = (totalTurns st + 1, sessionEnded st, sessionEndReason st,
     coverageAfter key finalText (coverage st)).
Proof. destruct key; reflexivity. Qed.

Lemma endSession_policy (env : Env) (reason : EndReason) (st : State) :
  policy (fst (endSession env reason st))
  = (totalTurns st, true,
     if sessionEnded st then sessionEndReason st else Some reason,
     coverage st).
Proof.
  unfold endSession, reading. destruct (sessionEnded st) eqn:E.
  - unfold policy; simpl. rewrite E. reflexivity.
  - reflexivity.
Qed.

Lemma evaluateEnd_policy (env : Env) (key : AiKey) (finalText : jsstring) (st : State) :
  policy (fst (evaluateEnd env key finalText st))
  = match verdict finalText (totalTurns st) (coverage st) with
    | Some reason =>
        (totalTurns st, true,
         if sessionEnded st then sessionEndReason st else Some reason,
         coverage st)
    | None => policy st
    end.
Proof.
  unfold evaluateEnd, reading, verdict.
  destruct (hasEndMarker finalText).
  - destruct ((MIN_TURNS <=? totalTurns st) && hasAllCoverage (coverage st)).
    + apply endSession_policy.
    + destruct key; simpl;
        destruct (is_open (at_ai_a (aiSockets env)) && truthy (listMissingCoverage (coverage st)));
        reflexivity.
  - destruct (MAX_TURNS <=? totalTurns st).
    + apply endSession_policy.
    + reflexivity.
Qed.

(** What follows the evaluation in [onTranscriptDone] does not write the
    policy variables. *)
Lemma onTranscriptDone_policy (env : Env) (key : AiKey) (transcript : jsstring) (st : State) :
  let finalText := finalTextOf key transcript st in
  policy (fst (onTranscriptDone env key transcript st))
  = policy (fst (evaluateEnd env key finalText (fst (recordTranscript key finalText st)))).
Proof.
  intro finalText. unfold onTranscriptDone. unfold reading at 1. fold finalText.
  rewrite 2 andThen_fst.
  match goal with
  | |- policy (fst (?rest _)) = _ =>
      assert (K : Sat (keeps policy) rest) by frame; apply K
  end.
Qed.

Lemma onTranscriptDone_verdict (env : Env) (key : AiKey) (transcript : jsstring) (st : State) :
  let finalText := finalTextOf key transcript st in
  let c := coverageAfter key finalText (coverage st) in
  policy (fst (onTranscriptDone env key transcript st))
  = match verdict finalText (totalTurns st + 1) c with
    | Some reason =>
        (totalTurns st + 1, true,
         if sessionEnded st then sessionEndReason st else Some reason, c)
    | None => (totalTurns st + 1, sessionEnded st, sessionEndReason st, c)
    end.
Proof.
  intros finalText c.
  rewrite onTranscriptDone_policy, evaluateEnd_policy. fold finalText.
  pose proof (recordTranscript_policy key finalText st) as P.
  unfold policy in P at 1. injection P as P1 P2 P3 P4.
  rewrite P1, P2, P3, P4. fold c.
  destruct (verdict finalText (totalTurns st + 1) c); [reflexivity |].
  unfold policy. rewrite P1, P2, P3, P4. reflexivity.
Qed.

Lemma onTranscriptDone_effects (env : Env) (key : AiKey) (transcript : jsstring) (st : State) :
  let finalText := finalTextOf key transcript st in
  exists before after,
    snd (onTranscriptDone env key transcript st)
    = before
      ++ snd (evaluateEnd env key finalText (fst (recordTranscript key finalText st)))
      ++ after
    /\ (key = ai_a -> contextsFor ai_a before = [] /\ contextsFor ai_a after = []).
Proof.
  intro finalText. unfold onTranscriptDone. unfold reading at 1. fold finalText.
  rewrite 2 andThen_snd.
  eexists _, _. split; [reflexivity |].
  intros ->. split.
  - assert (K : Sat (silent (contextOf ai_a)) (recordTranscript ai_a finalText)) by frame.
    apply K.
  - match goal with
    | |- contextsFor ai_a (snd (?rest _)) = _ =>
        assert (K : Sat (silent (contextOf ai_a)) rest) by frame; apply K
    end.
Qed.

(** C5: a finalized transcript of either role without closing marker that
    brings [totalTurns] to [MAX_TURNS] or more leaves the session ended,
    whatever the coverage; when the session was still running its reason
    becomes [max_turns] and [session_ended] is reported to an open client. *)
Theorem max_turns_ends_session
    (env : Env) (key : AiKey) (transcript : jsstring) (st : State) :
  let finalText := finalTextOf key transcript st in
  let r := onTranscriptDone env key transcript st in
  hasEndMarker finalText = false ->
  MAX_TURNS <= totalTurns st + 1 ->
  sessionEnded (fst r) = true
  /\ (sessionEnded st = false ->
      sessionEndReason (fst r) = Some max_turns
      /\ (is_open (clientSocket env) = true ->
          In (ClientSend (session_ended max_turns)) (snd r))).
Proof.
  intros finalText r Hmarker Hturns.
  pose proof (onTranscriptDone_verdict env key transcript st) as P.
  cbv zeta in P. fold finalText in P. fold r in P.
  assert (V : verdict finalText (totalTurns st + 1)
                (coverageAfter key finalText (coverage st)) = Some max_turns).
  { unfold verdict. rewrite Hmarker.
    destruct (Z.leb_spec MAX_TURNS (totalTurns st + 1)); [reflexivity | lia]. }
  rewrite V in P. unfold policy in P. injection P as _ P2 P3 _.
  split; [exact P2 |].
  intro Hrunning. rewrite Hrunning in P3. split; [exact P3 |].
  intro Hclient.
  destruct (onTranscriptDone_effects env key transcript st) as (before & after & E & _).
  fold finalText in E. fold r in E. rewrite E.
  apply in_or_app; right. apply in_or_app; left.
  pose proof (recordTranscript_policy key finalText st) as Q.
  unfold policy in Q. injection Q as Q1 Q2 _ _.
  unfold evaluateEnd, reading. rewrite Hmarker, Q1.
  destruct (Z.leb_spec MAX_TURNS (totalTurns st + 1)); [| lia].
  unfold endSession, reading. rewrite Q2, Hrunning.
  rewrite !andThen_snd. unfold sendToClient, emit. rewrite Hclient.
  simpl. left. reflexivity.
Qed.

Lemma max_turns_ends_session_witness :
  hasEndMarker (finalTextOf ai_b yesText thirtyNineTurns) = false
  /\ MAX_TURNS <= totalTurns thirtyNineTurns + 1
  /\ hasAllCoverage (coverage thirtyNineTurns) = false
  /\ sessionEnded thirtyNineTurns = false
  /\ sessionEnded (fst (onTranscriptDone allOpen ai_b yesText thirtyNineTurns)) = true
  /\ sessionEndReason (fst (onTranscriptDone allOpen ai_b yesText thirtyNineTurns))
     = Some max_turns.
Proof.
  assert (H1 : hasEndMarker (finalTextOf ai_b yesText thirtyNineTurns) = false)
    by reflexivity.
  assert (H2 : MAX_TURNS <= totalTurns thirtyNineTurns + 1) by (vm_compute; discriminate).
  destruct (max_turns_ends_session allOpen ai_b yesText thirtyNineTurns H1 H2) as [E R].
  refine (conj H1 (conj H2 (conj eq_refl (conj eq_refl (conj E _))))).
  exact (proj1 (R eq_refl)).
Defined.

(** C6 (as amended): the end-of-session evaluation runs on every finalized
    transcript, of the interviewer and of the candidate alike: on a running
    session the transcript of either role ends it with reason [marker] when
    it contains a closing marker, [totalTurns] has reached [MIN_TURNS] and
    the coverage is complete, and with reason [max_turns] when it contains
    no marker and [totalTurns] has reached [MAX_TURNS]. Only the coverage
    update (and the corrective context) depend on the role. *)
Theorem end_evaluation_on_every_transcript
    (env : Env) (key : AiKey) (transcript : jsstring) (st : State) :
  let finalText := finalTextOf key transcript st in
  let c := coverageAfter key finalText (coverage st) in
  let st' := fst (onTranscriptDone env key transcript st) in
  totalTurns st' = totalTurns st + 1
  /\ coverage st' = c
  /\ sessionEnded st'
     = sessionEnded st || isSome (verdict finalText (totalTurns st + 1) c)
  /\ sessionEndReason st'
     = if sessionEnded st then sessionEndReason st
       else match verdict finalText (totalTurns st + 1) c with
            | Some reason => Some reason
            | None => sessionEndReason st
            end.
Proof.
  intros finalText c st'.
  pose proof (onTranscriptDone_verdict env key transcript st) as P.
  cbv zeta in P. fold finalText in P. fold c in P. fold st' in P.
  destruct (verdict finalText (totalTurns st + 1) c) as [reason|];
    unfold policy in P; injection P as P1 P2 P3 P4;
    rewrite P1, P2, P3, P4; destruct (sessionEnded st); auto.
Qed.

(** C6 (as stated) fails: the candidate's transcript with the closing
    marker, as twentieth turn of a session with complete coverage, ends the
    session with reason [marker]. *)
Lemma candidate_marker_ends_session :
  let st' := fst (onTranscriptDone allOpen ai_b closingText nineteenTurns) in
  sessionEnded nineteenTurns = false
  /\ hasEndMarker closingText = true
  /\ sessionEnded st' = true
  /\ sessionEndReason st' = Some marker.
Proof. vm_compute. repeat split. Qed.

(** *** The guard of the closing marker *)

Lemma listMissingCoverage_truthy (c : Coverage) :
  truthy (listMissingCoverage c) = negb (hasAllCoverage c).
Proof. destruct c as [[] [] [] [] [] []]; reflexivity. Qed.

(** The text lists the label of a topic exactly when the topic is missing. *)
Lemma listMissingCoverage_names (c : Coverage) (topic : CoverageKey) :
  includes (listMissingCoverage c) (coverageLabels topic) = negb (covered topic c).
Proof. destruct c as [[] [] [] [] [] []]; destruct topic; vm_compute; reflexivity. Qed.

Lemma evaluateEnd_guard_fails (env : Env) (finalText : jsstring) (st : State) :
  hasEndMarker finalText = true ->
  (MIN_TURNS <=? totalTurns st) && hasAllCoverage (coverage st) = false ->
  contextsFor ai_a (snd (evaluateEnd env ai_a finalText st))
  = if is_open (get ai_a (aiSockets env)) && negb (hasAllCoverage (coverage st))
    then [continueText (listMissingCoverage (coverage st))]
    else [].
Proof.
  intros Hmarker Hguard. unfold evaluateEnd, reading.
  rewrite Hmarker, Hguard. rewrite andThen_snd. simpl.
  rewrite listMissingCoverage_truthy.
  destruct (is_open (at_ai_a (aiSockets env)) && negb (hasAllCoverage (coverage st)));
    reflexivity.
Qed.

(** C3 (as amended): when the interviewer's finalized transcript contains a
    closing marker and the guard fails ([totalTurns] below [MIN_TURNS] or
    the coverage incomplete), the session does not end; if a topic is still
    missing and the interviewer's connection is open, exactly one corrective
    text is injected into the interviewer's own conversation, and it names
    the labels of exactly the missing topics; if no topic is missing (the
    guard failed on the number of turns alone) nothing is injected. *)
Theorem closing_marker_guard (env : Env) (transcript : jsstring) (st : State) :
  let finalText := finalTextOf ai_a transcript st in
  let c := updateCoverage finalText (coverage st) in
  let r := onTranscriptDone env ai_a transcript st in
  hasEndMarker finalText = true ->
  totalTurns st + 1 < MIN_TURNS \/ hasAllCoverage c = false ->
  sessionEnded (fst r) = sessionEnded st
  /\ sessionEndReason (fst r) = sessionEndReason st
  /\ contextsFor ai_a (snd r)
     = (if is_open (get ai_a (aiSockets env)) && negb (hasAllCoverage c)
        then [continueText (listMissingCoverage c)]
        else [])
  /\ forall topic,
       includes (listMissingCoverage c) (coverageLabels topic) = negb (covered topic c).
Proof.
  intros finalText c r Hmarker Hguard.
  assert (G : (MIN_TURNS <=? totalTurns st + 1) && hasAllCoverage c = false).
  { destruct Hguard as [Hturns | Hcov].
    - destruct (Z.leb_spec MIN_TURNS (totalTurns st + 1)); [lia | reflexivity].
    - rewrite Hcov. apply andb_false_r. }
  pose proof (onTranscriptDone_verdict env ai_a transcript st) as P.
  cbv zeta in P. fold finalText in P. simpl coverageAfter in P. fold c in P. fold r in P.
  assert (V : verdict finalText (totalTurns st + 1) c = None).
  { unfold verdict. rewrite Hmarker, G. reflexivity. }
  rewrite V in P. unfold policy in P. injection P as _ P2 P3 _.
  refine (conj P2 (conj P3 (conj _ (listMissingCoverage_names c)))).
  destruct (onTranscriptDone_effects env ai_a transcript st) as (before & after & E & S).
  destruct (S eq_refl) as [S1 S2].
  fold finalText in E. fold r in E. rewrite E.
  unfold contextsFor in *. rewrite !flat_map_app, S1, S2, app_nil_r. simpl.
  exact (evaluateEnd_guard_fails env finalText
           (fst (recordTranscript ai_a finalText st)) Hmarker G).
Qed.

Lemma closing_marker_guard_witness :
  let r := onTranscriptDone allOpen ai_a closingText afterFirstRequest in
  hasEndMarker (finalTextOf ai_a closingText afterFirstRequest) = true
  /\ totalTurns afterFirstRequest + 1 < MIN_TURNS
  /\ sessionEnded (fst r) = false
  /\ contextsFor ai_a (snd r) = [continueText (listMissingCoverage noCoverage)].
Proof.
  assert (H1 : hasEndMarker (finalTextOf ai_a closingText afterFirstRequest) = true)
    by reflexivity.
  assert (H2 : totalTurns afterFirstRequest + 1 < MIN_TURNS) by reflexivity.
  destruct (closing_marker_guard allOpen closingText afterFirstRequest H1 (or_introl H2))
    as (E & _ & C & _).
  exact (conj H1 (conj H2 (conj E C))).
Defined.

(** C3 (as stated) fails: with every topic covered and two turns counted,
    the interviewer's closing marker is ignored and no corrective text is
    injected into the interviewer's conversation. *)
Lemma no_corrective_when_nothing_missing :
  let r := onTranscriptDone allOpen ai_a closingText allCovered in
  hasEndMarker (finalTextOf ai_a closingText allCovered) = true
  /\ totalTurns (fst r) = 2
  /\ hasAllCoverage (coverage (fst r)) = true
  /\ sessionEnded (fst r) = false
  /\ contextsFor ai_a (snd r) = [].
Proof. vm_compute. repeat split. Qed.

(** *** Coverage *)

Lemma includesAny_nil (words : list jsstring) :
  forallb truthy words = true -> includesAny words [] = false.
Proof.
  induction words as [|w words IH]; simpl; [reflexivity |].
  intro H. apply andb_prop in H as [Hw Hrest].
  destruct w; [discriminate | simpl]. exact (IH Hrest).
Qed.

Lemma detect_covered_same (t : CoverageKey) (normalized : jsstring) (c : Coverage) :
  covered t (detect t normalized c)
  = covered t c || includesAny (coverageWords t) normalized.
Proof.
  unfold detect.
  destruct (covered t c) eqn:E; simpl.
  - exact E.
  - destruct (includesAny (coverageWords t) normalized).
    + destruct t; reflexivity.
    + exact E.
Qed.

Lemma detect_covered_other (t t' : CoverageKey) (normalized : jsstring) (c : Coverage) :
  t <> t' -> covered t (detect t' normalized c) = covered t c.
Proof.
  intro Hneq. unfold detect.
  destruct (negb (covered t' c) && includesAny (coverageWords t') normalized);
    [| reflexivity].
  destruct t, t'; try reflexivity; contradiction.
Qed.

(** Each flag after [updateCoverage] is the flag before or a keyword of its
    topic found in the text without its whitespace. *)
Lemma updateCoverage_covered (text : jsstring) (c : Coverage) (t : CoverageKey) :
  covered t (updateCoverage text c)
  = covered t c || includesAny (coverageWords t) (strip_ws text).
Proof.
  unfold updateCoverage.
  destruct (strip_ws text) as [|ch rest] eqn:E; simpl negb; cbv iota.
  - rewrite includesAny_nil by (destruct t; reflexivity).
    symmetry. apply orb_false_r.
  - destruct t;
      repeat first [ rewrite detect_covered_same
                   | rewrite detect_covered_other by discriminate ];
      reflexivity.
Qed.

Lemma coverage_eq (c1 c2 : Coverage) :
  (forall t, covered t c1 = covered t c2) -> c1 = c2.
Proof.
  intro H. destruct c1, c2.
  pose proof (H experience). pose proof (H motivation). pose proof (H language).
  pose proof (H shift). pose proof (H stamina). pose proof (H visa).
  simpl in *. congruence.
Qed.

(** C9 (as amended): after an interviewer's finalized utterance every
    coverage flag is its value before or a keyword of its topic found, as a
    substring, in the text without its whitespace, so a flag that is true
    stays true; and from an all-false coverage an utterance that contains a
    shift keyword and no keyword of the other five topics sets the shift
    flag and leaves the other five false. *)
Theorem shift_keyword_flips_shift (env : Env) (transcript : jsstring) (st : State) :
  let finalText := finalTextOf ai_a transcript st in
  let st' := fst (onTranscriptDone env ai_a transcript st) in
  (forall t, covered t (coverage st')
             = covered t (coverage st)
               || includesAny (coverageWords t) (strip_ws finalText))
  /\ (coverage st = noCoverage ->
      includesAny (coverageWords shift) (strip_ws finalText) = true ->
      (forall t, t <> shift ->
         includesAny (coverageWords t) (strip_ws finalText) = false) ->
      coverage st' = mkCoverage false false false true false false).
Proof.
  intros finalText st'.
  assert (C : coverage st' = updateCoverage finalText (coverage st)).
  { pose proof (onTranscriptDone_verdict env ai_a transcript st) as P.
    cbv zeta in P. fold finalText in P. fold st' in P. simpl coverageAfter in P.
    destruct (verdict finalText (totalTurns st + 1)
                (updateCoverage finalText (coverage st)));
      unfold policy in P; injection P as _ _ _ P4; exact P4. }
  assert (A : forall t, covered t (coverage st')
                        = covered t (coverage st)
                          || includesAny (coverageWords t) (strip_ws finalText)).
  { intro t. rewrite C. apply updateCoverage_covered. }
  split; [exact A |].
  intros Hnone Hshift Hothers. apply coverage_eq. intro t. rewrite A, Hnone.
  destruct t; first [rewrite Hshift | rewrite Hothers by discriminate]; reflexivity.
Qed.

Lemma shift_keyword_flips_shift_witness :
  let st' := fst (onTranscriptDone allOpen ai_a nightShiftText afterFirstRequest) in
  coverage afterFirstRequest = noCoverage
  /\ includesAny (coverageWords shift) (strip_ws nightShiftText) = true
  /\ coverage st' = mkCoverage false false false true false false.
Proof.
  assert (H1 : coverage afterFirstRequest = noCoverage) by reflexivity.
  assert (H2 : includesAny (coverageWords shift)
                 (strip_ws (finalTextOf ai_a nightShiftText afterFirstRequest)) = true)
    by reflexivity.
  assert (H3 : forall t, t <> shift ->
                 includesAny (coverageWords t)
                   (strip_ws (finalTextOf ai_a nightShiftText afterFirstRequest)) = false)
    by (intros [] H; try reflexivity; contradiction).
  exact (conj H1 (conj H2
           (proj2 (shift_keyword_flips_shift allOpen nightShiftText afterFirstRequest)
              H1 H2 H3))).
Defined.

(** C9 (as stated) fails: the shift keyword 勤務時間 contains the experience
    keyword 勤務, so that utterance sets the experience flag as well. *)
Lemma shift_keyword_also_flips_experience :
  let st' := fst (onTranscriptDone allOpen ai_a workingHoursText afterFirstRequest) in
  coverage afterFirstRequest = noCoverage
  /\ In workingHoursText (coverageWords shift)
  /\ coverage st' = mkCoverage true false false true false false.
Proof.
  repeat split.
  simpl. do 4 right. left. reflexivity.
Qed.

(** *** Routing of the human utterance *)

Lemma andThen_modify (f : State -> State) (h : Handler) (st : State) :
  (modify f ;; h) st = h (f st).
Proof. unfold andThen, modify. destruct (h (f st)); reflexivity. Qed.

Lemma pickNextSpeaker_both (utterance : jsstring) :
  includesAny candidateHints (strip_ws utterance) = true ->
  includesAny interviewerHints (strip_ws utterance) = true ->
  pickNextSpeaker utterance = Some to_both.
Proof.
  intros Hc Hi. unfold pickNextSpeaker.
  destruct (strip_ws utterance) as [|ch rest]; [discriminate |].
  simpl negb. cbv iota. rewrite Hc, Hi. reflexivity.
Qed.

Lemma pickNextSpeaker_none (utterance : jsstring) :
  includesAny candidateHints (strip_ws utterance) = false ->
  includesAny interviewerHints (strip_ws utterance) = false ->
  pickNextSpeaker utterance = None.
Proof.
  intros Hc Hi. unfold pickNextSpeaker. rewrite Hc, Hi.
  destruct (negb (truthy (strip_ws utterance))); reflexivity.
Qed.

Lemma user_done_step (env : Env) (message : Message) (st : State) :
  m_type message = Some "user_done"%string ->
  autoMode st = true ->
  sessionEnded st = false ->
  handle env (ClientMessage message) st
  = match nextKeysFor env st with
    | first :: rest =>
        requestAiResponse env first 350
          (set_queuedNextKeys rest (set_userSpeaking false st))
    | [] =>
        requestAiResponse env ai_a 350
          (set_queuedNextKeys [] (set_userSpeaking false st))
    end.
Proof.
  intros Htype Hauto Hrunning.
  destruct message as [type target data turnId]. simpl in Htype. subst type.
  simpl handle. unfold onClientMessage, type_is. cbn [m_type m_target m_data String.eqb Ascii.eqb Bool.eqb andb].
  rewrite andThen_modify. unfold reading.
  change (autoMode (set_userSpeaking false st)) with (autoMode st).
  change (sessionEnded (set_userSpeaking false st)) with (sessionEnded st).
  change (nextKeysFor env (set_userSpeaking false st)) with (nextKeysFor env st).
  rewrite Hauto, Hrunning. simpl andb. cbv iota.
  destruct (nextKeysFor env st) as [|first rest]; apply andThen_modify.
Qed.

(** C4 (as amended): when the human stops speaking in a running session and
    the last utterance is fresh (finalized less than 5000 ms ago) and
    matches both keyword sets, the decision is [both] and the order is
    interviewer first, then candidate: the interviewer is requested at once
    and the candidate stays queued for the next turn completion. When the
    utterance is not fresh, or matches neither set (decision [null]), the
    interviewer alone is requested and the queue is left empty. *)
Theorem user_done_routing (env : Env) (message : Message) (st : State) :
  let text := strip_ws (lastUserTranscript st) in
  let r := handle env (ClientMessage message) st in
  m_type message = Some "user_done"%string ->
  autoMode st = true ->
  sessionEnded st = false ->
  (fresh env st = true ->
   includesAny candidateHints text = true ->
   includesAny interviewerHints text = true ->
   pickNextSpeaker (lastUserTranscript st) = Some to_both
   /\ r = requestAiResponse env ai_a 350
            (set_queuedNextKeys [ai_b] (set_userSpeaking false st)))
  /\ (fresh env st = false
      \/ (includesAny candidateHints text = false
          /\ includesAny interviewerHints text = false) ->
      r = requestAiResponse env ai_a 350
            (set_queuedNextKeys [] (set_userSpeaking false st)))
  /\ (includesAny candidateHints text = false ->
      includesAny interviewerHints text = false ->
      pickNextSpeaker (lastUserTranscript st) = None).
Proof.
  intros text r Htype Hauto Hrunning.
  pose proof (user_done_step env message st Htype Hauto Hrunning) as E.
  fold r in E. unfold nextKeysFor in E. fold (fresh env st) in E.
  split; [| split].
  - intros Hfresh Hc Hi.
    pose proof (pickNextSpeaker_both _ Hc Hi) as P.
    split; [exact P |]. rewrite Hfresh, P in E. exact E.
  - intros [Hstale | [Hc Hi]].
    + rewrite Hstale in E. exact E.
    + rewrite (pickNextSpeaker_none _ Hc Hi) in E.
      destruct (fresh env st); exact E.
  - apply pickNextSpeaker_none.
Qed.

Lemma user_done_routing_witness :
  let st := humanSaid bothText in
  let r := handle atTwoSeconds (ClientMessage (control "user_done")) st in
  fresh atTwoSeconds st = true
  /\ pickNextSpeaker (lastUserTranscript st) = Some to_both
  /\ r = requestAiResponse atTwoSeconds ai_a 350
           (set_queuedNextKeys [ai_b] (set_userSpeaking false st)).
Proof.
  assert (H : fresh atTwoSeconds (humanSaid bothText) = true) by reflexivity.
  exact (conj H
           (proj1 (user_done_routing atTwoSeconds (control "user_done")
                     (humanSaid bothText) eq_refl eq_refl eq_refl)
              H eq_refl eq_refl)).
Defined.

(** C4 (as stated) fails: for a fresh utterance that matches both keyword
    sets the first role requested is [ai_a], the interviewer, and the role
    left in the queue is [ai_b], the candidate. *)
Lemma both_requests_interviewer_first :
  let st := humanSaid bothText in
  let r := handle atTwoSeconds (ClientMessage (control "user_done")) st in
  fresh atTwoSeconds st = true
  /\ pickNextSpeaker (lastUserTranscript st) = Some to_both
  /\ requested (snd r) = [ai_a]
  /\ queuedNextKeys (fst r) = [ai_b]
  /\ profile_name ai_a = lit "Interviewer"
  /\ profile_name ai_b = lit "Candidate".
Proof. vm_compute. repeat split. Qed.

Example neither_requests_interviewer :
  let st := humanSaid helloText in
  let r := handle atTwoSeconds (ClientMessage (control "user_done")) st in
  pickNextSpeaker (lastUserTranscript st) = None
  /\ requested (snd r) = [ai_a]
  /\ queuedNextKeys (fst r) = [].
Proof. vm_compute. repeat split. Qed.

(** *** After the end of the session *)

#[export] Instance keeps_ended_inv_compositional : Compositional keeps_ended_inv.
Proof.
  split; unfold keeps_ended_inv.
  - intros st H. exact H.
  - intros st1 st2 st3 _ _ H1 H2 H. exact (H2 (H1 H)).
Qed.

#[export] Instance stays_ended_compositional : Compositional stays_ended.
Proof.
  split; unfold stays_ended.
  - intros st H. split; [exact H | reflexivity].
  - intros st1 st2 st3 out1 out2 H1 H2 H.
    destruct (H1 H) as [H' E1]. destruct (H2 H') as [H'' E2].
    split; [exact H'' |].
    unfold requested in *. rewrite flat_map_app, E1, E2. reflexivity.
Qed.

Lemma requestAiResponse_keeps_endedVars (env : Env) (key : AiKey) (delayMs : Z) :
  Sat (keeps endedVars) (requestAiResponse env key delayMs).
Proof. frame. Qed.

(** A handler that does not write [sessionEnded] keeps the invariant of a
    running session. *)
Lemma running_keeps_ended_inv (h : Handler) (st : State) :
  Sat (keeps sessionEnded) h ->
  sessionEnded st = false ->
  ended_inv (fst (h st)).
Proof.
  intros K Hrunning Hended. rewrite (K st), Hrunning in Hended. discriminate.
Qed.

Lemma vars_keep_ended_inv (h : Handler) :
  Sat (keeps endedVars) h -> Sat keeps_ended_inv h.
Proof.
  intros K st Hinv. pose proof (K st) as E. unfold keeps, endedVars in E.
  injection E as E1 E2 E3. unfold ended_inv. rewrite E1, E2, E3. exact Hinv.
Qed.

Lemma endSession_keeps_ended_inv (env : Env) (reason : EndReason) :
  Sat keeps_ended_inv (endSession env reason).
Proof.
  intros st Hinv. unfold endSession, reading.
  destruct (sessionEnded st) eqn:E.
  - exact Hinv.
  - rewrite !andThen_modify. intros _. split; reflexivity.
Qed.

Lemma checkTurnCompletion_keeps_ended_inv (env : Env) (key : AiKey) :
  Sat keeps_ended_inv (checkTurnCompletion env key).
Proof.
  intros st Hinv. unfold checkTurnCompletion, reading.
  destruct (negb (get key (audioDone st)) || negb (get key (transcriptDone st))
            || negb (get key (playbackDone st))); [exact Hinv |].
  destruct (negb (autoMode st) || userSpeaking st); [exact Hinv |].
  destruct (sessionEnded st) eqn:E; [exact Hinv |].
  destruct (queuedNextKeys st);
    (apply running_keeps_ended_inv; [frame | exact E]).
Qed.

Ltac ended_inv_leaf :=
  idtac;
  match goal with
  | |- Sat keeps_ended_inv (checkTurnCompletion _ _) =>
      exact (checkTurnCompletion_keeps_ended_inv _ _)
  | |- Sat keeps_ended_inv (endSession _ _) =>
      exact (endSession_keeps_ended_inv _ _)
  | |- Sat keeps_ended_inv (requestAiResponse _ _ _) =>
      exact (vars_keep_ended_inv _ (requestAiResponse_keeps_endedVars _ _ _))
  | |- Sat keeps_ended_inv (fun _ => _) =>
      let st := fresh "st" in let H := fresh "H" in intros st H; exact H
  end.

Lemma onClientMessage_keeps_ended_inv (env : Env) (message : Message) :
  Sat keeps_ended_inv (onClientMessage env message).
Proof.
  unfold onClientMessage.
  destruct (type_is message "start").
  { (* a start leaves a running session *)
    intros st _. rewrite !andThen_modify.
    match goal with
    | |- ended_inv (fst (?h ?s)) =>
        apply (running_keeps_ended_inv h s); [frame | reflexivity]
    end. }
  destruct (type_is message "request_ai"), (m_target message);
    try solve [frame_with ended_inv_leaf].
  all: destruct (type_is message "user_audio" && truthy_text (m_data message));
    [solve [frame_with ended_inv_leaf] |].
  all: destruct (type_is message "user_audio_commit");
    [solve [frame_with ended_inv_leaf] |].
  all: destruct (type_is message "user_speaking");
    [solve [frame_with ended_inv_leaf] |].
  all: destruct (type_is message "user_done");
    [| solve [frame_with ended_inv_leaf]].
  (* the human stops speaking: the queue is written in a running session only *)
  all: intros st Hinv; rewrite andThen_modify; unfold reading;
    change (autoMode (set_userSpeaking false st)) with (autoMode st);
    change (sessionEnded (set_userSpeaking false st)) with (sessionEnded st);
    destruct (sessionEnded st) eqn:E;
    [ rewrite andb_false_r; exact Hinv |];
    destruct (autoMode st); [| exact Hinv ];
    simpl andb; cbv iota;
    destruct (nextKeysFor env (set_userSpeaking false st));
    (apply running_keeps_ended_inv; [frame | exact E]).
Qed.

Lemma handle_keeps_ended_inv (env : Env) (ev : Event) :
  Sat keeps_ended_inv (handle env ev).
Proof.
  destruct ev; simpl handle;
    try exact (onClientMessage_keeps_ended_inv _ _);
    frame_with ended_inv_leaf.
Qed.

Lemma reachable_ended_inv (trace : list (Env * Event)) :
  ended_inv (fst (run trace initialState)).
Proof.
  apply (Sat_run keeps_ended_inv trace handle_keeps_ended_inv initialState).
  intro H. discriminate.
Qed.

Lemma checkTurnCompletion_stays_ended (env : Env) (key : AiKey) :
  Sat stays_ended (checkTurnCompletion env key).
Proof.
  intros st Hended. pose proof Hended as (E & _ & _).
  unfold checkTurnCompletion, reading. rewrite E.
  destruct (negb (get key (audioDone st)) || negb (get key (transcriptDone st))
            || negb (get key (playbackDone st)));
    [| destruct (negb (autoMode st) || userSpeaking st)];
    (split; [exact Hended | reflexivity]).
Qed.

Lemma endSession_stays_ended (env : Env) (reason : EndReason) :
  Sat stays_ended (endSession env reason).
Proof.
  intros st Hended. pose proof Hended as (E & _ & _).
  unfold endSession, reading. rewrite E. split; [exact Hended | reflexivity].
Qed.

Ltac stays_ended_leaf :=
  idtac;
  match goal with
  | |- Sat stays_ended (checkTurnCompletion _ _) =>
      exact (checkTurnCompletion_stays_ended _ _)
  | |- Sat stays_ended (endSession _ _) =>
      exact (endSession_stays_ended _ _)
  | |- Sat stays_ended (fun _ => _) =>
      let st := fresh "st" in let H := fresh "H" in
      intros st H; split; [exact H | reflexivity]
  end.

Lemma onReady_stays_ended (env : Env) (key : AiKey) :
  Sat stays_ended (onReady env key).
Proof.
  unfold onReady.
  refine (Sat_andThen _ _ _ _ _); [frame_with stays_ended_leaf |].
  refine (Sat_reading _ _ _); intro s; cbv beta.
  destruct (pendingStart s && get ai_a (sessionReady s) && get ai_b (sessionReady s));
    [| frame_with stays_ended_leaf].
  do 2 (refine (Sat_andThen _ _ _ _ _); [frame_with stays_ended_leaf |]).
  (* automatic turn-taking is off once the session has ended *)
  intros st Hended. pose proof Hended as (_ & A & _).
  unfold reading. rewrite A. split; [exact Hended | reflexivity].
Qed.

Lemma onClientMessage_stays_ended (env : Env) (message : Message) :
  type_is message "start" = false ->
  type_is message "request_ai" && isSome (m_target message) = false ->
  Sat stays_ended (onClientMessage env message).
Proof.
  intros Hstart Hmanual. unfold onClientMessage. rewrite Hstart.
  destruct (type_is message "request_ai"), (m_target message); try discriminate.
  all: destruct (type_is message "user_audio" && truthy_text (m_data message));
    [solve [frame_with stays_ended_leaf] |].
  all: destruct (type_is message "user_audio_commit");
    [solve [frame_with stays_ended_leaf] |].
  all: destruct (type_is message "user_speaking");
    [solve [frame_with stays_ended_leaf] |].
  all: destruct (type_is message "user_done");
    [| solve [frame_with stays_ended_leaf]].
  all: intros st Hended; pose proof Hended as (_ & A & _);
    rewrite andThen_modify; unfold reading;
    change (autoMode (set_userSpeaking false st)) with (autoMode st);
    rewrite A; split; [exact Hended | reflexivity].
Qed.

Lemma handle_stays_ended (env : Env) (ev : Event) :
  isStart ev = false -> isRequestAi ev = false -> Sat stays_ended (handle env ev).
Proof.
  intros Hstart Hmanual.
  destruct ev; simpl handle;
    try exact (onReady_stays_ended _ _);
    try exact (onClientMessage_stays_ended _ _ Hstart Hmanual);
    try solve [frame_with stays_ended_leaf].
  (* the timer armed by an earlier request *)
  intros st Hended. split; [exact Hended |].
  unfold emit, responseCreateTimer; simpl.
  match goal with
  | |- context [negb ?b] => destruct b
  end; reflexivity.
Qed.

(** *** The timers after the end *)

Lemma handle_sends_on_timer (env : Env) (ev : Event) (st : State) :
  responseCreates (snd (handle env ev st)) = timerSends env ev.
Proof.
  assert (K : forall h, Sat (silent responseCreateOf) h ->
                        responseCreates (snd (h st)) = []).
  { intros h H. exact (H st). }
  destruct ev; simpl handle; simpl timerSends;
    try (apply K; solve [frame]).
  unfold emit, responseCreateTimer; simpl.
  destruct (is_open (get key (aiSockets env))); reflexivity.
Qed.

Lemma countFor_timerSends (key : AiKey) (env : Env) (ev : Event) :
  (countFor key (timerSends env ev) <= firesFor key ev)%nat.
Proof.
  destruct ev; simpl; try apply Nat.le_0_l.
  destruct (is_open (get key0 (aiSockets env))); unfold countFor; simpl;
    destruct (AiKey_eqb key key0); simpl; lia.
Qed.

Lemma countFor_app (key : AiKey) (l1 l2 : list AiKey) :
  countFor key (l1 ++ l2) = (countFor key l1 + countFor key l2)%nat.
Proof. unfold countFor. rewrite filter_app, length_app. reflexivity. Qed.

Lemma timersPending_app (key : AiKey) (t1 t2 : list (Env * Event)) :
  forall st pending,
    timersPending key (t1 ++ t2) st pending
    = match timersPending key t1 st pending with
      | Some p => timersPending key t2 (fst (run t1 st)) p
      | None => None
      end.
Proof.
  induction t1 as [|[env ev] t1 IH]; intros st pending; simpl.
  - reflexivity.
  - rewrite andThen_fst.
    destruct (firesFor key ev <=? pending)%nat; [apply IH | reflexivity].
Qed.

(** From an ended session, along events that neither restart the session
    nor override it, no timer is armed, and every [response.create] sent
    uses up a timer that was pending. *)
Lemma run_after_end (key : AiKey) (rest : list (Env * Event)) :
  forall st p p',
    ended st ->
    forallb (fun e => afterEnd (snd e)) rest = true ->
    timersPending key rest st p = Some p' ->
    ended (fst (run rest st))
    /\ requested (snd (run rest st)) = []
    /\ (countFor key (responseCreates (snd (run rest st))) + p' <= p)%nat.
Proof.
  induction rest as [|[env ev] rest IH]; intros st p p' Hended Hall Hp.
  - simpl in *. injection Hp as <-. repeat split; try apply Hended. lia.
  - simpl in Hall, Hp. apply andb_prop in Hall as [Hev Hall].
    unfold afterEnd in Hev. apply andb_prop in Hev as [Hs Hm].
    apply negb_true_iff in Hs, Hm.
    destruct (handle_stays_ended env ev Hs Hm st Hended) as [Hended' R].
    destruct (firesFor key ev <=? p)%nat eqn:Hfire; [| discriminate].
    apply Nat.leb_le in Hfire.
    rewrite R in Hp. simpl countFor in Hp.
    destruct (IH _ _ _ Hended' Hall Hp) as (E & R' & B).
    change (run ((env, ev) :: rest)) with (handle env ev ;; run rest).
    rewrite andThen_fst, andThen_snd.
    unfold requested, responseCreates in *.
    rewrite !flat_map_app, R, R', countFor_app.
    fold (responseCreates (snd (handle env ev st))).
    rewrite handle_sends_on_timer.
    pose proof (countFor_timerSends key env ev).
    repeat split; try apply E. unfold countFor in *. simpl in B. lia.
Qed.

(** C7 (as amended): in every state the server can reach, once
    [sessionEnded] is true the pending queue is empty, and every event other
    than a [start] message and a manual [request_ai] message (turn
    completions, [user_done], provider events, playback acknowledgments,
    timers) starts no generation request, so arms no timer, and leaves the
    session ended with its queue empty; [endSession] itself empties the
    queue at the moment it ends a running session. A [response.create] is
    still sent after the end by a timer that fires with its socket open, and
    by nothing else: along events that neither restart nor override, with
    timers that fire only when pending, the [response.create] sent to a
    role after the end and the timers of that role still pending are
    together at most the timers that were pending when the session ended,
    the requests started before the end and not yet sent. A manual
    [request_ai] is not covered: it still requests. *)
Theorem ended_session_requests_nothing
    (trace : list (Env * Event)) (env : Env) (ev : Event) :
  let st := fst (run trace initialState) in
  sessionEnded st = true ->
  isStart ev = false ->
  isRequestAi ev = false ->
  queuedNextKeys st = []
  /\ requested (snd (handle env ev st)) = []
  /\ responseCreates (snd (handle env ev st)) = timerSends env ev
  /\ sessionEnded (fst (handle env ev st)) = true
  /\ queuedNextKeys (fst (handle env ev st)) = []
  /\ (forall env' reason st0,
        sessionEnded st0 = false ->
        sessionEnded (fst (endSession env' reason st0)) = true
        /\ queuedNextKeys (fst (endSession env' reason st0)) = [])
  /\ (forall (key : AiKey) (rest : list (Env * Event)) (remaining : nat),
        forallb (fun e => afterEnd (snd e)) rest = true ->
        timersPending key (trace ++ rest) initialState 0 = Some remaining ->
        exists pending,
          timersPending key trace initialState 0 = Some pending
          /\ requested (snd (run rest st)) = []
          /\ sessionEnded (fst (run rest st)) = true
          /\ (countFor key (responseCreates (snd (run rest st))) + remaining
              <= pending)%nat).
Proof.
  intros st Hflag Hstart Hmanual.
  destruct (reachable_ended_inv trace Hflag) as [A Q]. fold st in A, Q.
  assert (Hended : ended st) by (repeat split; assumption).
  destruct (handle_stays_ended env ev Hstart Hmanual st Hended) as [(E' & _ & Q') R].
  refine (conj Q (conj R (conj (handle_sends_on_timer env ev st)
            (conj E' (conj Q' (conj _ _)))))).
  - intros env' reason st0 Hrunning.
    unfold endSession, reading. rewrite Hrunning, !andThen_modify.
    split; reflexivity.
  - intros key rest remaining Hall Hleft.
    rewrite timersPending_app in Hleft.
    destruct (timersPending key trace initialState 0) as [pending|];
      [| discriminate].
    fold st in Hleft.
    destruct (run_after_end key rest st pending remaining Hended Hall Hleft)
      as ((E & _) & R' & B).
    exists pending. repeat split; assumption.
Qed.

Lemma ended_session_requests_nothing_witness :
  let st := fst (run requestThenEnd initialState) in
  let rest := [ (allOpen, ClientMessage (control "user_done"));
                (allOpen, Timeout ai_a) ] in
  sessionEnded st = true
  /\ requested (snd (handle allOpen (Timeout ai_a) st)) = []
  /\ responseCreates (snd (handle allOpen (Timeout ai_a) st))
     = timerSends allOpen (Timeout ai_a)
  /\ sessionEnded (fst (handle allOpen (Timeout ai_a) st)) = true
  /\ exists pending,
       timersPending ai_a requestThenEnd initialState 0 = Some pending
       /\ requested (snd (run rest st)) = []
       /\ sessionEnded (fst (run rest st)) = true
       /\ (countFor ai_a (responseCreates (snd (run rest st))) + 0
           <= pending)%nat.
Proof.
  assert (H : sessionEnded (fst (run requestThenEnd initialState)) = true)
    by (vm_compute; reflexivity).
  assert (P : timersPending ai_a
                (requestThenEnd
                 ++ [ (allOpen, ClientMessage (control "user_done"));
                      (allOpen, Timeout ai_a) ])
                initialState 0 = Some 0%nat)
    by (vm_compute; reflexivity).
  destruct (ended_session_requests_nothing requestThenEnd allOpen (Timeout ai_a)
              H eq_refl eq_refl)
    as (_ & R & S & E & _ & _ & T).
  exact (conj H (conj R (conj S (conj E
           (T ai_a
              [ (allOpen, ClientMessage (control "user_done"));
                (allOpen, Timeout ai_a) ]
              0%nat eq_refl P))))).
Defined.

(** C7 (as stated) fails twice. After the session has ended by [max_turns],
    a manual [request_ai] message still starts a generation request, whose
    timer then sends [response.create]. And a request started before the
    end is not cancelled by it: its timer fires after the end and sends
    [response.create]. *)
Lemma response_create_after_end :
  let r := run [ (allOpen, ClientMessage (request_ai ai_a));
                 (allOpen, Timeout ai_a) ] endedByMaxTurns in
  let st := fst (run requestThenEnd initialState) in
  let r' := handle allOpen (Timeout ai_a) st in
  (sessionEnded endedByMaxTurns = true
   /\ requested (snd r) = [ai_a]
   /\ responseCreates (snd r) = [ai_a]
   /\ sessionEnded (fst r) = true)
  /\ (sessionEnded st = true
      /\ timersPending ai_a requestThenEnd initialState 0 = Some 1%nat
      /\ afterEnd (Timeout ai_a) = true
      /\ requested (snd r') = []
      /\ responseCreates (snd r') = [ai_a]
      /\ sessionEnded (fst r') = true).
Proof. vm_compute. repeat split. Qed.

(** *** Turn identifiers *)

Lemma seq_shift_from (a n start : nat) :
  seq (a + start) n = map (fun i => (a + i)%nat) (seq start n).
Proof.
  revert start. induction n as [|n IH]; intro start; simpl; [reflexivity |].
  f_equal. rewrite <- IH. f_equal. lia.
Qed.

Lemma turnIdsFrom_app (a : Z) (n1 n2 : nat) :
  turnIdsFrom a n1 ++ turnIdsFrom (a + Z.of_nat n1) n2 = turnIdsFrom a (n1 + n2).
Proof.
  unfold turnIdsFrom. rewrite seq_app, map_app. f_equal.
  replace (1 + n1)%nat with (n1 + 1)%nat by lia.
  rewrite seq_shift_from, map_map.
  apply map_ext. intro i. lia.
Qed.

#[export] Instance ticks_compositional (key : AiKey) : Compositional (ticks key).
Proof.
  split; unfold ticks.
  - intro st. simpl. split; [lia | reflexivity].
  - intros st1 st2 st3 out1 out2 [C1 I1] [C2 I2].
    unfold requested, assignedTurnIds in *.
    rewrite !flat_map_app, filter_app, length_app, I1, I2, C2, C1.
    split; [lia |]. apply turnIdsFrom_app.
Qed.

Lemma requestAiResponse_ticks (env : Env) (key k : AiKey) (delayMs : Z) :
  Sat (ticks key) (requestAiResponse env k delayMs).
Proof.
  intro st. unfold ticks, requestAiResponse.
  destruct (is_open (get k (aiSockets env))); simpl negb; cbv iota.
  - destruct key, k; simpl; split; first [lia | reflexivity].
  - simpl. split; [lia | reflexivity].
Qed.

Ltac ticks_leaf :=
  idtac;
  match goal with
  | |- Sat (ticks _) (requestAiResponse _ _ _) =>
      exact (requestAiResponse_ticks _ _ _ _)
  | |- Sat (ticks _) (fun _ => _) =>
      let st := fresh "st" in
      intro st; unfold ticks; simpl; split; [lia | reflexivity]
  end.

Lemma handle_ticks (key : AiKey) (env : Env) (ev : Event) :
  Sat (ticks key) (handle env ev).
Proof.
  destruct ev; simpl handle; try solve [frame_with ticks_leaf].
  intro st. unfold ticks, emit, responseCreateTimer.
  match goal with
  | |- context [negb ?b] => destruct b
  end; simpl; (split; [lia | reflexivity]).
Qed.

Lemma seq_strongly_sorted (start n : nat) :
  StronglySorted Z.lt (map Z.of_nat (seq start n)).
Proof.
  revert start. induction n as [|n IH]; intro start; simpl; constructor.
  - apply IH.
  - apply Forall_forall. intros z Hz.
    apply in_map_iff in Hz as (i & <- & Hi). apply in_seq in Hi. lia.
Qed.

Lemma strongly_sorted_NoDup (l : list Z) : StronglySorted Z.lt l -> NoDup l.
Proof.
  induction 1 as [|z l Hsorted IH Hall]; constructor; [| exact IH].
  intro Hin. rewrite Forall_forall in Hall. specialize (Hall z Hin). lia.
Qed.

(** C8: along every run of the server the turn identifiers assigned to a
    role are 1, 2, ..., n, where n is the number of generation requests
    started for that role: the counter starts at 0, each request takes the
    counter plus one, so the identifiers are strictly increasing and never
    reused, and no event ever lowers the counter. *)
Theorem turn_ids_strictly_increasing (trace : list (Env * Event)) (key : AiKey) :
  let r := run trace initialState in
  let ids := assignedTurnIds key (snd r) in
  let n := List.length (filter (AiKey_eqb key) (requested (snd r))) in
  get key (currentTurn initialState) = 0
  /\ ids = map Z.of_nat (seq 1 n)
  /\ get key (currentTurn (fst r)) = Z.of_nat n
  /\ StronglySorted Z.lt ids
  /\ NoDup ids
  /\ forall env ev st,
       get key (currentTurn st) <= get key (currentTurn (fst (handle env ev st)))
       /\ (get key (currentTurn (fst (handle env ev st)))
           = get key (currentTurn st)
             + Z.of_nat (List.length (filter (AiKey_eqb key)
                                        (requested (snd (handle env ev st)))))).
Proof.
  intros r ids n.
  destruct (Sat_run (ticks key) trace (handle_ticks key) initialState) as [C I].
  fold r in C, I. fold n in C, I. fold ids in I.
  assert (E : ids = map Z.of_nat (seq 1 n)).
  { rewrite I. unfold turnIdsFrom. apply map_ext. intro i.
    destruct key; simpl; lia. }
  assert (S : StronglySorted Z.lt ids) by (rewrite E; apply seq_strongly_sorted).
  repeat split.
  - destruct key; reflexivity.
  - exact E.
  - rewrite C. destruct key; simpl; lia.
  - exact S.
  - exact (strongly_sorted_NoDup ids S).
  - destruct (handle_ticks key env ev st) as [C' _]. lia.
  - destruct (handle_ticks key env ev st) as [C' _]. exact C'.
Qed.

Example turn_ids_of_three_requests :
  assignedTurnIds ai_a
    (snd (run [ (allOpen, ClientMessage (request_ai ai_a));
                (allOpen, ClientMessage (request_ai ai_b));
                (allOpen, ClientMessage (request_ai ai_a));
                (mkEnv (mkPerKey CLOSED OPEN) OPEN 0, ClientMessage (request_ai ai_a));
                (allOpen, ClientMessage (request_ai ai_a)) ]
            initialState))
  = [1; 2; 3].
Proof. reflexivity. Qed.

(** * Further properties of the coordinator *)

#[export] Instance preserves_compositional (P : State -> Prop) :
  Compositional (preserves P).
Proof.
  split; unfold preserves.
  - intros st H. exact H.
  - intros st1 st2 st3 _ _ H1 H2 H. exact (H2 (H1 H)).
Qed.

Lemma keeps_preserves {A : Type} (var : State -> A) (P : State -> Prop) (h : Handler) :
  (forall s s', var s' = var s -> P s -> P s') ->
  Sat (keeps var) h -> Sat (preserves P) h.
Proof. intros HP K st H. exact (HP st _ (K st) H). Qed.

(** A relation that holds of every handled event of a kind holds of a run
    of events of that kind. *)
Lemma Sat_run_of (R : State -> State -> list Effect -> Prop) {HR : Compositional R}
    (kind : Event -> bool) (trace : list (Env * Event)) :
  (forall env ev, kind ev = true -> Sat R (handle env ev)) ->
  forallb (fun p => kind (snd p)) trace = true ->
  Sat R (run trace).
Proof.
  intros H. induction trace as [|[env ev] rest IH]; simpl; intro Hall.
  - exact (Sat_done R).
  - apply andb_prop in Hall as [Hev Hrest].
    exact (Sat_andThen R _ _ (H env ev Hev) (IH Hrest)).
Qed.

(** *** The policy variables along the events *)

Lemma handle_keeps_policy (env : Env) (ev : Event) :
  isStart ev = false -> isTranscriptDone ev = false ->
  Sat (keeps policy) (handle env ev).
Proof.
  intros Hstart Hdone.
  destruct ev; simpl in Hstart, Hdone; try discriminate; simpl handle;
    try solve [frame].
  unfold onClientMessage. rewrite Hstart. frame.
Qed.

Lemma start_policy (env : Env) (message : Message) (st : State) :
  type_is message "start" = true ->
  policy (fst (onClientMessage env message st)) = (0, false, None, noCoverage)
  /\ autoMode (fst (onClientMessage env message st)) = true.
Proof.
  intro Hstart. unfold onClientMessage. rewrite Hstart.
  rewrite !andThen_modify.
  match goal with
  | |- policy (fst (?h ?s)) = _ /\ _ =>
      assert (K1 : Sat (keeps policy) h) by frame;
      assert (K2 : Sat (keeps autoMode) h) by frame;
      rewrite (K1 s), (K2 s)
  end.
  split; reflexivity.
Qed.

Lemma handle_policy (env : Env) (ev : Event) (st : State) :
  policy (fst (handle env ev st))
  = match ev with
    | ClientMessage message =>
        if type_is message "start" then (0, false, None, noCoverage) else policy st
    | TranscriptDone key transcript =>
        policy (fst (onTranscriptDone env key transcript st))
    | _ => policy st
    end.
Proof.
  destruct ev as [| | | | key transcript | | | | message | |];
    try (match goal with
         | |- policy (fst (handle _ ?e _)) = _ =>
             exact (handle_keeps_policy env e eq_refl eq_refl st)
         end).
  - reflexivity.
  - destruct (type_is message "start") eqn:Hstart.
    + exact (proj1 (start_policy env message st Hstart)).
    + exact (handle_keeps_policy env (ClientMessage message) Hstart eq_refl st).
Qed.

Lemma handle_totalTurns (env : Env) (ev : Event) (st : State) :
  isStart ev = false ->
  totalTurns (fst (handle env ev st))
  = totalTurns st + (if isTranscriptDone ev then 1 else 0).
Proof.
  intro Hstart.
  destruct (isTranscriptDone ev) eqn:Hdone.
  - destruct ev; try discriminate. simpl handle.
    pose proof (onTranscriptDone_verdict env key transcript st) as P.
    cbv zeta in P.
    destruct (verdict _ _ _) in P;
      exact (f_equal (fun p => fst (fst (fst p))) P).
  - pose proof (handle_keeps_policy env ev Hstart Hdone st) as P.
    rewrite (f_equal (fun p => fst (fst (fst p))) P : totalTurns _ = totalTurns st).
    lia.
Qed.

(** X1: between two [start] messages [totalTurns] counts the finalized
    transcripts, of both roles: along events without [start] it grows by
    exactly the number of transcript-done events, and nothing else moves
    it. *)
Theorem totalTurns_counts_transcripts (trace : list (Env * Event)) (st : State) :
  noStart trace = true ->
  totalTurns (fst (run trace st)) = totalTurns st + Z.of_nat (transcriptsIn trace).
Proof.
  revert st. induction trace as [|[env ev] rest IH]; intros st Hall.
  - simpl. lia.
  - simpl in Hall. apply andb_prop in Hall as [Hev Hrest].
    apply negb_true_iff in Hev.
    simpl run. rewrite andThen_fst, (IH _ Hrest), (handle_totalTurns env ev st Hev).
    unfold transcriptsIn. simpl filter.
    destruct (isTranscriptDone ev); simpl List.length; lia.
Qed.

Lemma totalTurns_counts_transcripts_witness :
  let trace := [ (allOpen, TranscriptDone ai_a allTopicsText);
                 (allOpen, AudioDone ai_a);
                 (allOpen, ClientMessage (request_ai ai_b));
                 (allOpen, TranscriptDone ai_b yesText) ] in
  noStart trace = true
  /\ totalTurns (fst (run trace initialState)) = 2.
Proof.
  assert (H : noStart [ (allOpen, TranscriptDone ai_a allTopicsText);
                        (allOpen, AudioDone ai_a);
                        (allOpen, ClientMessage (request_ai ai_b));
                        (allOpen, TranscriptDone ai_b yesText) ] = true) by reflexivity.
  exact (conj H (totalTurns_counts_transcripts _ initialState H)).
Defined.

Lemma handle_coverage (env : Env) (ev : Event) (st : State) :
  isStart ev = false ->
  coverage (fst (handle env ev st))
  = match ev with
    | TranscriptDone ai_a transcript =>
        updateCoverage (finalTextOf ai_a transcript st) (coverage st)
    | _ => coverage st
    end.
Proof.
  intro Hstart.
  destruct (isTranscriptDone ev) eqn:Hdone.
  - destruct ev; try discriminate. simpl handle.
    pose proof (onTranscriptDone_verdict env key transcript st) as P.
    cbv zeta in P.
    assert (C : coverage (fst (onTranscriptDone env key transcript st))
                = coverageAfter key (finalTextOf key transcript st) (coverage st)).
    { destruct (verdict _ _ _) in P; exact (f_equal snd P). }
    rewrite C. destruct key; reflexivity.
  - pose proof (handle_keeps_policy env ev Hstart Hdone st) as P.
    rewrite (f_equal snd P : coverage _ = coverage st).
    destruct ev; try reflexivity; discriminate.
Qed.

(** X2: within a session a covered topic stays covered: no event other
    than [start] clears a coverage flag, and only a finalized transcript of
    the interviewer can set one (the candidate's never does). *)
Theorem coverage_monotone (trace : list (Env * Event)) (st : State) (t : CoverageKey) :
  noStart trace = true ->
  covered t (coverage st) = true ->
  covered t (coverage (fst (run trace st))) = true.
Proof.
  revert st. induction trace as [|[env ev] rest IH]; intros st Hall Hcov.
  - exact Hcov.
  - simpl in Hall. apply andb_prop in Hall as [Hev Hrest].
    apply negb_true_iff in Hev.
    simpl run. rewrite andThen_fst. apply (IH _ Hrest).
    rewrite (handle_coverage env ev st Hev).
    destruct ev as [| | | | [|] transcript | | | | | |]; try exact Hcov.
    rewrite updateCoverage_covered, Hcov. reflexivity.
Qed.

Lemma coverage_monotone_witness :
  noStart [ (allOpen, TranscriptDone ai_a closingText);
            (allOpen, TranscriptDone ai_b yesText) ] = true
  /\ covered shift (coverage allCovered) = true
  /\ covered shift (coverage
       (fst (run [ (allOpen, TranscriptDone ai_a closingText);
                   (allOpen, TranscriptDone ai_b yesText) ] allCovered))) = true.
Proof.
  assert (H1 : noStart [ (allOpen, TranscriptDone ai_a closingText);
                         (allOpen, TranscriptDone ai_b yesText) ] = true) by reflexivity.
  assert (H2 : covered shift (coverage allCovered) = true) by reflexivity.
  exact (conj H1 (conj H2 (coverage_monotone _ allCovered shift H1 H2))).
Defined.

(** X3: only the interviewer's finalized text is looked at for coverage:
    every event that is neither a [start] message nor a finalized
    transcript of the interviewer, a finalized transcript of the candidate
    included, leaves all six coverage flags as they were. *)
Theorem coverage_only_from_interviewer (env : Env) (ev : Event) (st : State) :
  isStart ev = false ->
  (forall transcript, ev <> TranscriptDone ai_a transcript) ->
  coverage (fst (handle env ev st)) = coverage st.
Proof.
  intros Hstart Hother. rewrite (handle_coverage env ev st Hstart).
  destruct ev as [| | | | [|] transcript | | | | | |]; try reflexivity.
  exfalso. exact (Hother transcript eq_refl).
Qed.

Lemma coverage_only_from_interviewer_witness :
  isStart (TranscriptDone ai_b allTopicsText) = false
  /\ coverage (fst (handle allOpen (TranscriptDone ai_b allTopicsText) afterFirstRequest))
     = noCoverage.
Proof.
  assert (H : forall transcript,
             TranscriptDone ai_b allTopicsText <> TranscriptDone ai_a transcript)
    by (intros transcript E; discriminate E).
  exact (conj eq_refl
           (coverage_only_from_interviewer allOpen (TranscriptDone ai_b allTopicsText)
              afterFirstRequest eq_refl H)).
Defined.

(** *** The end is reported once *)

#[export] Instance reports_end_compositional : Compositional reports_end.
Proof.
  split; unfold reports_end.
  - intro st. simpl. lia.
  - intros st1 st2 st3 out1 out2 H1 H2.
    unfold endReports in *. rewrite flat_map_app, length_app. lia.
Qed.

Lemma endSession_reports_end (env : Env) (reason : EndReason) :
  Sat reports_end (endSession env reason).
Proof.
  intro st. unfold reports_end, endSession, reading.
  destruct (sessionEnded st) eqn:E.
  - simpl. rewrite ?E. simpl. lia.
  - rewrite !andThen_modify. unfold sendToClient, emit.
    destruct (is_open (clientSocket env)); simpl; rewrite ?E; simpl; lia.
Qed.

Ltac reports_end_leaf :=
  idtac;
  match goal with
  | |- Sat reports_end (endSession _ _) => exact (endSession_reports_end _ _)
  | |- Sat reports_end (fun _ => _) =>
      let st := fresh "st" in
      intro st; unfold reports_end; simpl; lia
  end.

Lemma handle_reports_end (env : Env) (ev : Event) :
  isStart ev = false -> Sat reports_end (handle env ev).
Proof.
  intro Hstart.
  destruct ev as [| | | | | | | | message | |]; simpl handle;
    try solve [frame_with reports_end_leaf].
  - change (type_is message "start" = false) in Hstart.
    unfold onClientMessage. rewrite Hstart. frame_with reports_end_leaf.
  - intro st. unfold reports_end, emit, responseCreateTimer.
    match goal with
    | |- context [negb ?b] => destruct b
    end; simpl; lia.
Qed.

(** X4: a session reports its end to the client at most once: along events
    without [start] at most one [session_ended] message is sent, none at
    all when the session had already ended, and a session that reported its
    end is ended. *)
Theorem session_end_reported_once (trace : list (Env * Event)) (st : State) :
  noStart trace = true ->
  let r := run trace st in
  (List.length (endReports (snd r)) <= 1)%nat
  /\ (sessionEnded st = true -> endReports (snd r) = [])
  /\ (endReports (snd r) <> [] -> sessionEnded (fst r) = true).
Proof.
  intros Hall r.
  assert (H : reports_end st (fst r) (snd r)).
  { apply (Sat_run_of reports_end (fun ev => negb (isStart ev)) trace).
    - intros env ev Hev. apply handle_reports_end. apply negb_true_iff. exact Hev.
    - exact Hall. }
  unfold reports_end in H.
  destruct (endReports (snd r)) as [|reason reports].
  - repeat split; [simpl; lia | intro E; contradiction].
  - simpl List.length in *.
    destruct (sessionEnded (fst r)), (sessionEnded st); simpl in H;
      repeat split; first [lia | discriminate].
Qed.

Lemma session_end_reported_once_witness :
  let trace := repeat (allOpen, TranscriptDone ai_b yesText) 5 in
  noStart trace = true
  /\ (List.length (endReports (snd (run trace thirtyNineTurns))) <= 1)%nat
  /\ endReports (snd (run trace thirtyNineTurns)) = [max_turns].
Proof.
  assert (H : noStart (repeat (allOpen, TranscriptDone ai_b yesText) 5) = true)
    by reflexivity.
  refine (conj H (conj (proj1 (session_end_reported_once _ thirtyNineTurns H)) _)).
  vm_compute. reflexivity.
Defined.

(** *** The reason of the end *)

Lemma handle_preserves_reasonSet (env : Env) (ev : Event) :
  Sat (preserves reasonSet) (handle env ev).
Proof.
  intros st H. unfold reasonSet in *.
  pose proof (handle_policy env ev st) as P.
  assert (Q : forall s s', policy s' = policy s ->
                sessionEnded s = isSome (sessionEndReason s) ->
                sessionEnded s' = isSome (sessionEndReason s')).
  { intros s s' E Hs.
    rewrite (f_equal (fun p => snd (fst (fst p))) E : sessionEnded s' = sessionEnded s).
    rewrite (f_equal (fun p => snd (fst p)) E : sessionEndReason s' = sessionEndReason s).
    exact Hs. }
  destruct ev as [| | | | key transcript | | | | message | |];
    try exact (Q _ _ P H).
  - simpl handle.
    pose proof (onTranscriptDone_verdict env key transcript st) as V. cbv zeta in V.
    destruct (verdict _ _ _) in V.
    + rewrite (f_equal (fun p => snd (fst (fst p))) V
               : sessionEnded (fst (onTranscriptDone env key transcript st)) = true).
      rewrite (f_equal (fun p => snd (fst p)) V
               : sessionEndReason (fst (onTranscriptDone env key transcript st))
                 = if sessionEnded st then sessionEndReason st else Some _).
      destruct (sessionEnded st); [exact H | reflexivity].
    + rewrite (f_equal (fun p => snd (fst (fst p))) V
               : sessionEnded (fst (onTranscriptDone env key transcript st))
                 = sessionEnded st).
      rewrite (f_equal (fun p => snd (fst p)) V
               : sessionEndReason (fst (onTranscriptDone env key transcript st))
                 = sessionEndReason st).
      exact H.
  - destruct (type_is message "start").
    + rewrite (f_equal (fun p => snd (fst (fst p))) P
               : sessionEnded (fst (handle env (ClientMessage message) st)) = false).
      rewrite (f_equal (fun p => snd (fst p)) P
               : sessionEndReason (fst (handle env (ClientMessage message) st)) = None).
      reflexivity.
    + exact (Q _ _ P H).
Qed.

(** X5: in every state the server reaches, the session has an end reason
    exactly when it has ended: [sessionEndReason] is [marker] or
    [max_turns] while [sessionEnded] is true and [null] while it is
    false. *)
Theorem end_reason_iff_ended (trace : list (Env * Event)) :
  let st := fst (run trace initialState) in
  (sessionEnded st = true -> exists reason, sessionEndReason st = Some reason)
  /\ (sessionEnded st = false -> sessionEndReason st = None).
Proof.
  intro st.
  assert (H : reasonSet st).
  { apply (Sat_run (preserves reasonSet) trace handle_preserves_reasonSet initialState).
    reflexivity. }
  unfold reasonSet in H.
  destruct (sessionEndReason st) as [reason|]; simpl in H; split; intro E;
    try congruence.
  exists reason. reflexivity.
Qed.

Lemma end_reason_iff_ended_witness :
  let st := fst (run ((allOpen, ClientMessage (control "start"))
                      :: repeat (allOpen, TranscriptDone ai_b yesText) 40)
                   initialState) in
  sessionEnded st = true
  /\ exists reason, sessionEndReason st = Some reason.
Proof.
  assert (H : sessionEnded
                (fst (run ((allOpen, ClientMessage (control "start"))
                           :: repeat (allOpen, TranscriptDone ai_b yesText) 40)
                        initialState)) = true) by (vm_compute; reflexivity).
  exact (conj H (proj1 (end_reason_iff_ended _) H)).
Defined.

(** *** The pending queue *)

Lemma requestAiResponse_preserves_queueShape (env : Env) (key : AiKey) (delayMs : Z) :
  Sat (preserves queueShape) (requestAiResponse env key delayMs).
Proof.
  apply (keeps_preserves queuedNextKeys).
  - intros s s' E. unfold queueShape. rewrite E. tauto.
  - frame.
Qed.

Lemma endSession_preserves_queueShape (env : Env) (reason : EndReason) :
  Sat (preserves queueShape) (endSession env reason).
Proof.
  intros st H. unfold endSession, reading.
  destruct (sessionEnded st); [exact H |].
  rewrite !andThen_modify. left. reflexivity.
Qed.

Lemma checkTurnCompletion_preserves_queueShape (env : Env) (key : AiKey) :
  Sat (preserves queueShape) (checkTurnCompletion env key).
Proof.
  intros st H. unfold checkTurnCompletion, reading.
  destruct (negb (get key (audioDone st)) || negb (get key (transcriptDone st))
            || negb (get key (playbackDone st))); [exact H |].
  destruct (negb (autoMode st) || userSpeaking st); [exact H |].
  destruct (sessionEnded st); [exact H |].
  destruct H as [H | H]; rewrite H.
  - apply requestAiResponse_preserves_queueShape. left. exact H.
  - rewrite andThen_modify.
    apply requestAiResponse_preserves_queueShape. left. reflexivity.
Qed.

Lemma nextKeysFor_cases (env : Env) (st : State) :
  nextKeysFor env st = [ai_a] \/ nextKeysFor env st = [ai_b]
  \/ nextKeysFor env st = [ai_a; ai_b].
Proof.
  unfold nextKeysFor.
  destruct (truthy (lastUserTranscript st) && (now env - lastUserTranscriptAt st <? 5000));
    [| left; reflexivity].
  destruct (pickNextSpeaker (lastUserTranscript st)) as [[[|]|]|]; tauto.
Qed.

Ltac queueShape_leaf :=
  idtac;
  match goal with
  | |- Sat (preserves queueShape) (checkTurnCompletion _ _) =>
      exact (checkTurnCompletion_preserves_queueShape _ _)
  | |- Sat (preserves queueShape) (endSession _ _) =>
      exact (endSession_preserves_queueShape _ _)
  | |- Sat (preserves queueShape) (requestAiResponse _ _ _) =>
      exact (requestAiResponse_preserves_queueShape _ _ _)
  | |- Sat (preserves queueShape) (fun _ => _) =>
      let st := fresh "st" in let H := fresh "H" in intros st H; exact H
  end.

Lemma onClientMessage_preserves_queueShape (env : Env) (message : Message) :
  Sat (preserves queueShape) (onClientMessage env message).
Proof.
  unfold onClientMessage.
  destruct (type_is message "start").
  { intros st _. rewrite !andThen_modify.
    match goal with
    | |- queueShape (fst (?h ?s)) =>
        assert (K : Sat (keeps queuedNextKeys) h) by frame;
        unfold queueShape; rewrite (K s)
    end.
    left. reflexivity. }
  destruct (type_is message "request_ai"), (m_target message);
    try solve [frame_with queueShape_leaf].
  all: destruct (type_is message "user_audio" && truthy_text (m_data message));
    [solve [frame_with queueShape_leaf] |].
  all: destruct (type_is message "user_audio_commit");
    [solve [frame_with queueShape_leaf] |].
  all: destruct (type_is message "user_speaking");
    [solve [frame_with queueShape_leaf] |].
  all: destruct (type_is message "user_done");
    [| solve [frame_with queueShape_leaf]].
  (* the queue is what follows the first of one or two speakers *)
  all: intros st H; rewrite andThen_modify; unfold reading;
    destruct (autoMode (set_userSpeaking false st)
              && negb (sessionEnded (set_userSpeaking false st))); [| exact H];
    destruct (nextKeysFor_cases env (set_userSpeaking false st)) as [E | [E | E]];
    rewrite E, andThen_modify;
    apply requestAiResponse_preserves_queueShape;
    unfold queueShape; simpl; tauto.
Qed.

Lemma handle_preserves_queueShape (env : Env) (ev : Event) :
  Sat (preserves queueShape) (handle env ev).
Proof.
  destruct ev; simpl handle;
    try exact (onClientMessage_preserves_queueShape _ _);
    frame_with queueShape_leaf.
Qed.

(** X6: in every state the server reaches the pending speaker queue is
    empty or holds the candidate alone: a human utterance queues at most
    one role behind the one it requests, and that role is never the
    interviewer. *)
Theorem pending_queue_at_most_candidate (trace : list (Env * Event)) :
  let st := fst (run trace initialState) in
  queuedNextKeys st = [] \/ queuedNextKeys st = [ai_b].
Proof.
  apply (Sat_run (preserves queueShape) trace handle_preserves_queueShape initialState).
  left. reflexivity.
Qed.

(** *** The event that ends the session *)

Lemma checkTurnCompletion_ended (env : Env) (key : AiKey) (st : State) :
  sessionEnded st = true -> checkTurnCompletion env key st = (st, []).
Proof.
  intro E. unfold checkTurnCompletion, reading. rewrite E.
  destruct (negb (get key (audioDone st)) || negb (get key (transcriptDone st))
            || negb (get key (playbackDone st)));
    [| destruct (negb (autoMode st) || userSpeaking st)]; reflexivity.
Qed.

(** The requests of [onTranscriptDone] are those of its call of
    [checkTurnCompletion], which sees the policy variables as they are at
    the end. *)
Lemma onTranscriptDone_requests (env : Env) (key : AiKey) (transcript : jsstring) (st : State) :
  exists atCheck,
    requested (snd (onTranscriptDone env key transcript st))
    = requested (snd (checkTurnCompletion env key atCheck))
    /\ sessionEnded atCheck = sessionEnded (fst (onTranscriptDone env key transcript st))
    /\ flag flag_audioDone key atCheck = flag flag_audioDone key st
    /\ flag flag_playbackDone key atCheck = flag flag_playbackDone key st.
Proof.
  eexists. split; [| split; [| split]].
  - unfold onTranscriptDone. unfold reading at 1.
    set (finalText := finalTextOf key transcript st).
    assert (K1 : Sat (silent requestOf) (recordTranscript key finalText)) by frame.
    assert (K2 : Sat (silent requestOf) (evaluateEnd env key finalText)) by frame.
    rewrite !andThen_snd. unfold requested. rewrite !flat_map_app, (K1 _), (K2 _).
    repeat match goal with
    | |- context [flat_map requestOf (snd (?h ?s))] =>
        lazymatch h with
        | checkTurnCompletion _ _ => fail
        | _ => let K := fresh "K" in
               assert (K : Sat (silent requestOf) h) by frame; rewrite (K s); clear K
        end
    end.
    simpl app. rewrite app_nil_r. reflexivity.
  - unfold onTranscriptDone. unfold reading at 2.
    rewrite !andThen_fst.
    match goal with
    | |- _ = sessionEnded (fst (?h _)) =>
        assert (K : Sat (keeps sessionEnded) h) by frame; rewrite (K _)
    end.
    assert (K' : Sat (keeps sessionEnded) (checkTurnCompletion env key)) by frame.
    rewrite (K' _). reflexivity.
  - match goal with
    | |- flag _ key (fst (?h ?s)) = _ =>
        assert (K : Sat (keeps (flag flag_audioDone key)) h) by (destruct key; frame);
        rewrite (K s)
    end.
    assert (K3 : Sat (keeps (flag flag_audioDone key))
                   (evaluateEnd env key (finalTextOf key transcript st)))
      by (destruct key; frame).
    assert (K4 : Sat (keeps (flag flag_audioDone key))
                   (recordTranscript key (finalTextOf key transcript st)))
      by (destruct key; frame).
    rewrite (K3 _), (K4 _). reflexivity.
  - match goal with
    | |- flag _ key (fst (?h ?s)) = _ =>
        assert (K : Sat (keeps (flag flag_playbackDone key)) h) by (destruct key; frame);
        rewrite (K s)
    end.
    assert (K3 : Sat (keeps (flag flag_playbackDone key))
                   (evaluateEnd env key (finalTextOf key transcript st)))
      by (destruct key; frame).
    assert (K4 : Sat (keeps (flag flag_playbackDone key))
                   (recordTranscript key (finalTextOf key transcript st)))
      by (destruct key; frame).
    rewrite (K3 _), (K4 _). reflexivity.
Qed.

(** X7: the finalized transcript that ends the session starts no further
    turn, even when it completes its own turn: whenever the session is
    ended after a transcript-done event, that event started no generation
    request. *)
Theorem ending_transcript_requests_nothing
    (env : Env) (key : AiKey) (transcript : jsstring) (st : State) :
  sessionEnded (fst (onTranscriptDone env key transcript st)) = true ->
  requested (snd (onTranscriptDone env key transcript st)) = [].
Proof.
  intro Hended.
  destruct (onTranscriptDone_requests env key transcript st) as (atCheck & R & E & _).
  rewrite R, (checkTurnCompletion_ended env key atCheck); [reflexivity |].
  rewrite E. exact Hended.
Qed.

Lemma ending_transcript_requests_nothing_witness :
  let r := onTranscriptDone allOpen ai_b yesText candidateLastTurn in
  sessionEnded (fst r) = true
  /\ autoMode candidateLastTurn = true
  /\ flag flag_audioDone ai_b candidateLastTurn = true
  /\ flag flag_playbackDone ai_b candidateLastTurn = true
  /\ requested (snd r) = [].
Proof.
  assert (H : sessionEnded (fst (onTranscriptDone allOpen ai_b yesText candidateLastTurn))
              = true) by (vm_compute; reflexivity).
  exact (conj H (conj eq_refl (conj eq_refl (conj eq_refl
           (ending_transcript_requests_nothing allOpen ai_b yesText candidateLastTurn H))))).
Defined.

(** *** While the human speaks *)

#[export] Instance stays_paused_compositional : Compositional stays_paused.
Proof.
  split; unfold stays_paused.
  - intros st H. split; [exact H | reflexivity].
  - intros st1 st2 st3 out1 out2 H1 H2 H.
    destruct (H1 H) as [H' E1]. destruct (H2 H') as [H'' E2].
    split; [exact H'' |].
    unfold requested in *. rewrite flat_map_app, E1, E2. reflexivity.
Qed.

Lemma checkTurnCompletion_stays_paused (env : Env) (key : AiKey) :
  Sat stays_paused (checkTurnCompletion env key).
Proof.
  intros st H. unfold checkTurnCompletion, reading.
  assert (G : negb (autoMode st) || userSpeaking st = true).
  { destruct H as [H | H]; rewrite H; [reflexivity | apply orb_true_r]. }
  rewrite G.
  destruct (negb (get key (audioDone st)) || negb (get key (transcriptDone st))
            || negb (get key (playbackDone st)));
    (split; [exact H | reflexivity]).
Qed.

Lemma endSession_stays_paused (env : Env) (reason : EndReason) :
  Sat stays_paused (endSession env reason).
Proof.
  intros st H. unfold endSession, reading.
  destruct (sessionEnded st).
  - split; [exact H | reflexivity].
  - rewrite !andThen_modify. unfold sendToClient, emit.
    split; [left; reflexivity |].
    destruct (is_open (clientSocket env)); reflexivity.
Qed.

Ltac stays_paused_leaf :=
  idtac;
  match goal with
  | |- Sat stays_paused (checkTurnCompletion _ _) =>
      exact (checkTurnCompletion_stays_paused _ _)
  | |- Sat stays_paused (endSession _ _) =>
      exact (endSession_stays_paused _ _)
  | |- Sat stays_paused (fun _ => _) =>
      let st := fresh "st" in let H := fresh "H" in
      intros st H; split; [exact H | reflexivity]
  end.

(** X8: while the human is speaking, or while automatic turn-taking is off,
    a completed turn does not advance: the audio-done, transcript-done and
    playback-acknowledgment events start no generation request, and leave
    the coordinator paused. *)
Theorem paused_turn_does_not_advance
    (env : Env) (ev : Event) (key : AiKey) (g : TurnFlag) (st : State) :
  completionOf ev = Some (key, g) ->
  autoMode st = false \/ userSpeaking st = true ->
  requested (snd (handle env ev st)) = []
  /\ (autoMode (fst (handle env ev st)) = false
      \/ userSpeaking (fst (handle env ev st)) = true).
Proof.
  intros Hev Hpaused.
  assert (S : Sat stays_paused (handle env ev)).
  { destruct ev as [| | k | | k t | | | | message | |]; simpl in Hev; try discriminate.
    - simpl. frame_with stays_paused_leaf.
    - simpl. frame_with stays_paused_leaf.
    - destruct message as [[type|] [target|] data turnId]; unfold type_is in Hev;
        simpl in Hev; try discriminate;
        destruct (String.eqb_spec type "audio_playback_done") as [->|]; try discriminate.
      simpl. unfold onClientMessage, type_is; simpl.
      frame_with stays_paused_leaf. }
  destruct (S st Hpaused) as [P R]. split; [exact R | exact P].
Qed.

Lemma paused_turn_does_not_advance_witness :
  let st := fst (handle allOpen (ClientMessage (control "user_speaking")) twoOfThree) in
  let ev := TranscriptDone ai_a yesText in
  userSpeaking st = true
  /\ autoMode st = true
  /\ flag flag_audioDone ai_a st = true
  /\ flag flag_playbackDone ai_a st = true
  /\ requested (snd (handle allOpen ev st)) = [].
Proof.
  exact (conj eq_refl (conj eq_refl (conj eq_refl (conj eq_refl
           (proj1 (paused_turn_does_not_advance allOpen (TranscriptDone ai_a yesText)
                     ai_a flag_transcriptDone
                     (fst (handle allOpen (ClientMessage (control "user_speaking"))
                             twoOfThree))
                     eq_refl (or_intror eq_refl))))))).
Defined.

(** *** Advancing to the next speaker *)

Lemma requestAiResponse_requested (env : Env) (key : AiKey) (delayMs : Z) (st : State) :
  requested (snd (requestAiResponse env key delayMs st))
  = if is_open (get key (aiSockets env)) then [key] else [].
Proof.
  unfold requestAiResponse.
  destruct (is_open (get key (aiSockets env))); reflexivity.
Qed.

Lemma requestAiResponse_keeps_queue (env : Env) (key : AiKey) (delayMs : Z) :
  Sat (keeps queuedNextKeys) (requestAiResponse env key delayMs).
Proof. frame. Qed.

(** A playback acknowledgment that is accepted on a complete turn, step by
    step. *)
Lemma playback_ack_step
    (env : Env) (target : AiKey) (turnId : option Z) (data : option jsstring) (st : State) :
  let next := hd (otherKey target) (queuedNextKeys st) in
  let r := handle env
             (ClientMessage (mkMessage (Some "audio_playback_done"%string)
                               (Some target) data turnId)) st in
  let st1 := set_queuedNextKeys (tl (queuedNextKeys st))
               (set_playbackDone (upd target true (playbackDone st)) st) in
  turnId = None \/ turnId = Some (get target (currentTurn st)) ->
  get target (audioDone st) = true ->
  get target (transcriptDone st) = true ->
  autoMode st = true ->
  userSpeaking st = false ->
  sessionEnded st = false ->
  fst r = fst (requestAiResponse env next 450 st1)
  /\ snd r = LogTurn target (get target (currentTurn st)) log_audio_playback_done
             :: snd (requestAiResponse env next 450 st1).
Proof.
  intros next r st1 Hid Haudio Htranscript Hauto Hsilent Hrunning.
  assert (E : r = (assign playbackDone set_playbackDone target true ;;
                   logEvent target log_audio_playback_done ;;
                   checkTurnCompletion env target) st).
  { unfold r. simpl handle. unfold onClientMessage, type_is; simpl. unfold reading.
    destruct Hid as [-> | ->]; [reflexivity |].
    rewrite Z.eqb_refl. reflexivity. }
  set (st0 := set_playbackDone (upd target true (playbackDone st)) st).
  assert (C : checkTurnCompletion env target st0 = requestAiResponse env next 450 st1).
  { unfold checkTurnCompletion, reading.
    change (autoMode st0) with (autoMode st).
    change (userSpeaking st0) with (userSpeaking st).
    change (sessionEnded st0) with (sessionEnded st).
    change (queuedNextKeys st0) with (queuedNextKeys st).
    change (get target (audioDone st0)) with (get target (audioDone st)).
    change (get target (transcriptDone st0)) with (get target (transcriptDone st)).
    replace (get target (playbackDone st0)) with true by (destruct target; reflexivity).
    rewrite Haudio, Htranscript, Hauto, Hsilent, Hrunning. simpl.
    unfold next, st1. fold st0.
    destruct (queuedNextKeys st) eqn:Q; simpl hd; simpl tl.
    - f_equal. unfold set_queuedNextKeys. unfold st0 at 1.
      unfold set_playbackDone. rewrite <- Q. reflexivity.
    - apply andThen_modify. }
  rewrite E. unfold assign. rewrite andThen_modify. fold st0.
  rewrite andThen_snd, andThen_fst. unfold logEvent, reading, emit. simpl.
  rewrite C. split; reflexivity.
Qed.

(** What an accepted acknowledgment of a complete turn does. *)
Lemma playback_ack_result
    (env : Env) (target : AiKey) (turnId : option Z) (data : option jsstring) (st : State) :
  let next := hd (otherKey target) (queuedNextKeys st) in
  let r := handle env
             (ClientMessage (mkMessage (Some "audio_playback_done"%string)
                               (Some target) data turnId)) st in
  turnId = None \/ turnId = Some (get target (currentTurn st)) ->
  get target (audioDone st) = true ->
  get target (transcriptDone st) = true ->
  autoMode st = true ->
  userSpeaking st = false ->
  sessionEnded st = false ->
  requested (snd r) = (if is_open (get next (aiSockets env)) then [next] else [])
  /\ queuedNextKeys (fst r) = tl (queuedNextKeys st)
  /\ (is_open (get next (aiSockets env)) = true ->
      In (SetTimeout next 450) (snd r)
      /\ get next (currentTurn (fst r)) = get next (currentTurn st) + 1).
Proof.
  intros next r Hid Haudio Htranscript Hauto Hsilent Hrunning.
  destruct (playback_ack_step env target turnId data st
              Hid Haudio Htranscript Hauto Hsilent Hrunning) as [S1 S2].
  fold next in S1, S2. fold r in S1, S2. rewrite S1, S2.
  change (requested (?e :: ?l)) with (requestOf e ++ requested l). simpl app.
  rewrite requestAiResponse_requested.
  split; [reflexivity |]. split.
  - apply (requestAiResponse_keeps_queue env next 450).
  - intro H. split.
    + right. rewrite (proj1 (requestAiResponse_open env _ 450 _ H)). simpl. tauto.
    + rewrite (proj1 (proj2 (requestAiResponse_open env _ 450 _ H))).
      destruct target, next; reflexivity.
Qed.

(** X9: a playback acknowledgment that carries the current turn
    identifier of its target, or none at all, completes the turn when the
    audio and the transcript are done; in a running session with the human
    silent the coordinator then takes the head of the pending queue, or the
    other role when the queue is empty, removes it from the queue and
    requests it (if its connection is open it gets its next turn
    identifier). *)
Theorem playback_ack_advances
    (env : Env) (target : AiKey) (turnId : option Z) (data : option jsstring) (st : State) :
  let next := hd (otherKey target) (queuedNextKeys st) in
  let r := handle env
             (ClientMessage (mkMessage (Some "audio_playback_done"%string)
                               (Some target) data turnId)) st in
  turnId = None \/ turnId = Some (get target (currentTurn st)) ->
  get target (audioDone st) = true ->
  get target (transcriptDone st) = true ->
  autoMode st = true ->
  userSpeaking st = false ->
  sessionEnded st = false ->
  requested (snd r) = (if is_open (get next (aiSockets env)) then [next] else [])
  /\ queuedNextKeys (fst r) = tl (queuedNextKeys st)
  /\ (is_open (get next (aiSockets env)) = true ->
      In (SetTimeout next 450) (snd r)
      /\ get next (currentTurn (fst r)) = get next (currentTurn st) + 1).
Proof. exact (playback_ack_result env target turnId data st). Qed.

Lemma playback_ack_advances_witness :
  let r := handle allOpen (ClientMessage (audio_playback_done ai_a 1)) awaitingPlayback in
  get ai_a (currentTurn awaitingPlayback) = 1
  /\ get ai_b (currentTurn awaitingPlayback) = 0
  /\ requested (snd r) = [ai_b]
  /\ get ai_b (currentTurn (fst r)) = 1.
Proof.
  pose proof (playback_ack_advances allOpen ai_a (Some 1) None awaitingPlayback
                (or_intror eq_refl) eq_refl eq_refl eq_refl eq_refl eq_refl)
    as (R & _ & T).
  exact (conj eq_refl (conj eq_refl (conj R (proj2 (T eq_refl))))).
Defined.

(** X10: acknowledgments are not idempotent: once a turn is complete its
    three flags stay set until that role is asked again, so the same
    playback acknowledgment received a second time (in a running session,
    human silent, queue empty, the other connection open) starts a second
    request for the other role, which has then taken two turn
    identifiers. *)
Theorem duplicate_ack_advances_again
    (env : Env) (target : AiKey) (data : option jsstring) (st : State) :
  let ack := ClientMessage (mkMessage (Some "audio_playback_done"%string)
                              (Some target) data (Some (get target (currentTurn st)))) in
  let r1 := handle env ack st in
  let r2 := handle env ack (fst r1) in
  get target (audioDone st) = true ->
  get target (transcriptDone st) = true ->
  autoMode st = true ->
  userSpeaking st = false ->
  sessionEnded st = false ->
  queuedNextKeys st = [] ->
  is_open (get (otherKey target) (aiSockets env)) = true ->
  requested (snd r1) = [otherKey target]
  /\ requested (snd r2) = [otherKey target]
  /\ get (otherKey target) (currentTurn (fst r2))
     = get (otherKey target) (currentTurn st) + 2.
Proof.
  intros ack r1 r2 Haudio Htranscript Hauto Hsilent Hrunning Hqueue Hopen.
  pose proof (playback_ack_result env target _ data st (or_intror eq_refl)
                Haudio Htranscript Hauto Hsilent Hrunning) as (R1 & Q1 & T1).
  destruct (playback_ack_step env target _ data st (or_intror eq_refl)
              Haudio Htranscript Hauto Hsilent Hrunning) as [S1 _].
  cbv zeta in R1, Q1, T1, S1. fold ack in R1, Q1, T1, S1. fold r1 in R1, Q1, T1, S1.
  rewrite Hqueue in R1, Q1, T1, S1. simpl hd in R1, T1, S1. simpl tl in Q1, S1.
  rewrite Hopen in R1. destruct (T1 Hopen) as [_ C1].
  assert (F : get target (audioDone (fst r1)) = true
              /\ get target (transcriptDone (fst r1)) = true
              /\ autoMode (fst r1) = true
              /\ userSpeaking (fst r1) = false
              /\ sessionEnded (fst r1) = false
              /\ get target (currentTurn (fst r1)) = get target (currentTurn st)).
  { rewrite S1. unfold requestAiResponse. rewrite Hopen.
    destruct target; simpl in *; repeat split; assumption. }
  destruct F as (F1 & F2 & F3 & F4 & F5 & F6).
  pose proof (playback_ack_result env target (Some (get target (currentTurn st))) data
                (fst r1) (or_intror (f_equal Some (eq_sym F6))) F1 F2 F3 F4 F5)
    as (R2 & _ & T2).
  cbv zeta in R2, T2. fold ack in R2, T2. fold r2 in R2, T2.
  rewrite Q1 in R2, T2. simpl hd in R2, T2. rewrite Hopen in R2.
  destruct (T2 Hopen) as [_ C2].
  split; [exact R1 |]. split; [exact R2 |]. rewrite C2, C1. lia.
Qed.

Lemma duplicate_ack_advances_again_witness :
  let ack := ClientMessage (audio_playback_done ai_a 1) in
  let r1 := handle allOpen ack awaitingPlayback in
  let r2 := handle allOpen ack (fst r1) in
  get ai_a (currentTurn awaitingPlayback) = 1
  /\ requested (snd r1) = [ai_b]
  /\ requested (snd r2) = [ai_b]
  /\ get ai_b (currentTurn (fst r2)) = 2.
Proof.
  pose proof (duplicate_ack_advances_again allOpen ai_a None awaitingPlayback
                eq_refl eq_refl eq_refl eq_refl eq_refl eq_refl eq_refl)
    as (R1 & R2 & C).
  exact (conj eq_refl (conj R1 (conj R2 C))).
Defined.

(** *** One role's events and the other role's turn *)

#[export] Instance undisturbed_compositional (key : AiKey) : Compositional (undisturbed key).
Proof.
  split; unfold undisturbed.
  - reflexivity.
  - intros st1 st2 st3 out1 out2 H1 H2 H.
    unfold requested in H. rewrite flat_map_app in H.
    apply app_eq_nil in H as [E1 E2].
    rewrite (H2 E2). exact (H1 E1).
Qed.

Lemma requestAiResponse_undisturbed (env : Env) (key k : AiKey) (delayMs : Z) :
  Sat (undisturbed key) (requestAiResponse env k delayMs).
Proof.
  intros st H. rewrite requestAiResponse_requested in H.
  unfold requestAiResponse in *.
  destruct (is_open (get k (aiSockets env))); [discriminate | reflexivity].
Qed.

Ltac undisturbed_leaf :=
  idtac;
  match goal with
  | |- Sat (undisturbed _) (requestAiResponse _ _ _) =>
      exact (requestAiResponse_undisturbed _ _ _ _)
  | |- Sat (undisturbed _) (fun _ => _) =>
      let st := fresh "st" in intros st _; reflexivity
  end.

(** X11: the events of one role (the provider events of its connection,
    the playback acknowledgments that target it) leave the turn of the
    other role alone unless they start a generation request: its flags, its
    turn identifier, its buffered and queued transcript are unchanged. *)
Theorem other_role_undisturbed (env : Env) (ev : Event) (key : AiKey) (st : State) :
  roleOf ev = Some key ->
  requested (snd (handle env ev st)) = [] ->
  turnState (otherKey key) (fst (handle env ev st)) = turnState (otherKey key) st.
Proof.
  intros Hrole.
  assert (S : Sat (undisturbed (otherKey key)) (handle env ev)).
  { destruct ev as [k|k a|k|k d|k t|k t|k t|k m|message| |k];
      simpl in Hrole; try discriminate.
    1-8, 10: injection Hrole as ->; destruct key; simpl;
      try solve [frame_with undisturbed_leaf].
    - destruct message as [[type|] [target|] data turnId]; unfold type_is in Hrole;
        simpl in Hrole; try discriminate;
        destruct (String.eqb_spec type "audio_playback_done") as [->|]; try discriminate.
      injection Hrole as ->.
      simpl. unfold onClientMessage, type_is; simpl.
      destruct key; frame_with undisturbed_leaf. }
  exact (S st).
Qed.

Lemma other_role_undisturbed_witness :
  let ev := AudioDone ai_a in
  requested (snd (handle allOpen ev afterFirstRequest)) = []
  /\ turnState ai_b (fst (handle allOpen ev afterFirstRequest))
     = turnState ai_b afterFirstRequest.
Proof.
  assert (H : requested (snd (handle allOpen (AudioDone ai_a) afterFirstRequest)) = [])
    by reflexivity.
  exact (conj H (other_role_undisturbed allOpen (AudioDone ai_a) ai_a afterFirstRequest
                   eq_refl H)).
Defined.

(** *** Messages the server does not act on *)

(** X12: a client message whose type is none of the seven the server
    knows, or that lacks the field its type needs (a [request_ai] or an
    [audio_playback_done] without target, a [user_audio] without data or
    with empty data), is ignored: the state is unchanged and nothing is
    sent, logged or scheduled. *)
Theorem unhandled_message_ignored (env : Env) (message : Message) (st : State) :
  handled message = false ->
  handle env (ClientMessage message) st = (st, []).
Proof.
  unfold handled. intro H. simpl handle. unfold onClientMessage.
  destruct (type_is message "start"); [discriminate |].
  destruct (type_is message "request_ai"), (m_target message);
    simpl in H; try discriminate;
    destruct (type_is message "user_audio" && truthy_text (m_data message));
    simpl in H; try discriminate;
    destruct (type_is message "user_audio_commit"); simpl in H; try discriminate;
    destruct (type_is message "user_speaking"); simpl in H; try discriminate;
    destruct (type_is message "user_done"); simpl in H; try discriminate;
    destruct (type_is message "audio_playback_done"); simpl in H; try discriminate;
    reflexivity.
Qed.

Lemma unhandled_message_ignored_witness :
  handled (mkMessage (Some "request_ai"%string) None None None) = false
  /\ handled (mkMessage (Some "user_audio"%string) None (Some []) None) = false
  /\ handle allOpen (ClientMessage (mkMessage (Some "request_ai"%string) None None None))
       twoOfThree = (twoOfThree, [])
  /\ handle allOpen (ClientMessage (mkMessage (Some "user_audio"%string) None (Some []) None))
       twoOfThree = (twoOfThree, []).
Proof.
  exact (conj eq_refl (conj eq_refl
           (conj (unhandled_message_ignored allOpen
                    (mkMessage (Some "request_ai"%string) None None None)
                    twoOfThree eq_refl)
                 (unhandled_message_ignored allOpen
                    (mkMessage (Some "user_audio"%string) None (Some []) None)
                    twoOfThree eq_refl)))).
Defined.

(** *** Starting a session *)

(** X13: a [start] message always turns automatic turn-taking on and
    resets the session policy (turn count, end flag and reason, coverage,
    queue) but not the turn identifiers. If both provider sessions are
    ready it reports [sessions_ready] and asks the interviewer; otherwise
    it reports [waiting_for_sessions], starts no request and leaves the
    start pending. *)
Theorem start_resets_session (env : Env) (message : Message) (st : State) :
  let r := handle env (ClientMessage message) st in
  let ready := get ai_a (sessionReady st) && get ai_b (sessionReady st) in
  type_is message "start" = true ->
  policy (fst r) = (0, false, None, noCoverage)
  /\ autoMode (fst r) = true
  /\ queuedNextKeys (fst r) = []
  /\ pendingStart (fst r) = (if ready then pendingStart st else true)
  /\ requested (snd r)
     = (if ready && is_open (get ai_a (aiSockets env)) then [ai_a] else [])
  /\ (is_open (clientSocket env) = true ->
      In (ClientSend (if ready then sessions_ready else waiting_for_sessions)) (snd r))
  /\ get ai_b (currentTurn (fst r)) = get ai_b (currentTurn st).
Proof.
  intros r ready Hstart.
  destruct (start_policy env message st Hstart) as [P A].
  split; [exact P |]. split; [exact A |].
  unfold r. simpl handle. unfold onClientMessage. rewrite Hstart.
  rewrite !andThen_modify. unfold reading.
  set (st1 := set_coverage noCoverage _).
  change (get ai_a (sessionReady st1) && get ai_b (sessionReady st1)) with ready.
  destruct ready.
  - rewrite andThen_fst, andThen_snd. unfold sendToClient, emit.
    cbn [fst snd].
    rewrite (requestAiResponse_keeps_queue env ai_a 0 st1).
    assert (K : Sat (keeps pendingStart) (requestAiResponse env ai_a 0)) by frame.
    rewrite (K st1).
    unfold requested. rewrite flat_map_app. fold (requested (snd (requestAiResponse env ai_a 0 st1))).
    rewrite requestAiResponse_requested.
    assert (K2 : Sat (keeps (fun s => get ai_b (currentTurn s))) (requestAiResponse env ai_a 0))
      by frame.
    rewrite (K2 st1).
    repeat split.
    + destruct (is_open (clientSocket env)); reflexivity.
    + intro Hclient. rewrite Hclient. left. reflexivity.
  - rewrite andThen_modify. unfold sendToClient, emit. cbn [fst snd].
    repeat split.
    + destruct (is_open (clientSocket env)); reflexivity.
    + intro Hclient. rewrite Hclient. left. reflexivity.
Qed.

Lemma start_resets_session_witness :
  let r := handle allOpen (ClientMessage (control "start")) endedByMaxTurns in
  type_is (control "start") "start" = true
  /\ sessionEnded endedByMaxTurns = true
  /\ policy (fst r) = (0, false, None, noCoverage)
  /\ requested (snd r) = []
  /\ pendingStart (fst r) = true.
Proof.
  pose proof (start_resets_session allOpen (control "start") endedByMaxTurns eq_refl)
    as (P & _ & _ & S & R & _).
  exact (conj eq_refl (conj eq_refl (conj P (conj R S)))).
Defined.



(** *** What each role hears of the other *)

Ltac reduce_key_test :=
  idtac;
  match goal with
  | |- Sat _ (if AiKey_eqb _ _ then _ else _) => progress cbn [AiKey_eqb]
  | |- Sat _ (sendToAi _ (otherKey _) _) => progress cbn [otherKey]
  end.

Lemma onTranscriptDone_contexts (env : Env) (key k : AiKey) (transcript : jsstring) (st : State) :
  let finalText := finalTextOf key transcript st in
  contextsFor k (snd (onTranscriptDone env key transcript st))
  = contextsFor k
      (snd (evaluateEnd env key finalText (fst (recordTranscript key finalText st))))
    ++ (if truthy (trim finalText) && is_open (get (otherKey key) (aiSockets env))
           && AiKey_eqb (otherKey key) k
        then [saidText key finalText] else []).
Proof.
  intro finalText. unfold onTranscriptDone. unfold reading at 1. fold finalText.
  rewrite !andThen_snd. unfold contextsFor. rewrite !flat_map_app.
  assert (K1 : Sat (silent (contextOf k)) (recordTranscript key finalText)) by frame.
  rewrite (K1 st). simpl app. f_equal.
  repeat match goal with
  | |- context [flat_map (contextOf k) (snd (?h ?s))] =>
      lazymatch h with
      | (if truthy _ then _ else _) => fail
      | _ => let K := fresh "K" in
             assert (K : Sat (silent (contextOf k)) h) by frame; rewrite (K s); clear K
      end
  end.
  simpl app.
  destruct (truthy (trim finalText)); [| reflexivity].
  unfold sendToAi, emit. cbn [snd].
  destruct (is_open (get (otherKey key) (aiSockets env))); [| reflexivity].
  simpl. destruct (AiKey_eqb (otherKey key) k); reflexivity.
Qed.

(** X15: every finalized transcript with a character that is not
    whitespace is passed, labelled with the speaker, into the conversation
    of the other role when that connection is open, exactly once; and the
    candidate's own conversation never receives its own text. *)
Theorem transcript_bridged_to_other_role
    (env : Env) (key : AiKey) (transcript : jsstring) (st : State) :
  let finalText := finalTextOf key transcript st in
  let r := onTranscriptDone env key transcript st in
  contextsFor (otherKey key) (snd r)
  = (if truthy (trim finalText) && is_open (get (otherKey key) (aiSockets env))
     then [saidText key finalText] else [])
  /\ (key = ai_b -> contextsFor ai_b (snd r) = []).
Proof.
  intros finalText r. unfold r.
  split.
  - rewrite onTranscriptDone_contexts. fold finalText.
    assert (E : contextsFor (otherKey key)
                  (snd (evaluateEnd env key finalText
                          (fst (recordTranscript key finalText st)))) = []).
    { assert (K : Sat (silent (contextOf (otherKey key))) (evaluateEnd env key finalText))
        by (destruct key; frame_with reduce_key_test).
      apply K. }
    rewrite E. simpl app.
    replace (AiKey_eqb (otherKey key) (otherKey key)) with true
      by (destruct key; reflexivity).
    rewrite andb_true_r. reflexivity.
  - intros ->. rewrite onTranscriptDone_contexts.
    assert (K : Sat (silent (contextOf ai_b))
                  (evaluateEnd env ai_b (finalTextOf ai_b transcript st)))
      by (frame_with reduce_key_test).
    unfold contextsFor at 1. rewrite (K _). simpl.
    rewrite andb_false_r. reflexivity.
Qed.

Lemma transcript_bridged_to_other_role_witness :
  contextsFor ai_a (snd (onTranscriptDone allOpen ai_b yesText afterFirstRequest))
  = [saidText ai_b yesText]
  /\ contextsFor ai_b (snd (onTranscriptDone allOpen ai_b yesText afterFirstRequest)) = [].
Proof.
  destruct (transcript_bridged_to_other_role allOpen ai_b yesText afterFirstRequest)
    as [B O].
  exact (conj B (O eq_refl)).
Defined.

(** *** Blank transcripts *)

Lemma strip_ws_nil (s : jsstring) : strip_ws s = [] -> forallb is_ws s = true.
Proof.
  induction s as [|c s IH]; simpl; [reflexivity |].
  destruct (is_ws c); simpl; [exact IH | discriminate].
Qed.

Lemma trimStart_blank (s : jsstring) : forallb is_ws s = true -> trimStart s = [].
Proof.
  induction s as [|c s IH]; simpl; [reflexivity |].
  destruct (is_ws c); simpl; [exact IH | discriminate].
Qed.

Lemma trim_blank (s : jsstring) : strip_ws s = [] -> trim s = [].
Proof.
  intro H. unfold trim. rewrite (trimStart_blank s (strip_ws_nil s H)). reflexivity.
Qed.

Lemma includes_blank (s w : jsstring) (c : N) :
  forallb is_ws s = true -> is_ws c = false -> includes s (c :: w) = false.
Proof.
  intros Hs Hc. induction s as [|d s IH]; simpl; [reflexivity |].
  simpl in Hs. apply andb_prop in Hs as [Hd Hrest].
  rewrite (IH Hrest), orb_false_r.
  destruct (N.eqb_spec c d) as [->|]; [congruence | reflexivity].
Qed.

Lemma hasEndMarker_blank (s : jsstring) : strip_ws s = [] -> hasEndMarker s = false.
Proof.
  intro H. apply strip_ws_nil in H.
  unfold hasEndMarker, includesAny, endMarkers. simpl existsb.
  rewrite !(includes_blank s _ 0x3010%N H eq_refl). reflexivity.
Qed.

(** X16: a finalized transcript without any character that is not
    whitespace (the empty one included) still counts as a turn, and can end
    the session by [max_turns], but it is never taken for a closing marker,
    never changes the coverage and is not passed to either role's
    conversation. *)
Theorem blank_transcript_counts_only
    (env : Env) (key : AiKey) (transcript : jsstring) (st : State) :
  let finalText := finalTextOf key transcript st in
  let r := onTranscriptDone env key transcript st in
  strip_ws finalText = [] ->
  totalTurns (fst r) = totalTurns st + 1
  /\ coverage (fst r) = coverage st
  /\ sessionEnded (fst r) = sessionEnded st || (MAX_TURNS <=? totalTurns st + 1)
  /\ contextsFor ai_a (snd r) = []
  /\ contextsFor ai_b (snd r) = [].
Proof.
  intros finalText r Hblank.
  pose proof (hasEndMarker_blank finalText Hblank) as Hmarker.
  assert (C : coverageAfter key finalText (coverage st) = coverage st).
  { destruct key; [| reflexivity]. simpl. unfold updateCoverage. rewrite Hblank. reflexivity. }
  pose proof (onTranscriptDone_verdict env key transcript st) as P.
  cbv zeta in P. fold finalText in P. fold r in P. rewrite C in P.
  unfold verdict in P. rewrite Hmarker in P.
  assert (Q : totalTurns (fst r) = totalTurns st + 1
              /\ coverage (fst r) = coverage st
              /\ sessionEnded (fst r) = sessionEnded st || (MAX_TURNS <=? totalTurns st + 1)).
  { destruct (MAX_TURNS <=? totalTurns st + 1);
      rewrite (f_equal (fun p => fst (fst (fst p))) P : totalTurns (fst r) = _);
      rewrite (f_equal snd P : coverage (fst r) = _);
      rewrite (f_equal (fun p => snd (fst (fst p))) P : sessionEnded (fst r) = _);
      rewrite ?orb_true_r, ?orb_false_r; repeat split. }
  destruct Q as (Q1 & Q2 & Q3).
  refine (conj Q1 (conj Q2 (conj Q3 _))).
  assert (E : forall k,
             contextsFor k (snd (evaluateEnd env key finalText
                                   (fst (recordTranscript key finalText st)))) = []).
  { intro k. unfold evaluateEnd, reading. rewrite Hmarker.
    destruct (MAX_TURNS <=? totalTurns (fst (recordTranscript key finalText st)));
      [| reflexivity].
    assert (K : Sat (silent (contextOf k)) (endSession env max_turns)) by frame.
    apply K. }
  unfold r. rewrite !onTranscriptDone_contexts. fold finalText.
  rewrite !E, (trim_blank finalText Hblank). split; reflexivity.
Qed.

Lemma blank_transcript_counts_only_witness :
  let r := onTranscriptDone allOpen ai_a blankText afterFirstRequest in
  strip_ws (finalTextOf ai_a blankText afterFirstRequest) = []
  /\ totalTurns (fst r) = 1
  /\ coverage (fst r) = noCoverage
  /\ contextsFor ai_b (snd r) = [].
Proof.
  assert (H : strip_ws (finalTextOf ai_a blankText afterFirstRequest) = []) by reflexivity.
  pose proof (blank_transcript_counts_only allOpen ai_a blankText afterFirstRequest H)
    as (T & C & _ & _ & B).
  exact (conj H (conj T (conj C B))).
Defined.

(** *** The human transcript *)

Lemma eqb_jsstring_refl (s : jsstring) : eqb_jsstring s s = true.
Proof.
  induction s as [|c s IH]; simpl; [reflexivity |].
  rewrite N.eqb_refl. exact IH.
Qed.

Lemma eqb_jsstring_eq (s t : jsstring) : eqb_jsstring s t = true -> s = t.
Proof.
  revert t. induction s as [|c s IH]; intros [|d t] H; simpl in H;
    try discriminate; [reflexivity |].
  apply andb_prop in H as [Hc Hs].
  apply N.eqb_eq in Hc. rewrite Hc, (IH t Hs). reflexivity.
Qed.

(** X17: the transcript of a human utterance is reported once: when a
    finalized input transcript with text is accepted on the interviewer's
    connection, one [user_transcript] with the trimmed text goes to the
    client, and a second finalized input transcript with the same trimmed
    text less than 2000 ms later changes nothing and reports nothing; the
    copy that arrives on the candidate's connection is always ignored. *)
Theorem human_transcript_reported_once
    (env env' : Env) (transcript transcript' : jsstring) (st : State) :
  let r := handle env (InputTranscriptDone ai_a transcript) st in
  truthy (trim transcript) = true ->
  ~ (lastUserTranscript st = trim transcript /\ now env - lastUserTranscriptAt st < 2000) ->
  trim transcript' = trim transcript ->
  now env' - now env < 2000 ->
  userTranscripts (snd r)
  = (if is_open (clientSocket env) then [trim transcript] else [])
  /\ lastUserTranscript (fst r) = trim transcript
  /\ lastUserTranscriptAt (fst r) = now env
  /\ handle env' (InputTranscriptDone ai_a transcript') (fst r) = (fst r, [])
  /\ handle env' (InputTranscriptDone ai_b transcript') st = (st, []).
Proof.
  intros r Htext Hnew Hsame Hsoon.
  assert (E : r = (set_lastUserTranscriptAt (now env)
                     (set_lastUserTranscript (trim transcript) st),
                   if is_open (clientSocket env)
                   then [ClientSend (user_transcript (trim transcript))] else [])).
  { unfold r. simpl handle. unfold onInputTranscriptDone. cbn [negb AiKey_eqb].
    rewrite Htext. cbn [negb]. unfold reading.
    destruct (eqb_jsstring (trim transcript) (lastUserTranscript st)
              && (now env - lastUserTranscriptAt st <? 2000)) eqn:D.
    - exfalso. apply Hnew. apply andb_prop in D as [D1 D2].
      split; [symmetry; exact (eqb_jsstring_eq _ _ D1) | apply Z.ltb_lt; exact D2].
    - rewrite !andThen_modify. reflexivity. }
  rewrite E. cbn [fst snd].
  split; [destruct (is_open (clientSocket env)); reflexivity |].
  split; [reflexivity |]. split; [reflexivity |]. split; [| reflexivity].
  simpl handle. unfold onInputTranscriptDone. cbn [negb AiKey_eqb].
  rewrite Hsame, Htext. cbn [negb]. unfold reading.
  cbn [lastUserTranscript lastUserTranscriptAt set_lastUserTranscriptAt set_lastUserTranscript].
  rewrite eqb_jsstring_refl.
  destruct (Z.ltb_spec (now env' - now env) 2000); [reflexivity | lia].
Qed.

Lemma human_transcript_reported_once_witness :
  let r' := handle atTwoSeconds (InputTranscriptDone ai_a (blankText ++ helloText ++ blankText))
              initialState in
  trim (blankText ++ helloText ++ blankText) = helloText
  /\ userTranscripts (snd r') = [helloText]
  /\ handle atTwoSeconds (InputTranscriptDone ai_a helloText) (fst r') = (fst r', []).
Proof.
  assert (T : trim (blankText ++ helloText ++ blankText) = helloText) by reflexivity.
  assert (N : ~ (lastUserTranscript initialState = trim (blankText ++ helloText ++ blankText)
                 /\ now atTwoSeconds - lastUserTranscriptAt initialState < 2000))
    by (intros [H _]; discriminate H).
  pose proof (human_transcript_reported_once atTwoSeconds atTwoSeconds
                (blankText ++ helloText ++ blankText) helloText initialState
                eq_refl N (eq_sym T) eq_refl) as (U & _ & _ & D & _).
  exact (conj T (conj U D)).
Defined.

(** *** Streaming a turn *)

Lemma onTranscriptDelta_state (key : AiKey) (delta : jsstring) (st : State) :
  let st' := fst (onTranscriptDelta key delta st) in
  get key (transcriptBuffers st') = get key (transcriptBuffers st) ++ delta
  /\ get key (transcriptDeltaQueue st')
     = get key (transcriptDeltaQueue st) ++ (if truthy delta then [delta] else [])
  /\ policy st' = policy st.
Proof.
  unfold onTranscriptDelta, assign, reading, logEvent, emit.
  destruct key, delta; simpl; rewrite ?app_nil_r; repeat split.
Qed.

(** X18: the text streamed in transcript deltas is the fallback of the
    final transcript: after the deltas of a turn that began with an empty
    buffer, a transcript-done event without text finalizes their
    concatenation, in arrival order; the non-empty deltas wait in the
    queue in the same order, and streaming counts no turn. *)
Theorem streamed_deltas_are_fallback
    (env : Env) (key : AiKey) (deltas : list jsstring) (st : State) :
  let st' := fst (run (deltaEvents env key deltas) st) in
  get key (transcriptBuffers st) = [] ->
  finalTextOf key [] st' = List.concat deltas
  /\ get key (transcriptDeltaQueue st')
     = get key (transcriptDeltaQueue st) ++ filter truthy deltas
  /\ totalTurns st' = totalTurns st.
Proof.
  intros st' Hempty. unfold st'. clear st'.
  assert (G : forall s,
             let s' := fst (run (deltaEvents env key deltas) s) in
             get key (transcriptBuffers s') = get key (transcriptBuffers s) ++ List.concat deltas
             /\ get key (transcriptDeltaQueue s')
                = get key (transcriptDeltaQueue s) ++ filter truthy deltas
             /\ policy s' = policy s).
  { induction deltas as [|delta deltas IH]; intro s; simpl.
    - rewrite !app_nil_r. repeat split.
    - rewrite andThen_fst.
      destruct (IH (fst (handle env (TranscriptDelta key delta) s))) as (B & Q & P).
      destruct (onTranscriptDelta_state key delta s) as (B0 & Q0 & P0).
      simpl handle in *. rewrite B, Q, P, B0, Q0, P0.
      rewrite <- !app_assoc.
      destruct (truthy delta); repeat split. }
  destruct (G st) as (B & Q & P).
  unfold finalTextOf. simpl truthy. cbv iota.
  rewrite B, Hempty. split; [reflexivity |]. split; [exact Q |].
  exact (f_equal (fun p => fst (fst (fst p))) P).
Qed.

Lemma streamed_deltas_are_fallback_witness :
  let st' := fst (run (deltaEvents allOpen ai_a [yesCommaText; []; yesText])
                    afterFirstRequest) in
  get ai_a (transcriptBuffers afterFirstRequest) = []
  /\ finalTextOf ai_a [] st' = yesCommaText ++ yesText
  /\ get ai_a (transcriptDeltaQueue st') = [yesCommaText; yesText].
Proof.
  pose proof (streamed_deltas_are_fallback allOpen ai_a [yesCommaText; []; yesText]
                afterFirstRequest eq_refl) as (F & Q & _).
  exact (conj eq_refl (conj F Q)).
Defined.

Lemma onAudioDelta_step (env : Env) (key : AiKey) (chunk : jsstring) (st : State) :
  let r := onAudioDelta env key chunk st in
  get key (transcriptDeltaQueue (fst r)) = tl (get key (transcriptDeltaQueue st))
  /\ deltasSent key (snd r)
     = (if is_open (clientSocket env)
        then filter truthy (firstn 1 (get key (transcriptDeltaQueue st)))
        else []).
Proof.
  intro r. unfold r, onAudioDelta. clear r.
  match goal with
  | |- context [(?A ;; ?B ;; ?C) st] => set (hA := A); set (hB := B); set (hC := C)
  end.
  assert (SA : Sat (silent (deltaOf key)) hA) by (unfold hA; frame).
  assert (SB : Sat (silent (deltaOf key)) hB) by (unfold hB; frame).
  assert (KA : Sat (keeps (fun x => get key (transcriptDeltaQueue x))) hA)
    by (unfold hA; frame).
  assert (KB : Sat (keeps (fun x => get key (transcriptDeltaQueue x))) hB)
    by (unfold hB; frame).
  rewrite !andThen_fst, !andThen_snd. unfold deltasSent. rewrite !flat_map_app.
  rewrite (SA st), (SB _). cbn [app].
  set (st2 := fst (hB (fst (hA st)))).
  assert (Q : get key (transcriptDeltaQueue st2) = get key (transcriptDeltaQueue st)).
  { unfold st2. rewrite (KB _). exact (KA st). }
  unfold hC, reading. rewrite Q.
  destruct (get key (transcriptDeltaQueue st)) as [|delta rest] eqn:Eq.
  - split; [exact Q |]. destruct (is_open (clientSocket env)); reflexivity.
  - unfold assign. rewrite andThen_modify.
    destruct (truthy delta) eqn:T; unfold sendToClient, emit; cbn [fst snd];
      (split; [destruct key; reflexivity |]);
      destruct (is_open (clientSocket env)); simpl; rewrite ?T;
      try reflexivity; destruct key; reflexivity.
Qed.

Lemma filter_firstn_succ {A : Type} (p : A -> bool) (n : nat) (l : list A) :
  filter p (firstn 1 l) ++ filter p (firstn n (tl l)) = filter p (firstn (S n) l).
Proof.
  destruct l as [|x l]; simpl.
  - destruct n; reflexivity.
  - destruct (p x); reflexivity.
Qed.

(** X19: transcript deltas reach the client one per audio chunk and in the
    order they were queued: after [n] audio chunks of a role the client
    has been sent the non-empty ones of the first [n] queued deltas, in
    order, and those [n] are gone from the queue; with an empty queue an
    audio chunk sends no delta. *)
Theorem deltas_paced_by_audio
    (env : Env) (key : AiKey) (chunks : list jsstring) (st : State) :
  let r := run (audioEvents env key chunks) st in
  let queue := get key (transcriptDeltaQueue st) in
  is_open (clientSocket env) = true ->
  deltasSent key (snd r) = filter truthy (firstn (List.length chunks) queue)
  /\ get key (transcriptDeltaQueue (fst r)) = skipn (List.length chunks) queue.
Proof.
  intros r queue Hclient. unfold r, queue. clear r queue.
  revert st. induction chunks as [|chunk chunks IH]; intro st; simpl.
  - split; reflexivity.
  - rewrite andThen_fst, andThen_snd. unfold deltasSent. rewrite flat_map_app.
    destruct (onAudioDelta_step env key chunk st) as [Q D].
    destruct (IH (fst (handle env (AudioDelta key chunk) st))) as [D' Q'].
    simpl handle in *. unfold deltasSent in *.
    rewrite D, D', Q', Q, Hclient.
    split.
    + apply filter_firstn_succ.
    + destruct (get key (transcriptDeltaQueue st)); [destruct (List.length chunks) |];
        reflexivity.
Qed.

Lemma deltas_paced_by_audio_witness :
  let st := fst (run (deltaEvents allOpen ai_a [yesCommaText; []; yesText])
                   afterFirstRequest) in
  let r := run (audioEvents allOpen ai_a [[]; []; []]) st in
  is_open (clientSocket allOpen) = true
  /\ deltasSent ai_a (snd r) = [yesCommaText; yesText]
  /\ get ai_a (transcriptDeltaQueue (fst r)) = [].
Proof.
  exact (conj eq_refl
           (deltas_paced_by_audio allOpen ai_a [[]; []; []]
              (fst (run (deltaEvents allOpen ai_a [yesCommaText; []; yesText])
                      afterFirstRequest))
              eq_refl)).
Defined.

(** *** Coverage as an accumulation *)

(** X20: the coverage accumulated from the interviewer's utterances does
    not depend on their order, and an utterance seen again changes
    nothing. *)
Theorem updateCoverage_order_free (text1 text2 : jsstring) (c : Coverage) :
  updateCoverage text1 (updateCoverage text2 c)
  = updateCoverage text2 (updateCoverage text1 c)
  /\ updateCoverage text1 (updateCoverage text1 c) = updateCoverage text1 c.
Proof.
  split; apply coverage_eq; intro t; rewrite !updateCoverage_covered.
  - destruct (covered t c), (includesAny (coverageWords t) (strip_ws text1)),
      (includesAny (coverageWords t) (strip_ws text2)); reflexivity.
  - destruct (covered t c), (includesAny (coverageWords t) (strip_ws text1)); reflexivity.
Qed.

(** *** One final transcript per turn *)

Lemma StronglySorted_app_between (l1 l2 : list Z) (a b c : Z) :
  StronglySorted Z.lt l1 -> StronglySorted Z.lt l2 ->
  Forall (fun id => a <= id < b) l1 -> Forall (fun id => b <= id < c) l2 ->
  StronglySorted Z.lt (l1 ++ l2).
Proof.
  intros S1 S2 F1 F2. induction S1 as [|x l1 S1 IH Hx]; simpl; [exact S2 |].
  inversion F1 as [|? ? Fx F1']; subst.
  constructor; [exact (IH F1') |].
  apply Forall_app. split; [exact Hx |].
  eapply Forall_impl; [| exact F2]. simpl. intros y Hy. lia.
Qed.

#[export] Instance sends_once_compositional (key : AiKey) : Compositional (sends_once key).
Proof.
  split; unfold sends_once.
  - intro st. simpl. repeat split; [lia | constructor | constructor].
  - intros st1 st2 st3 out1 out2 (L1 & S1 & F1) (L2 & S2 & F2).
    unfold transcriptDoneIds in *. rewrite flat_map_app.
    split; [lia |]. split.
    + exact (StronglySorted_app_between _ _ _ _ _ S1 S2 F1 F2).
    + apply Forall_app. split; (eapply Forall_impl; [| eassumption]); simpl; intros; lia.
Qed.

Lemma requestAiResponse_sends_once (env : Env) (key k : AiKey) (delayMs : Z) :
  Sat (sends_once key) (requestAiResponse env k delayMs).
Proof.
  intro st. unfold sends_once, nextUnsent, requestAiResponse.
  destruct (is_open (get k (aiSockets env))); simpl negb; cbv iota.
  - destruct key, k; simpl;
      destruct (at_ai_a (transcriptSent st)), (at_ai_b (transcriptSent st));
      repeat split; first [lia | constructor].
  - simpl. repeat split; first [lia | constructor].
Qed.

(** The guarded block of [onAudioDone] and [onTranscriptDone]: the final
    transcript goes out only while [transcriptSent] is false, and sets
    it. *)
Lemma forward_sends_once (env : Env) (key k : AiKey) (guard : State -> bool) :
  (forall st, guard st = true -> get k (transcriptSent st) = false) ->
  Sat (sends_once key)
    (reading (fun st => if guard st then forwardTranscript env k else done)).
Proof.
  intros Hguard st. unfold reading.
  destruct (guard st) eqn:G.
  - specialize (Hguard st G).
    unfold sends_once, nextUnsent, forwardTranscript, sendToClient, assign, reading,
      andThen, modify, emit.
    destruct (is_open (clientSocket env)), key, k; simpl in *; rewrite ?Hguard;
      destruct (at_ai_a (transcriptSent st)), (at_ai_b (transcriptSent st));
      try discriminate; simpl;
      repeat split; try lia;
      repeat constructor; lia.
  - unfold sends_once. simpl. repeat split; [lia | constructor | constructor].
Qed.

Ltac sends_once_leaf :=
  idtac;
  match goal with
  | |- Sat (sends_once _) (requestAiResponse _ _ _) =>
      exact (requestAiResponse_sends_once _ _ _ _)
  | |- Sat (sends_once _) (reading (fun st => if _ then forwardTranscript _ _ else done)) =>
      apply forward_sends_once;
      let st := fresh "st" in let H := fresh "H" in
      intros st H; apply andb_prop in H as [_ H]; apply negb_true_iff; exact H
  | |- Sat (sends_once _) (fun _ => _) =>
      let st := fresh "st" in
      intro st; unfold sends_once, nextUnsent; simpl;
      repeat split; first [lia | constructor]
  end.

Lemma handle_sends_once (key : AiKey) (env : Env) (ev : Event) :
  Sat (sends_once key) (handle env ev).
Proof.
  destruct ev; simpl handle; try solve [frame_with sends_once_leaf].
  intro st. unfold sends_once, nextUnsent, emit, responseCreateTimer.
  match goal with
  | |- context [negb ?b] => destruct b
  end; simpl; repeat split; first [lia | constructor].
Qed.

(** X21: the client is sent at most one final transcript per turn: along
    every run of the server the turn identifiers of the [transcript_done]
    messages of a role are strictly increasing, hence without repetition,
    and none exceeds the role's current turn. *)
Theorem one_final_transcript_per_turn (trace : list (Env * Event)) (key : AiKey) :
  let r := run trace initialState in
  StronglySorted Z.lt (transcriptDoneIds key (snd r))
  /\ NoDup (transcriptDoneIds key (snd r))
  /\ Forall (fun id => 0 <= id <= get key (currentTurn (fst r)))
       (transcriptDoneIds key (snd r)).
Proof.
  intro r.
  destruct (Sat_run (sends_once key) trace (handle_sends_once key) initialState)
    as (_ & S & F).
  fold r in S, F.
  split; [exact S |]. split; [exact (strongly_sorted_NoDup _ S) |].
  eapply Forall_impl; [| exact F].
  intros id. unfold nextUnsent.
  replace (get key (currentTurn initialState)) with 0 by (destruct key; reflexivity).
  replace (get key (transcriptSent initialState)) with false by (destruct key; reflexivity).
  destruct (get key (transcriptSent (fst r))); lia.
Qed.

(** *** The provider connection *)

Lemma event_is_type (event : ProviderEvent) (s : string) :
  event_is event s = true -> e_type event = Some (JString (lit s)).
Proof.
  unfold event_is. destruct (e_type event) as [[t|]|]; try discriminate.
  intro H. rewrite (eqb_jsstring_eq _ _ H). reflexivity.
Qed.

(** X22: a provider frame that does not parse, and a provider event of
    type [error], never touch the coordinator: the state is unchanged and
    the only effect is one [error] message to the client (none when the
    client socket is not open), which for an error event carries the event
    itself. *)
Theorem provider_errors_only_reported
    (env : Env) (key : AiKey) (frame : option ProviderEvent) (st : State) :
  let message := match frame with
                 | None => lit "Failed to parse OpenAI message."
                 | Some event => e_json event
                 end in
  match frame with
  | None => True
  | Some event => event_is event "error" = true
  end ->
  onProviderMessage env key frame st
  = (st, if is_open (clientSocket env) then [ClientSend (error message)] else []).
Proof.
  intros message H. destruct frame as [event|]; [| reflexivity].
  pose proof (event_is_type event "error" H) as T.
  unfold onProviderMessage, event_is, event_includes. rewrite T. reflexivity.
Qed.

Lemma provider_errors_only_reported_witness :
  let event := mkProviderEvent (Some (JString (lit "error"))) None None None (lit "{}") in
  event_is event "error" = true
  /\ onProviderMessage allOpen ai_b (Some event) twoOfThree
     = (twoOfThree, [ClientSend (error (lit "{}"))]).
Proof.
  exact (conj eq_refl
           (provider_errors_only_reported allOpen ai_b
              (Some (mkProviderEvent (Some (JString (lit "error"))) None None None (lit "{}")))
              twoOfThree eq_refl)).
Defined.

Lemma includes_eqb (t t' w : jsstring) :
  eqb_jsstring t t' = true -> includes t w = includes t' w.
Proof. intro H. rewrite (eqb_jsstring_eq _ _ H). reflexivity. Qed.

(** An event whose type contains [input_audio_transcription] is none of
    the events with a handler of their own. *)
Lemma input_transcription_type (event : ProviderEvent) :
  event_includes event "input_audio_transcription" = true ->
  forall s, In s knownTypes -> event_is event s = false.
Proof.
  unfold event_includes, event_is.
  destruct (e_type event) as [[t|]|]; try discriminate.
  intros H s Hs.
  destruct (eqb_jsstring t (lit s)) eqn:E; [| reflexivity].
  rewrite (includes_eqb _ _ _ E) in H.
  simpl in Hs.
  repeat (destruct Hs as [<- | Hs]; [vm_compute in H; discriminate H |]).
  contradiction.
Qed.

(** X23: the transcription of the human's speech is taken from the
    interviewer's connection only: on the candidate's connection every
    event whose type contains [input_audio_transcription] leaves the state
    unchanged and has no effect, and on either connection a transcription
    delta with text does nothing. *)
Theorem input_transcription_only_from_interviewer
    (env : Env) (key : AiKey) (event : ProviderEvent) (st : State) :
  event_includes event "input_audio_transcription" = true ->
  key = ai_b
  \/ (event_includes event "delta" = true
      /\ truthy (stringElse (e_transcript event) (stringElse (e_text event) [])) = true) ->
  onProviderMessage env key (Some event) st = (st, []).
Proof.
  intros Htype Hcase.
  pose proof (input_transcription_type event Htype) as K.
  unfold onProviderMessage.
  rewrite (K "session.updated"%string), (K "response.audio.delta"%string),
    (K "response.audio.done"%string), (K "response.audio_transcript.delta"%string),
    (K "response.audio_transcript.done"%string), (K "error"%string), Htype
    by (simpl; tauto).
  cbv zeta.
  destruct Hcase as [-> | [Hdelta Htext]].
  - destruct (event_includes event "delta" && truthy _); [reflexivity |].
    destruct (truthy _); reflexivity.
  - rewrite Hdelta, Htext. reflexivity.
Qed.

Lemma input_transcription_only_from_interviewer_witness :
  let event := mkProviderEvent
                 (Some (JString (lit "conversation.item.input_audio_transcription.completed")))
                 None (Some (JString helloText)) None [] in
  event_includes event "input_audio_transcription" = true
  /\ onProviderMessage allOpen ai_b (Some event) initialState = (initialState, [])
  /\ userTranscripts (snd (onProviderMessage atTwoSeconds ai_a (Some event) initialState))
     = [helloText].
Proof.
  refine (conj eq_refl (conj
            (input_transcription_only_from_interviewer allOpen ai_b
               (mkProviderEvent
                  (Some (JString (lit "conversation.item.input_audio_transcription.completed")))
                  None (Some (JString helloText)) None [])
               initialState eq_refl (or_introl eq_refl)) _)).
  reflexivity.
Defined.

(** X24: provider events of any other type are ignored: an event whose
    type is missing, is not a string, or is a string that is none of the
    six handled types and does not contain [input_audio_transcription]
    leaves the state unchanged and has no effect. *)
Theorem unknown_provider_event_ignored
    (env : Env) (key : AiKey) (event : ProviderEvent) (st : State) :
  (forall s, In s knownTypes -> event_is event s = false) ->
  event_includes event "input_audio_transcription" = false ->
  onProviderMessage env key (Some event) st = (st, []).
Proof.
  intros K Hother. unfold onProviderMessage.
  rewrite (K "session.updated"%string), (K "response.audio.delta"%string),
    (K "response.audio.done"%string), (K "response.audio_transcript.delta"%string),
    (K "response.audio_transcript.done"%string), (K "error"%string), Hother
    by (simpl; tauto).
  reflexivity.
Qed.

Lemma unknown_provider_event_ignored_witness :
  let event := mkProviderEvent (Some (JString (lit "response.done"))) None None None [] in
  let untyped := mkProviderEvent (Some (JOther (lit "42"))) None None None [] in
  onProviderMessage allOpen ai_a (Some event) twoOfThree = (twoOfThree, [])
  /\ onProviderMessage allOpen ai_a (Some untyped) twoOfThree = (twoOfThree, []).
Proof.
  split.
  - apply unknown_provider_event_ignored; [| reflexivity].
    intros s Hs. simpl in Hs.
    repeat (destruct Hs as [<- | Hs]; [reflexivity |]). contradiction.
  - apply unknown_provider_event_ignored; [| reflexivity].
    intros s Hs. reflexivity.
Defined.

(** *** The activity log of the client *)

Lemma firstn_firstn_cons {A : Type} (n : nat) (x : A) (l : list A) :
  firstn n (x :: firstn n l) = firstn n (x :: l).
Proof.
  destruct n as [|n]; [reflexivity |]. simpl. f_equal.
  revert l. induction n as [|n IH]; intro l; [reflexivity |].
  destruct l as [|y l]; [reflexivity |].
  simpl. f_equal. apply IH.
Qed.

Lemma fold_firstn_cons {A : Type} (n : nat) (messages prev : list A) :
  fold_left (fun p m => firstn n (m :: p)) messages (firstn n prev)
  = firstn n (rev messages ++ prev).
Proof.
  revert prev. induction messages as [|m messages IH]; intro prev; cbn [fold_left rev].
  - reflexivity.
  - rewrite firstn_firstn_cons, (IH (m :: prev)), <- app_assoc. reflexivity.
Qed.

(** X25: the activity log of the client holds the thirty most recent
    messages, the newest first: whatever is logged, the log never has more
    than thirty lines, and it is the reversed list of messages cut after
    thirty. *)
Theorem activity_log_bounded {A : Type} (messages : list A) :
  logAfter messages = firstn 30 (rev messages)
  /\ (List.length (logAfter messages) <= 30)%nat.
Proof.
  assert (E : logAfter messages = firstn 30 (rev messages)).
  { rewrite <- (app_nil_r (rev messages)).
    exact (fold_firstn_cons 30 messages []). }
  split; [exact E |]. rewrite E. apply firstn_le_length.
Qed.

(** *** What the reason of the end guarantees *)

Lemma updateCoverage_complete (text : jsstring) (c : Coverage) :
  hasAllCoverage c = true -> updateCoverage text c = c.
Proof.
  intro H. apply coverage_eq. intro t. rewrite updateCoverage_covered.
  destruct c as [[] [] [] [] [] []]; try discriminate. destruct t; reflexivity.
Qed.

Lemma handle_preserves_reasonJustified (env : Env) (ev : Event) :
  Sat (preserves reasonJustified) (handle env ev).
Proof.
  intros st H. unfold reasonJustified in *.
  pose proof (handle_policy env ev st) as P.
  assert (Q : forall s', policy s' = policy st ->
                match sessionEndReason s' with
                | Some marker =>
                    MIN_TURNS <= totalTurns s' /\ hasAllCoverage (coverage s') = true
                | Some max_turns => MAX_TURNS <= totalTurns s'
                | None => True
                end).
  { intros s' E.
    rewrite (f_equal (fun p => fst (fst (fst p))) E : totalTurns s' = totalTurns st).
    rewrite (f_equal (fun p => snd (fst p)) E : sessionEndReason s' = sessionEndReason st).
    rewrite (f_equal snd E : coverage s' = coverage st).
    exact H. }
  destruct ev as [| | | | key transcript | | | | message | |];
    try exact (Q _ P).
  - simpl handle.
    pose proof (onTranscriptDone_verdict env key transcript st) as V. cbv zeta in V.
    set (finalText := finalTextOf key transcript st) in *.
    set (c := coverageAfter key finalText (coverage st)) in *.
    set (st' := fst (onTranscriptDone env key transcript st)) in *.
    assert (C : hasAllCoverage (coverage st) = true -> c = coverage st).
    { intro A. unfold c. destruct key; [apply updateCoverage_complete; exact A | reflexivity]. }
    assert (E : totalTurns st' = totalTurns st + 1 /\ coverage st' = c
                /\ sessionEndReason st'
                   = match verdict finalText (totalTurns st + 1) c with
                     | Some reason =>
                         if sessionEnded st then sessionEndReason st else Some reason
                     | None => sessionEndReason st
                     end).
    { destruct (verdict finalText (totalTurns st + 1) c);
        (split; [exact (f_equal (fun p => fst (fst (fst p))) V) |]);
        (split; [exact (f_equal snd V) |]);
        exact (f_equal (fun p => snd (fst p)) V). }
    destruct E as (E1 & E2 & E3). rewrite E1, E2, E3.
    assert (Old : match sessionEndReason st with
                  | Some marker =>
                      MIN_TURNS <= totalTurns st + 1 /\ hasAllCoverage c = true
                  | Some max_turns => MAX_TURNS <= totalTurns st + 1
                  | None => True
                  end).
    { destruct (sessionEndReason st) as [[|]|]; [| lia | exact I].
      destruct H as [H1 H2]. rewrite (C H2). split; [lia | exact H2]. }
    unfold verdict.
    destruct (hasEndMarker finalText).
    + destruct ((MIN_TURNS <=? totalTurns st + 1) && hasAllCoverage c) eqn:G;
        [| exact Old].
      destruct (sessionEnded st); [exact Old |].
      apply andb_prop in G as [G1 G2]. apply Z.leb_le in G1. split; assumption.
    + destruct (Z.leb_spec MAX_TURNS (totalTurns st + 1)); [| exact Old].
      destruct (sessionEnded st); [exact Old | assumption].
  - destruct (type_is message "start").
    + rewrite (f_equal (fun p => snd (fst p)) P
               : sessionEndReason (fst (handle env (ClientMessage message) st)) = None).
      exact I.
    + exact (Q _ P).
Qed.

(** X26: the reason of the end can be trusted: in every state the server
    reaches, a session whose reason is [marker] has counted at least
    [MIN_TURNS] turns and has all six topics covered, and a session whose
    reason is [max_turns] has counted at least [MAX_TURNS] turns. *)
Theorem end_reason_justified (trace : list (Env * Event)) :
  let st := fst (run trace initialState) in
  (sessionEndReason st = Some marker ->
   MIN_TURNS <= totalTurns st /\ hasAllCoverage (coverage st) = true)
  /\ (sessionEndReason st = Some max_turns -> MAX_TURNS <= totalTurns st).
Proof.
  intro st.
  assert (H : reasonJustified st).
  { apply (Sat_run (preserves reasonJustified) trace
             handle_preserves_reasonJustified initialState).
    exact I. }
  unfold reasonJustified in H.
  split; intro E; rewrite E in H; exact H.
Qed.

Lemma end_reason_justified_witness :
  let trace := (allOpen, ClientMessage (control "start"))
               :: (allOpen, TranscriptDone ai_a allTopicsText)
               :: repeat (allOpen, TranscriptDone ai_b yesText) 18
               ++ [ (allOpen, TranscriptDone ai_a closingText) ] in
  let st := fst (run trace initialState) in
  sessionEndReason st = Some marker
  /\ MIN_TURNS <= totalTurns st
  /\ hasAllCoverage (coverage st) = true.
Proof.
  assert (H : sessionEndReason
                (fst (run ((allOpen, ClientMessage (control "start"))
                           :: (allOpen, TranscriptDone ai_a allTopicsText)
                           :: repeat (allOpen, TranscriptDone ai_b yesText) 18
                           ++ [ (allOpen, TranscriptDone ai_a closingText) ])
                        initialState)) = Some marker) by (vm_compute; reflexivity).
  exact (conj H (proj1 (end_reason_justified _) H)).
Defined.

(** *** One audio start per turn *)

#[export] Instance starts_once_compositional (key : AiKey) : Compositional (starts_once key).
Proof.
  split; unfold starts_once.
  - intro st. simpl. repeat split; [lia | constructor | constructor].
  - intros st1 st2 st3 out1 out2 (L1 & S1 & F1) (L2 & S2 & F2).
    unfold audioStartIds in *. rewrite flat_map_app.
    split; [lia |]. split.
    + exact (StronglySorted_app_between _ _ _ _ _ S1 S2 F1 F2).
    + apply Forall_app. split; (eapply Forall_impl; [| eassumption]); simpl; intros; lia.
Qed.

Lemma requestAiResponse_starts_once (env : Env) (key k : AiKey) (delayMs : Z) :
  Sat (starts_once key) (requestAiResponse env k delayMs).
Proof.
  intro st. unfold starts_once, nextUnstarted, requestAiResponse.
  destruct (is_open (get k (aiSockets env))); simpl negb; cbv iota.
  - destruct key, k; simpl;
      destruct (at_ai_a (audioStarted st)), (at_ai_b (audioStarted st));
      repeat split; first [lia | constructor].
  - simpl. repeat split; first [lia | constructor].
Qed.

Lemma onAudioDelta_starts_once (env : Env) (key k : AiKey) (chunk : jsstring) :
  Sat (starts_once key) (onAudioDelta env k chunk).
Proof.
  unfold onAudioDelta.
  refine (Sat_andThen _ _ _ _ _); [| refine (Sat_andThen _ _ _ _ _)].
  - frame_with ltac:(idtac; match goal with
      | |- Sat (starts_once _) (fun _ => _) =>
          let st := fresh "st" in
          intro st; unfold starts_once, nextUnstarted; simpl;
          repeat split; first [lia | constructor]
      end).
  - intro st. unfold reading.
    destruct (get k (audioStarted st)) eqn:G; simpl negb; cbv iota.
    + unfold starts_once. simpl. repeat split; [lia | constructor | constructor].
    + unfold starts_once, nextUnstarted, sendToClient, logEvent, assign, reading,
        andThen, modify, emit.
      destruct (is_open (clientSocket env)), key, k; simpl in *; rewrite ?G;
        destruct (at_ai_a (audioStarted st)), (at_ai_b (audioStarted st));
        try discriminate; simpl;
        repeat split; try lia; repeat constructor; lia.
  - frame_with ltac:(idtac; match goal with
      | |- Sat (starts_once _) (fun _ => _) =>
          let st := fresh "st" in
          intro st; unfold starts_once, nextUnstarted; simpl;
          repeat split; first [lia | constructor]
      end).
Qed.

Ltac starts_once_leaf :=
  idtac;
  match goal with
  | |- Sat (starts_once _) (requestAiResponse _ _ _) =>
      exact (requestAiResponse_starts_once _ _ _ _)
  | |- Sat (starts_once _) (fun _ => _) =>
      let st := fresh "st" in
      intro st; unfold starts_once, nextUnstarted; simpl;
      repeat split; first [lia | constructor]
  end.

Lemma handle_starts_once (key : AiKey) (env : Env) (ev : Event) :
  Sat (starts_once key) (handle env ev).
Proof.
  destruct ev; simpl handle;
    try exact (onAudioDelta_starts_once _ _ _ _);
    try solve [frame_with starts_once_leaf].
  intro st. unfold starts_once, nextUnstarted, emit, responseCreateTimer.
  match goal with
  | |- context [negb ?b] => destruct b
  end; simpl; repeat split; first [lia | constructor].
Qed.

(** X27: the client is told at most once per turn that a role's audio
    starts: along every run of the server the turn identifiers of the
    [audio_start] messages of a role are strictly increasing, hence
    without repetition, and none exceeds the role's current turn. *)
Theorem one_audio_start_per_turn (trace : list (Env * Event)) (key : AiKey) :
  let r := run trace initialState in
  StronglySorted Z.lt (audioStartIds key (snd r))
  /\ NoDup (audioStartIds key (snd r))
  /\ Forall (fun id => 0 <= id <= get key (currentTurn (fst r)))
       (audioStartIds key (snd r)).
Proof.
  intro r.
  destruct (Sat_run (starts_once key) trace (handle_starts_once key) initialState)
    as (_ & S & F).
  fold r in S, F.
  split; [exact S |]. split; [exact (strongly_sorted_NoDup _ S) |].
  eapply Forall_impl; [| exact F].
  intros id. unfold nextUnstarted.
  replace (get key (currentTurn initialState)) with 0 by (destruct key; reflexivity).
  replace (get key (audioStarted initialState)) with false by (destruct key; reflexivity).
  destruct (get key (audioStarted (fst r))); lia.
Qed.
